(** * K-FAC layers of torch_kfac: a shallow embedding

    The three layer classes of [torch_kfac/layers] ([ConvLayer],
    [LinearLayer], [IdentityLayer]) are translated to Rocq functions over a
    model of strided tensors.  A tensor is a storage list together with an
    offset, a shape and strides, as in PyTorch, so that the view operations
    the layers use ([unfold], [unsqueeze], [transpose], [squeeze], slicing)
    only rewrite the shape and the strides, [contiguous] copies when it
    has to, and [view] can fail.  Python exceptions are values of an error
    monad. *)

From Stdlib Require Import String List Arith Lia ZArith Bool.
Import ListNotations.

Set Implicit Arguments.

(** ** Python exceptions as an error monad *)

Inductive PyErr : Type :=
| AttributeError
| IndexError
| NotImplementedError
| RuntimeError
| ValueError.

Inductive result (A : Type) : Type :=
| Ok (a : A)
| Raise (e : PyErr).

Arguments Ok {A} a.
Arguments Raise {A} e.

Definition bind {A B : Type} (m : result A) (k : A -> result B) : result B :=
  match m with
  | Ok a => k a
  | Raise e => Raise e
  end.

Notation "x <- m ;; k" := (bind m (fun x => k))
  (at level 61, m at next level, right associativity).

Definition is_ok {A : Type} (m : result A) : bool :=
  match m with Ok _ => true | Raise _ => false end.

(** ** Scalars

    The entries of a tensor are floating-point numbers in the program.  No
    law of arithmetic is assumed of them: the development is parametric in
    the carrier and its operations. *)

Class Scalar (T : Type) : Type := {
  s_zero : T;
  s_one : T;
  s_add : T -> T -> T;
  s_sub : T -> T -> T;
  s_mul : T -> T -> T;
  s_div : T -> T -> T;
  s_of_nat : nat -> T
}.

#[export] Instance Scalar_Z : Scalar Z := {|
  s_zero := 0%Z;
  s_one := 1%Z;
  s_add := Z.add;
  s_sub := Z.sub;
  s_mul := Z.mul;
  s_div := Z.div;
  s_of_nat := Z.of_nat
|}.

(** ** Index arithmetic *)

Definition prod_list (l : list nat) : nat := fold_right Nat.mul 1 l.

Definition sum_list (l : list nat) : nat := fold_right Nat.add 0 l.

(** Linear position of a multi-index under the given strides. *)
Fixpoint dot (idx st : list nat) : nat :=
  match idx, st with
  | i :: idx', s :: st' => i * s + dot idx' st'
  | _, _ => 0
  end.

(** Row-major strides of a shape. *)
Fixpoint contiguous_strides (sh : list nat) : list nat :=
  match sh with
  | [] => []
  | _ :: sh' => prod_list sh' :: contiguous_strides sh'
  end.

(** All multi-indices of a shape, in row-major order. *)
Fixpoint indices (sh : list nat) : list (list nat) :=
  match sh with
  | [] => [[]]
  | n :: sh' => flat_map (fun i => map (cons i) (indices sh')) (seq 0 n)
  end.

(** [valid_index sh idx]: one coordinate per axis, each below its size. *)
Fixpoint valid_index (sh idx : list nat) : Prop :=
  match sh, idx with
  | [], [] => True
  | n :: sh', i :: idx' => i < n /\ valid_index sh' idx'
  | _, _ => False
  end.

Fixpoint valid_indexb (sh idx : list nat) : bool :=
  match sh, idx with
  | [], [] => true
  | n :: sh', i :: idx' => (i <? n) && valid_indexb sh' idx'
  | _, _ => false
  end.

(** Replace, insert and delete at a position of a list of sizes. *)
Fixpoint set_nth {A : Type} (n : nat) (x : A) (l : list A) : list A :=
  match n, l with
  | _, [] => []
  | 0, _ :: l' => x :: l'
  | S n', y :: l' => y :: set_nth n' x l'
  end.

Fixpoint insert_nth {A : Type} (n : nat) (x : A) (l : list A) : list A :=
  match n, l with
  | 0, _ => x :: l
  | S n', y :: l' => y :: insert_nth n' x l'
  | S _, [] => [x]
  end.

Fixpoint remove_nth {A : Type} (n : nat) (l : list A) : list A :=
  match n, l with
  | _, [] => []
  | 0, _ :: l' => l'
  | S n', y :: l' => y :: remove_nth n' l'
  end.

Definition swap_nth {A : Type} (a b : nat) (d : A) (l : list A) : list A :=
  set_nth a (nth b l d) (set_nth b (nth a l d) l).

(** ** Strided tensors *)

Record Tensor (T : Type) : Type := mkTensor {
  storage : list T;
  offset : nat;
  shape : list nat;
  strides : list nat
}.

Arguments mkTensor {T} storage offset shape strides.

Section TensorOps.
Context {T : Type} `{Scalar T}.

Definition numel (t : Tensor T) : nat := prod_list (shape t).

Definition ndim (t : Tensor T) : nat := length (shape t).

(** [t[idx]]: the entry at a multi-index. *)
Definition tget (t : Tensor T) (idx : list nat) : T :=
  nth (offset t + dot idx (strides t)) (storage t) s_zero.

(** The entries in row-major order, whatever the strides. *)
Definition elements (t : Tensor T) : list T :=
  map (tget t) (indices (shape t)).

(** A fresh row-major tensor holding [f idx] at every index. *)
Definition from_fun (sh : list nat) (f : list nat -> T) : Tensor T :=
  mkTensor (map f (indices sh)) 0 sh (contiguous_strides sh).

(** Two tensors hold the same values: same shape, same entries. *)
Definition tensor_eqv (a b : Tensor T) : Prop :=
  shape a = shape b /\ elements a = elements b.

(** A tensor has one stride per axis. *)
Definition wf (t : Tensor T) : Prop :=
  length (strides t) = length (shape t).

(** [t.shape[i]] *)
Definition shape_at (t : Tensor T) (i : nat) : result nat :=
  match nth_error (shape t) i with
  | Some n => Ok n
  | None => Raise IndexError
  end.

(** [t.shape[-1]] *)
Definition shape_last (t : Tensor T) : result nat :=
  match rev (shape t) with
  | n :: _ => Ok n
  | [] => Raise IndexError
  end.

(** [t.is_contiguous()]: every axis of size other than 1 has the
    row-major stride, the product of the sizes after it; a tensor without
    entries is contiguous. *)
Fixpoint is_contiguous_from (sh st : list nat) : bool :=
  match sh, st with
  | n :: sh', s :: st' =>
      ((n =? 1) || (s =? prod_list sh')) && is_contiguous_from sh' st'
  | _, _ => true
  end.

Definition is_contiguous (t : Tensor T) : bool :=
  (numel t =? 0) || is_contiguous_from (shape t) (strides t).

(** [t.contiguous()]: the tensor itself when it is contiguous, a
    row-major copy of it otherwise. *)
Definition contiguous (t : Tensor T) : Tensor T :=
  if is_contiguous t then t else from_fun (shape t) (tget t).

(** [t.unfold(dim, size, step)] *)
Definition unfold (dim size step : nat) (t : Tensor T) : result (Tensor T) :=
  match nth_error (shape t) dim with
  | None => Raise IndexError
  | Some n =>
      if n <? size then Raise RuntimeError
      else if step =? 0 then Raise RuntimeError
      else
        let s := nth dim (strides t) 0 in
        Ok (mkTensor (storage t) (offset t)
              (set_nth dim ((n - size) / step + 1) (shape t) ++ [size])
              (set_nth dim (step * s) (strides t) ++ [s]))
  end.

(** [t.unsqueeze(dim)], for [0 <= dim <= t.dim()] *)
Definition unsqueeze (dim : nat) (t : Tensor T) : result (Tensor T) :=
  if ndim t <? dim then Raise IndexError
  else
    let s := if dim <? ndim t
             then nth dim (shape t) 0 * nth dim (strides t) 0
             else 1 in
    Ok (mkTensor (storage t) (offset t)
          (insert_nth dim 1 (shape t)) (insert_nth dim s (strides t))).

(** [t.transpose(a, b)] *)
Definition transpose (a b : nat) (t : Tensor T) : result (Tensor T) :=
  if (a <? ndim t) && (b <? ndim t) then
    Ok (mkTensor (storage t) (offset t)
          (swap_nth a b 0 (shape t)) (swap_nth a b 0 (strides t)))
  else Raise IndexError.

(** [t.squeeze(dim)]: drops the axis when its size is 1. *)
Definition squeeze (dim : nat) (t : Tensor T) : result (Tensor T) :=
  match nth_error (shape t) dim with
  | None => Raise IndexError
  | Some n =>
      if n =? 1 then
        Ok (mkTensor (storage t) (offset t)
              (remove_nth dim (shape t)) (remove_nth dim (strides t)))
      else Ok t
  end.

(** Size inference of [view] and [reshape]: at most one requested size
    is [-1], which stands for whatever makes the number of entries
    match. *)
Fixpoint infer_scan (req : list Z) : result (nat * nat) :=
  match req with
  | [] => Ok (1, 0)
  | z :: req' =>
      r <- infer_scan req' ;;
      let '(known, holes) := r in
      if (z =? -1)%Z then Ok (known, S holes)
      else if (z <? 0)%Z then Raise RuntimeError
      else Ok (Z.to_nat z * known, holes)
  end.

Definition infer_size (req : list Z) (n : nat) : result (list nat) :=
  r <- infer_scan req ;;
  let '(known, holes) := r in
  match holes with
  | 0 =>
      if n =? known then Ok (map Z.to_nat req) else Raise RuntimeError
  | 1 =>
      if (0 <? known) && (n mod known =? 0) then
        Ok (map (fun z => if (z =? -1)%Z then n / known else Z.to_nat z) req)
      else Raise RuntimeError
  | _ => Raise RuntimeError
  end.

(** Stride computation of [view] for a tensor that is not contiguous.
    The axes of the tensor are grouped, from the last one, into chunks
    that are laid out row-major; every chunk has to be covered exactly by
    a run of axes of the requested shape.  Both shapes are traversed from
    their last axis; [acc] collects the new strides. *)
Fixpoint view_chunk (rnew : list nat) (view_numel tensor_numel base : nat)
    (acc : list nat) : list nat * nat * list nat :=
  match rnew with
  | [] => ([], view_numel, acc)
  | v :: rnew' =>
      if (view_numel <? tensor_numel) || (v =? 1) then
        view_chunk rnew' (view_numel * v) tensor_numel base
          (view_numel * base :: acc)
      else (rnew, view_numel, acc)
  end.

Fixpoint compute_stride (rold : list (nat * nat)) (rnew : list nat)
    (base tensor_numel view_numel : nat) (acc : list nat)
    : option (list nat) :=
  match rold with
  | [] => if length rnew =? 0 then Some acc else None
  | (n, _) :: rold' =>
      let tensor_numel := tensor_numel * n in
      let chunk_end :=
        match rold' with
        | [] => true
        | (n', s') :: _ =>
            negb (n' =? 1) && negb (s' =? tensor_numel * base)
        end in
      if chunk_end then
        let '(rnew', view_numel', acc') :=
          view_chunk rnew view_numel tensor_numel base acc in
        if view_numel' =? tensor_numel then
          match rold' with
          | [] => if length rnew' =? 0 then Some acc' else None
          | (_, s') :: _ => compute_stride rold' rnew' s' 1 1 acc'
          end
        else None
      else compute_stride rold' rnew base tensor_numel view_numel acc
  end.

(** The strides of a view with shape [new]: the row-major ones when the
    tensor is contiguous, what the chunks allow otherwise. *)
Definition view_strides (t : Tensor T) (new : list nat)
    : option (list nat) :=
  if is_contiguous t then Some (contiguous_strides new)
  else
    match rev (combine (shape t) (strides t)) with
    | [] => Some (map (fun _ => 1) new)
    | (n, s) :: rold =>
        compute_stride ((n, s) :: rold) (rev new) s 1 1 []
    end.

(** [t.view(req)]: the same storage under another shape; fails when
    the sizes do not match or the strides do not allow it. *)
Definition view (req : list Z) (t : Tensor T) : result (Tensor T) :=
  new <- infer_size req (numel t) ;;
  match view_strides t new with
  | Some st => Ok (mkTensor (storage t) (offset t) new st)
  | None => Raise RuntimeError
  end.

(** [t.view_as(other)] *)
Definition view_as (other t : Tensor T) : result (Tensor T) :=
  view (map Z.of_nat (shape other)) t.

(** [t.reshape(req)]: a view when possible, a row-major copy
    otherwise. *)
Definition reshape (req : list Z) (t : Tensor T) : result (Tensor T) :=
  new <- infer_size req (numel t) ;;
  match view_strides t new with
  | Some st => Ok (mkTensor (storage t) (offset t) new st)
  | None => Ok (from_fun new (fun idx =>
      nth (dot idx (contiguous_strides new)) (elements t) s_zero))
  end.

(** [torch.nn.functional.pad(x, pad, mode, value)].  [pad] lists
    (before, after) amounts, starting from the LAST axis. *)
Fixpoint pad_pairs (pad : list nat) : result (list (nat * nat)) :=
  match pad with
  | [] => Ok []
  | [_] => Raise RuntimeError
  | l :: r :: pad' => ps <- pad_pairs pad' ;; Ok ((l, r) :: ps)
  end.

(** The (before, after) amounts of every axis, first axis first. *)
Definition axis_pads (n : nat) (pairs : list (nat * nat))
    : list (nat * nat) :=
  repeat (0, 0) (n - length pairs) ++ rev pairs.

(** Where the entry at coordinate [i] of a padded axis comes from: a
    coordinate of the source axis of size [n], or the fill value. *)
Definition pad_source (mode : string) (n l r i : nat)
    : result (option nat) :=
  if String.eqb mode "constant" then
    Ok (if (l <=? i) && (i <? l + n) then Some (i - l) else None)
  else if String.eqb mode "replicate" then
    Ok (Some (if i <? l then 0 else Nat.min (i - l) (n - 1)))
  else if String.eqb mode "reflect" then
    if (l <? n) && (r <? n) then
      Ok (Some (if i <? l then l - i
                else if i <? l + n then i - l
                else 2 * n - 2 + l - i))
    else Raise RuntimeError
  else if String.eqb mode "circular" then
    if (l <=? n) && (r <=? n) then Ok (Some ((i + n - l) mod n))
    else Raise RuntimeError
  else Raise NotImplementedError.

Fixpoint pad_index (mode : string) (sh : list nat)
    (pads : list (nat * nat)) (idx : list nat)
    : result (option (list nat)) :=
  match sh, pads, idx with
  | n :: sh', (l, r) :: pads', i :: idx' =>
      j <- pad_source mode n l r i ;;
      js <- pad_index mode sh' pads' idx' ;;
      Ok (match j, js with
          | Some j', Some js' => Some (j' :: js')
          | _, _ => None
          end)
  | _, _, _ => Ok (Some [])
  end.

(** The mode is checked on every padded axis before anything is read. *)
Fixpoint pad_check (mode : string) (sh : list nat)
    (pads : list (nat * nat)) : result unit :=
  match sh, pads with
  | n :: sh', (l, r) :: pads' =>
      _ <- (if (l =? 0) && (r =? 0) then Ok None
            else pad_source mode n l r 0) ;;
      pad_check mode sh' pads'
  | _, _ => Ok tt
  end.

(** Padding with the (before, after) amounts of every axis given. *)
Definition pad_axes (x : Tensor T) (pads : list (nat * nat))
    (mode : string) (value : T) : Tensor T :=
  from_fun
    (map (fun '(n, (l, r)) => l + n + r) (combine (shape x) pads))
    (fun idx =>
       match pad_index mode (shape x) pads idx with
       | Ok (Some src) => tget x src
       | _ => value
       end).

Definition F_pad (x : Tensor T) (pad : list nat) (mode : string)
    (value : T) : result (Tensor T) :=
  pairs <- pad_pairs pad ;;
  if ndim x <? length pairs then Raise RuntimeError
  else
    let pads := axis_pads (ndim x) pairs in
    _ <- pad_source mode 1 0 0 0 ;;
    _ <- pad_check mode (shape x) pads ;;
    Ok (pad_axes x pads mode value).

(** [torch.cat([a, b], -1)]: the two tensors side by side along the
    last axis; the other axes have to agree. *)
Definition cat_last (a b : Tensor T) : result (Tensor T) :=
  match rev (shape a), rev (shape b) with
  | na :: ra, nb :: rb =>
      if list_eq_dec Nat.eq_dec ra rb then
        Ok (from_fun (rev ra ++ [na + nb])
              (fun idx =>
                 let lead := removelast idx in
                 let j := last idx 0 in
                 if j <? na then tget a (lead ++ [j])
                 else tget b (lead ++ [j - na])))
      else Raise RuntimeError
  | _, _ => Raise RuntimeError
  end.

(** [a @ b] for two matrices. *)
Definition matmul (a b : Tensor T) : result (Tensor T) :=
  match shape a, shape b with
  | [m; k], [k'; n] =>
      if k =? k' then
        Ok (from_fun [m; n]
              (fun idx =>
                 let i := nth 0 idx 0 in
                 let j := nth 1 idx 0 in
                 fold_left
                   (fun acc l =>
                      s_add acc (s_mul (tget a [i; l]) (tget b [l; j])))
                   (seq 0 k) s_zero))
      else Raise RuntimeError
  | _, _ => Raise RuntimeError
  end.

(** [t / n] for a Python integer [n]: entrywise. *)
Definition div_int (t : Tensor T) (n : nat) : Tensor T :=
  from_fun (shape t) (fun idx => s_div (tget t idx) (s_of_nat n)).

(** [t[:, :-1]]: all columns but the last, as a view. *)
Definition cols_but_last (t : Tensor T) : result (Tensor T) :=
  match shape t with
  | _ :: n :: _ =>
      Ok (mkTensor (storage t) (offset t)
            (set_nth 1 (n - 1) (shape t)) (strides t))
  | _ => Raise IndexError
  end.

(** [t[:, -1]]: the last column, as a view with one axis less. *)
Definition col_last (t : Tensor T) : result (Tensor T) :=
  match shape t with
  | _ :: n :: _ =>
      if n =? 0 then Raise IndexError
      else
        Ok (mkTensor (storage t)
              (offset t + (n - 1) * nth 1 (strides t) 0)
              (remove_nth 1 (shape t)) (remove_nth 1 (strides t)))
  | _ => Raise IndexError
  end.

(** [t[:, None]]: a new axis of size 1 after the first one. *)
Definition colon_none (t : Tensor T) : result (Tensor T) :=
  match shape t with
  | [] => Raise IndexError
  | _ :: _ => unsqueeze 1 t
  end.
End TensorOps.

(** ** What the layers take from the rest of the package

    [torch_kfac/layers/layer.py] (the base class [Layer], with its two
    covariance accumulators and [compute_damping]) and
    [torch_kfac/utils] ([center], [compute_cov], [append_homog],
    [inverse_by_cholesky]) are used by the three layers but are not part
    of the verified files: the layers are parametric in them. *)

Record Layer (Cov : Type) : Type := mkLayer {
  _in_features : nat;
  _out_features : nat;
  _activations_cov : Cov;
  _sensitivities_cov : Cov
}.

Class KfacEnv (T : Type) : Type := {
  Cov : Type;
  add_to_average : Cov -> Tensor T -> result Cov;
  value : Cov -> Tensor T;
  center : Tensor T -> result (Tensor T);
  compute_cov : Tensor T -> result (Tensor T);
  append_homog : Tensor T -> result (Tensor T);
  inverse_by_cholesky : Tensor T -> T -> result (Tensor T);
  compute_damping : Layer Cov -> T -> nat -> result (T * T)
}.

(** [l[i]] on a Python sequence. *)
Definition getitem {A : Type} (l : list A) (i : nat) : result A :=
  match nth_error l i with
  | Some a => Ok a
  | None => Raise IndexError
  end.

(** [l.shape] on a Python tuple or list: there is no such attribute. *)
Definition seq_shape {A : Type} (l : list A) : result (list nat) :=
  Raise AttributeError.

(** [a, b = l] *)
Definition unpack2 {A : Type} (l : list A) : result (A * A) :=
  match l with
  | [a; b] => Ok (a, b)
  | _ => Raise ValueError
  end.

(** ** torch_kfac/layers/identity.py *)

Module IdentityLayer.
Section Defs.
Context {T : Type} {Cov Module : Type}.

Record t : Type := mk {
  module : Module;
  base : Layer Cov
}.

(** [__init__]: the base class is set up with no features at all. *)
Definition init (m : Module) (a s : Cov) : t :=
  mk m (mkLayer 0 0 a s).

Definition update_cov (self : t) : unit * t := (tt, self).

Definition multiply_preconditioner {G : Type} (self : t) (grads : G)
    (damping : T) : G * t :=
  (grads, self).

Definition normalization_factor (self : t) : nat := 1.

Definition vars (self : t) : list (Tensor T) := [].
End Defs.
Arguments t : clear implicits.
End IdentityLayer.

(** ** torch_kfac/layers/linear_layer.py *)

Module LinearLayer.
Section Defs.
Context {T : Type} `{Scalar T} `{KfacEnv T}.

(** The fields of [torch.nn.Linear] the layer reads. *)
Record Linear : Type := mkLinear {
  in_features : nat;
  out_features : nat;
  weight : Tensor T;
  bias : option (Tensor T)
}.

(** The layer once a forward and a backward pass have filled the two
    captures. *)
Record t : Type := mk {
  module : Linear;
  _center : bool;
  base : Layer Cov;
  _activations : Tensor T;
  _sensitivities : Tensor T
}.

Definition has_bias (self : t) : bool :=
  match bias (module self) with Some _ => true | None => false end.

Definition vars (self : t) : list (Tensor T) :=
  match bias (module self) with
  | Some b => [weight (module self); b]
  | None => [weight (module self)]
  end.

(** [__init__]: the base class is told [module.in_features + has_bias]
    and [module.out_features]; centering is off. *)
Definition init (m : Linear) (a s : Cov) (act sen : Tensor T) : t :=
  mk m false
    (mkLayer
       (in_features m + match bias m with Some _ => 1 | None => 0 end)
       (out_features m) a s)
    act sen.

Definition setup (self : t) (center : bool) : t :=
  mk (module self) center (base self) (_activations self)
     (_sensitivities self).

Definition forward_hook (self : t) (inp : list (Tensor T)) : result t :=
  x <- getitem inp 0 ;;
  a <- reshape
         [(-1)%Z;
          Z.of_nat (_in_features (base self)) -
          (if has_bias self then 1 else 0)%Z]%Z x ;;
  Ok (mk (module self) (_center self) (base self) a (_sensitivities self)).

Definition backward_hook (self : t) (grad_out : list (Tensor T))
    : result t :=
  g <- getitem grad_out 0 ;;
  s <- reshape [(-1)%Z; Z.of_nat (_out_features (base self))] g ;;
  Ok (mk (module self) (_center self) (base self) (_activations self) s).

(** The two matrices [update_cov] hands to [compute_cov]: the captures,
    centred when asked to, the activations with the homogeneous column
    when the module has a bias. *)
Definition cov_inputs (center_flag bias_flag : bool) (act sen : Tensor T)
    : result (Tensor T * Tensor T) :=
  act_sen <- (if center_flag
              then a <- center act ;; s <- center sen ;; Ok (a, s)
              else Ok (act, sen)) ;;
  let '(act, sen) := act_sen in
  act <- (if bias_flag then append_homog act else Ok act) ;;
  Ok (act, sen).

Definition update_cov (self : t) : result t :=
  let act := _activations self in
  let sen := _sensitivities self in
  act_sen <- cov_inputs (_center self) (has_bias self) act sen ;;
  let '(act, sen) := act_sen in
  activation_cov <- compute_cov act ;;
  sensitivity_cov <- compute_cov sen ;;
  a <- add_to_average (_activations_cov (base self)) activation_cov ;;
  s <- add_to_average (_sensitivities_cov (base self)) sensitivity_cov ;;
  Ok (mk (module self) (_center self)
        (mkLayer (_in_features (base self)) (_out_features (base self)) a s)
        (_activations self) (_sensitivities self)).

Definition grads_to_mat (self : t) (grads : list (Tensor T))
    : result (Tensor T) :=
  if has_bias self then
    wb <- unpack2 grads ;;
    let '(weights, bias) := wb in
    b <- colon_none bias ;;
    cat_last weights b
  else getitem grads 0.

Definition mat_to_grads (self : t) (mat_grads : Tensor T)
    : result (list (Tensor T)) :=
  if has_bias self then
    w <- cols_but_last mat_grads ;;
    b <- col_last mat_grads ;;
    Ok [w; b]
  else Ok [mat_grads].
End Defs.
End LinearLayer.

(** ** torch_kfac/layers/conv_layer.py *)

Module ConvLayer.
Section Defs.
Context {T : Type} `{Scalar T} `{KfacEnv T}.

(** The fields of [torch.nn.Conv1d], [Conv2d], [Conv3d] the layer
    reads. *)
Record Conv : Type := mkConv {
  in_channels : nat;
  out_channels : nat;
  kernel_size : list nat;
  stride : list nat;
  padding : list nat;
  padding_mode : string;
  weight : Tensor T;
  bias : option (Tensor T)
}.

(** The layer once a forward and a backward pass have filled the two
    captures. *)
Record t : Type := mk {
  module : Conv;
  n_dim : nat;
  base : Layer Cov;
  _activations : Tensor T;
  _sensitivities : Tensor T;
  _center : bool
}.

Definition has_bias_of (m : Conv) : bool :=
  match bias m with Some _ => true | None => false end.

Definition has_bias (self : t) : bool := has_bias_of (module self).

Definition vars (self : t) : list (Tensor T) :=
  match bias (module self) with
  | Some b => [weight (module self); b]
  | None => [weight (module self)]
  end.

(** The two numbers [__init__] hands to the base class, and [n_dim]. *)
Definition init_in_features (m : Conv) : nat :=
  prod_list (kernel_size m) * in_channels m +
  (if has_bias_of m then 1 else 0).

Definition init_n_dim (m : Conv) : nat := length (kernel_size m).

Definition init (m : Conv) (a s : Cov) (act sen : Tensor T) : t :=
  mk m (init_n_dim m) (mkLayer (init_in_features m) (out_channels m) a s)
     act sen false.

Definition setup (self : t) (center : bool) : t :=
  mk (module self) (n_dim self) (base self) (_activations self)
     (_sensitivities self) center.

(** The argument of [F.pad]: every amount of [padding], last axis
    first, twice. *)
Definition pad_arg (padding : list nat) : list nat :=
  flat_map (fun pad => [pad; pad]) (rev padding).

(** The loop [for i, (size, stride) in enumerate(zip(...))] from
    counter [i] on. *)
Fixpoint unfold_loop (i : nat) (ks : list (nat * nat)) (x : Tensor T)
    : result (Tensor T) :=
  match ks with
  | [] => Ok x
  | (size, stride) :: ks' =>
      x' <- unfold (i + 2) size stride x ;;
      unfold_loop (S i) ks' x'
  end.

(** [x.shape[1+i] for i in range(n)] *)
Fixpoint shapes_from (x : Tensor T) (i n : nat) : result (list nat) :=
  match n with
  | 0 => Ok []
  | S n' =>
      a <- shape_at x (1 + i) ;;
      r <- shapes_from x (S i) n' ;;
      Ok (a :: r)
  end.

(** The padding step of [extract_patches]. *)
Definition pad_input (m : Conv) (x : Tensor T) : result (Tensor T) :=
  if 0 <? sum_list (padding m) then
    let padding_mode := padding_mode m in
    let padding_mode :=
      if String.eqb padding_mode "zeros" then "constant"%string
      else padding_mode in
    F_pad x (pad_arg (padding m)) padding_mode s_zero
  else Ok x.

(** The steps of [extract_patches] between the padding and the final
    [view]: windows, channel axis moved, memory made contiguous. *)
Definition windowed (self : t) (x : Tensor T) : result (Tensor T) :=
  x <- unfold_loop 0
         (combine (kernel_size (module self)) (stride (module self))) x ;;
  x <- unsqueeze (2 + n_dim self) x ;;
  x <- transpose 1 (2 + n_dim self) x ;;
  x <- squeeze 1 x ;;
  Ok (contiguous x).

(** The final [view] of [extract_patches]. *)
Definition merge_locations (self : t) (x : Tensor T)
    : result (Tensor T) :=
  b <- shape_at x 0 ;;
  locs <- shapes_from x 0 (n_dim self) ;;
  view [Z.of_nat b; Z.of_nat (sum_list locs); (-1)%Z] x.

Definition extract_patches (self : t) (x : Tensor T)
    : result (Tensor T) :=
  x <- pad_input (module self) x ;;
  x <- windowed self x ;;
  merge_locations self x.

Definition forward_hook (self : t) (inp : list (Tensor T)) : result t :=
  x <- getitem inp 0 ;;
  a <- extract_patches self x ;;
  Ok (mk (module self) (n_dim self) (base self) a (_sensitivities self)
        (_center self)).

Definition backward_hook (self : t) (grad_out : list (Tensor T))
    : result t :=
  g <- getitem grad_out 0 ;;
  if ndim g =? 0 then Raise IndexError
  else
    s <- transpose 1 (ndim g - 1) g ;;
    let s := contiguous s in
    b <- shape_at s 0 ;;
    c <- shape_last s ;;
    s <- view [Z.of_nat b; (-1)%Z; Z.of_nat c] s ;;
    Ok (mk (module self) (n_dim self) (base self) (_activations self) s
          (_center self)).

(** The two matrices [update_cov] hands to [compute_cov], from the
    flattened captures. *)
Definition cov_inputs (center_flag bias_flag : bool) (act sen : Tensor T)
    : result (Tensor T * Tensor T) :=
  act_sen <- (if center_flag
              then a <- center act ;; s <- center sen ;; Ok (a, s)
              else Ok (act, sen)) ;;
  let '(act, sen) := act_sen in
  act <- (if bias_flag then append_homog act else Ok act) ;;
  Ok (act, sen).

Definition update_cov (self : t) : result t :=
  let act := _activations self in
  let sen := _sensitivities self in
  na <- shape_last act ;;
  act <- reshape [(-1)%Z; Z.of_nat na] act ;;
  ns <- shape_last sen ;;
  sen <- reshape [(-1)%Z; Z.of_nat ns] sen ;;
  act_sen <- cov_inputs (_center self) (has_bias self) act sen ;;
  let '(act, sen) := act_sen in
  activation_cov <- compute_cov act ;;
  sensitivity_cov <- compute_cov sen ;;
  a <- add_to_average (_activations_cov (base self)) activation_cov ;;
  s <- add_to_average (_sensitivities_cov (base self)) sensitivity_cov ;;
  Ok (mk (module self) (n_dim self)
        (mkLayer (_in_features (base self)) (_out_features (base self)) a s)
        (_activations self) (_sensitivities self) (_center self)).

(** The matrix of gradients [multiply_preconditioner] assembles. *)
Definition mat_grads (self : t) (grads : list (Tensor T))
    : result (Tensor T) :=
  if has_bias self then
    wb <- unpack2 grads ;;
    let '(weights, bias) := wb in
    n <- shape_at weights 0 ;;
    weights <- view [Z.of_nat n; (-1)%Z] weights ;;
    b <- colon_none bias ;;
    cat_last weights b
  else
    g <- getitem grads 0 ;;
    sh <- seq_shape grads ;;
    n <- getitem sh 0 ;;
    view [Z.of_nat n; (-1)%Z] g.

(** [sen_cov_inverse @ mat_grads @ act_cov_inverse / renorm_coeff];
    [@] and [/] associate to the left. *)
Definition nat_grads (self : t) (sen_cov_inverse mat act_cov_inverse
    : Tensor T) : result (Tensor T) :=
  renorm_coeff <- shape_at (_activations self) 1 ;;
  p <- matmul sen_cov_inverse mat ;;
  q <- matmul p act_cov_inverse ;;
  Ok (div_int q renorm_coeff).

(** The split at the end of [multiply_preconditioner]. *)
Definition split_grads (self : t) (grads : list (Tensor T))
    (nat_grads : Tensor T) : result (list (Tensor T)) :=
  if has_bias self then
    w <- cols_but_last nat_grads ;;
    g <- getitem grads 0 ;;
    w <- view_as g w ;;
    b <- col_last nat_grads ;;
    Ok [w; b]
  else
    g <- getitem grads 0 ;;
    w <- view_as g nat_grads ;;
    Ok [w].

Definition multiply_preconditioner (self : t) (grads : list (Tensor T))
    (damping : T) : result (list (Tensor T)) :=
  let act_cov := value (_activations_cov (base self)) in
  let sen_cov := value (_sensitivities_cov (base self)) in
  n <- shape_at (_activations self) 1 ;;
  damp <- compute_damping (base self) damping n ;;
  let '(a_damp, s_damp) := damp in
  act_cov_inverse <- inverse_by_cholesky act_cov a_damp ;;
  sen_cov_inverse <- inverse_by_cholesky sen_cov s_damp ;;
  mat <- mat_grads self grads ;;
  ng <- nat_grads self sen_cov_inverse mat act_cov_inverse ;;
  split_grads self grads ng.
End Defs.
End ConvLayer.

(** ** The steps of [update_cov]

    The two layers prepare the two matrices in the same way and do the
    same with them afterwards. *)

Section UpdateCovSteps.
Context {T : Type} `{KfacEnv T}.

(** [if self._center: act = center(act); sen = center(sen)] *)
Definition centred (flag : bool) (act sen : Tensor T)
    : result (Tensor T * Tensor T) :=
  if flag then a <- center act ;; s <- center sen ;; Ok (a, s)
  else Ok (act, sen).

(** The last four lines of [update_cov]: the covariance of the
    activations, the covariance of the sensitivities, then the two
    accumulators in the same order. *)
Definition fold_cov (b : Layer Cov) (act sen : Tensor T)
    : result (Layer Cov) :=
  activation_cov <- compute_cov act ;;
  sensitivity_cov <- compute_cov sen ;;
  a <- add_to_average (_activations_cov b) activation_cov ;;
  s <- add_to_average (_sensitivities_cov b) sensitivity_cov ;;
  Ok (mkLayer (_in_features b) (_out_features b) a s).
End UpdateCovSteps.

(** ** Sliding windows

    What [unfold] makes of one spatial axis after the other: the number of
    window positions along every axis, the strides of the position axes,
    and the coordinate a window position and a kernel offset point to. *)

Fixpoint window_counts (sp ks ss : list nat) : list nat :=
  match sp, ks, ss with
  | n :: sp', k :: ks', s :: ss' =>
      ((n - k) / s + 1) :: window_counts sp' ks' ss'
  | _, _, _ => []
  end.

Fixpoint window_strides (st ss : list nat) : list nat :=
  match st, ss with
  | t :: st', s :: ss' => s * t :: window_strides st' ss'
  | _, _ => []
  end.

Fixpoint window_source (ls ss js : list nat) : list nat :=
  match ls, ss, js with
  | l :: ls', s :: ss', j :: js' => l * s + j :: window_source ls' ss' js'
  | _, _, _ => []
  end.

(** Every kernel fits its axis and every stride is positive. *)
Fixpoint windows_fit (sp ks ss : list nat) : Prop :=
  match sp, ks, ss with
  | [], [], [] => True
  | n :: sp', k :: ks', s :: ss' =>
      k <= n /\ 0 < s /\ windows_fit sp' ks' ss'
  | _, _, _ => False
  end.

(** ** The patch layout the specification describes

    "Final shape: (batch, total_spatial_locations, in_channels x
    prod(kernel_size))", with the number of locations the product of the
    per-axis window counts. *)
Definition spec_patch_shape (b c : nat) (sp ks ss : list nat) : list nat :=
  [b; prod_list (window_counts sp ks ss); c * prod_list ks].

(** The shape [extract_patches] computes: its location axis has the SUM
    of the per-axis window counts, and the last axis takes what is left
    of the entries. *)
Definition code_patch_shape (b c : nat) (sp ks ss : list nat) : list nat :=
  let locs := window_counts sp ks ss in
  [b; sum_list locs;
   (b * prod_list (locs ++ c :: ks)) / (b * sum_list locs)].

Section PatchOrder.
Context {T : Type} `{Scalar T}.

(** "Channel becomes the innermost axis in each extracted patch": for a
    one-dimensional convolution with [c] channels, kernel size [k] and
    stride [s], feature [j * c + ch] of the patch at location [l] is the
    input of channel [ch] at kernel offset [j]. *)
Definition channel_innermost (c k s : nat) (x out : Tensor T) : Prop :=
  forall i l ch j,
    valid_index (shape out) [i; l; j * c + ch] -> ch < c -> j < k ->
    tget out [i; l; j * c + ch] = tget x [i; ch; l * s + j].

(** Channel outermost, kernel offset innermost: feature [ch * k + j]. *)
Definition channel_outermost (c k s : nat) (x out : Tensor T) : Prop :=
  forall i l ch j,
    valid_index (shape out) [i; l; ch * k + j] -> ch < c -> j < k ->
    tget out [i; l; ch * k + j] = tget x [i; ch; l * s + j].
End PatchOrder.

(** Two calls end alike: both raise the same exception, or both return
    and the returned layers agree on what [fa] and [fb] read off them. *)
Definition same_outcome {A B C : Type} (fa : A -> C) (fb : B -> C)
    (ra : result A) (rb : result B) : Prop :=
  match ra, rb with
  | Ok a, Ok b => fa a = fb b
  | Raise e, Raise e' => e = e'
  | _, _ => False
  end.

(** ** Helpers of the package, as the specification describes them *)

Section SpecHelpers.
Context {T : Type} `{Scalar T}.

(** Modelled from the spec: [append_homog] of [torch_kfac/utils], which is
    not among the verified files.  "Appends a constant-one column to
    activations (homogeneous coordinates)"; "the augmented activation row
    always has the constant-column appended last". *)
Definition append_homog_spec (t : Tensor T) : result (Tensor T) :=
  match rev (shape t) with
  | _ :: lead => cat_last t (from_fun (rev lead ++ [1]) (fun _ => s_one))
  | [] => Raise RuntimeError
  end.

(** Zero padding of the spatial axes, as the specification words it:
    coordinate [j] of a spatial axis of size [n] padded by [p] on either
    side shows the input at [j - p] when [p <= j < p + n], and the fill
    value otherwise. *)
Fixpoint zero_pad_source (sp ps js : list nat) : option (list nat) :=
  match sp, ps, js with
  | n :: sp', p :: ps', j :: js' =>
      if (p <=? j) && (j <? p + n) then
        match zero_pad_source sp' ps' js' with
        | Some src => Some (j - p :: src)
        | None => None
        end
      else None
  | _, _, _ => Some []
  end.

(** The sizes of the spatial axes once padded. *)
Fixpoint padded_sizes (sp ps : list nat) : list nat :=
  match sp, ps with
  | n :: sp', p :: ps' => p + n + p :: padded_sizes sp' ps'
  | _, _ => []
  end.
End SpecHelpers.

(** ** Sample layers

    A small environment over the integers, in which every helper of the
    package hands its argument back, and a few layers over it. *)

Definition sample_env : KfacEnv Z := {|
  Cov := Tensor Z;
  add_to_average := fun _ t => Ok t;
  value := fun c => c;
  center := fun t => Ok t;
  compute_cov := fun t => Ok t;
  append_homog := fun t => Ok t;
  inverse_by_cholesky := fun t _ => Ok t;
  compute_damping := fun _ d _ => Ok (d, d)
|}.

(** The tensor of the given shape holding 1, 2, 3, ... row-major. *)
Definition ramp (sh : list nat) : Tensor Z :=
  mkTensor (map Z.of_nat (seq 1 (prod_list sh))) 0 sh
    (contiguous_strides sh).

Definition sample_conv (c o : nat) (ks ss ps : list nat)
    (with_bias : bool) : @ConvLayer.t Z sample_env :=
  ConvLayer.init (H0 := sample_env)
    (ConvLayer.mkConv c o ks ss ps "zeros" (ramp (o :: c :: ks))
       (if with_bias then Some (ramp [o]) else None))
    (ramp [1]) (ramp [1]) (ramp [1; 1; 1]) (ramp [1; 1; 1]).

(** The sample environment with [append_homog] as the specification
    describes it. *)
Definition homog_env : KfacEnv Z := {|
  Cov := Tensor Z;
  add_to_average := fun _ t => Ok t;
  value := fun c => c;
  center := fun t => Ok t;
  compute_cov := fun t => Ok t;
  append_homog := append_homog_spec;
  inverse_by_cholesky := fun t _ => Ok t;
  compute_damping := fun _ d _ => Ok (d, d)
|}.

(** The sample environment with a Cholesky inversion that fails, as it
    does on a matrix that is not positive definite. *)
Definition singular_env : KfacEnv Z := {|
  Cov := Tensor Z;
  add_to_average := fun _ t => Ok t;
  value := fun c => c;
  center := fun t => Ok t;
  compute_cov := fun t => Ok t;
  append_homog := fun t => Ok t;
  inverse_by_cholesky := fun _ _ => Raise RuntimeError;
  compute_damping := fun _ d _ => Ok (d, d)
|}.

Definition singular_conv : @ConvLayer.t Z singular_env :=
  ConvLayer.mk (H0 := singular_env)
    (ConvLayer.mkConv 2 2 [2] [1] [0] "zeros" (ramp [2; 2; 2])
       (Some (ramp [2])))
    1 (mkLayer 5 2 (ramp [5; 5]) (ramp [2; 2]))
    (ramp [2; 3; 4]) (ramp [2; 3; 2]) false.

(** A layer with both captures and both covariances of the sizes that fit
    gradients of [o] outputs and [f] features per patch ([f + 1] with the
    bias column). *)
Definition sample_conv_trained (c o : nat) (ks : list nat)
    (with_bias : bool) (locations : nat) : @ConvLayer.t Z sample_env :=
  let f := c * prod_list ks in
  let fb := if with_bias then f + 1 else f in
  ConvLayer.mk (H0 := sample_env)
    (ConvLayer.mkConv c o ks (map (fun _ => 1) ks) (map (fun _ => 0) ks)
       "zeros" (ramp (o :: c :: ks))
       (if with_bias then Some (ramp [o]) else None))
    (length ks)
    (mkLayer fb o (ramp [fb; fb]) (ramp [o; o]))
    (ramp [2; locations; f]) (ramp [2; locations; o]) false.

Definition sample_linear (f o : nat) (with_bias : bool)
    : @LinearLayer.t Z sample_env :=
  let fb := if with_bias then f + 1 else f in
  LinearLayer.mk (H0 := sample_env)
    (LinearLayer.mkLinear f o (ramp [o; f])
       (if with_bias then Some (ramp [o]) else None))
    false
    (mkLayer fb o (ramp [fb; fb]) (ramp [o; o]))
    (ramp [2; f]) (ramp [2; o]).

(** * Properties *)

(** ** Row-major enumeration of indices *)

Lemma length_indices (sh : list nat) :
  length (indices sh) = prod_list sh.
Proof.
  induction sh as [|n sh IH]; simpl; [reflexivity|].
  assert (G : forall a, length
            (flat_map (fun i => map (cons i) (indices sh)) (seq a n))
            = n * prod_list sh).
  { induction n as [|n IHn]; intros a; simpl; [reflexivity|].
    rewrite length_app, length_map, IHn, IH. reflexivity. }
  apply G.
Qed.

Lemma indices_valid (sh idx : list nat) :
  In idx (indices sh) -> valid_index sh idx.
Proof.
  revert idx. induction sh as [|n sh IH]; intros idx Hin; simpl in *.
  - destruct Hin as [<-|[]]. exact I.
  - apply in_flat_map in Hin. destruct Hin as [i [Hi Hin]].
    apply in_map_iff in Hin. destruct Hin as [tl [<- Htl]].
    apply in_seq in Hi. split; [lia|]. apply IH, Htl.
Qed.

Lemma valid_index_length (sh idx : list nat) :
  valid_index sh idx -> length idx = length sh.
Proof.
  revert idx. induction sh as [|n sh IH]; intros [|i idx]; simpl;
    try tauto.
  intros [_ Hv]. f_equal. apply IH, Hv.
Qed.

Lemma valid_indexb_true (sh idx : list nat) :
  valid_indexb sh idx = true <-> valid_index sh idx.
Proof.
  revert idx. induction sh as [|n sh IH]; intros [|i idx]; simpl;
    try (split; [discriminate|tauto]); [tauto|].
  rewrite andb_true_iff, Nat.ltb_lt, IH. tauto.
Qed.

Lemma dot_bound (sh idx : list nat) :
  valid_index sh idx -> dot idx (contiguous_strides sh) < prod_list sh.
Proof.
  revert idx. induction sh as [|n sh IH]; intros [|i idx]; simpl;
    try tauto; [lia|].
  intros [Hi Hv]. specialize (IH _ Hv). nia.
Qed.

Lemma nth_flat_map_uniform {A : Type} (g : nat -> list A) (P : nat) :
  (forall i, length (g i) = P) ->
  forall n a i p d, i < n -> p < P ->
    nth (i * P + p) (flat_map g (seq a n)) d = nth p (g (a + i)) d.
Proof.
  intros Hlen. induction n as [|n IH]; intros a i p d Hi Hp; [lia|].
  simpl. destruct i as [|i].
  - simpl. rewrite app_nth1 by (rewrite Hlen; exact Hp).
    rewrite Nat.add_0_r. reflexivity.
  - rewrite app_nth2 by (rewrite Hlen; simpl; lia).
    rewrite Hlen. replace (S i * P + p - P) with (i * P + p) by (simpl; lia).
    rewrite IH by lia. f_equal. f_equal. lia.
Qed.

(** The index at row-major position [dot idx] is [idx]. *)
Lemma nth_indices (sh idx d : list nat) :
  valid_index sh idx ->
  nth (dot idx (contiguous_strides sh)) (indices sh) d = idx.
Proof.
  revert idx. induction sh as [|n sh IH]; intros [|i idx]; simpl;
    try tauto.
  intros [Hi Hv].
  rewrite (nth_flat_map_uniform
             (fun i => map (cons i) (indices sh)) (P := prod_list sh)).
  - simpl. rewrite (nth_indep _ d (i :: d)).
    + rewrite map_nth. f_equal. apply IH, Hv.
    + rewrite length_map, length_indices. apply dot_bound, Hv.
  - intros k. rewrite length_map. apply length_indices.
  - exact Hi.
  - apply dot_bound, Hv.
Qed.

Lemma flat_map_seq_blocks (P n a : nat) :
  flat_map (fun i => seq (i * P) P) (seq a n) = seq (a * P) (n * P).
Proof.
  revert a. induction n as [|n IH]; intros a; simpl; [reflexivity|].
  rewrite IH, seq_app. f_equal. f_equal. lia.
Qed.

Lemma map_add_seq (a b n : nat) :
  map (fun p => a + p) (seq b n) = seq (a + b) n.
Proof.
  revert b. induction n as [|n IH]; intros b; simpl; [reflexivity|].
  rewrite IH. f_equal. f_equal. lia.
Qed.

(** The row-major positions of the indices of a shape count up from 0. *)
Lemma ravel_seq (sh : list nat) :
  map (fun idx => dot idx (contiguous_strides sh)) (indices sh)
  = seq 0 (prod_list sh).
Proof.
  induction sh as [|n sh IH]; [reflexivity|].
  cbn [indices contiguous_strides prod_list fold_right].
  fold (prod_list sh).
  transitivity (seq (0 * prod_list sh) (n * prod_list sh));
    [|reflexivity].
  rewrite <- flat_map_seq_blocks.
  rewrite flat_map_concat_map, concat_map, map_map,
    <- flat_map_concat_map.
  apply flat_map_ext. intros i.
  rewrite map_map. cbn [dot].
  rewrite <- (map_map (fun idx => dot idx (contiguous_strides sh))
                (fun p => i * prod_list sh + p)), IH.
  rewrite map_add_seq. f_equal. lia.
Qed.

(** ** Contiguous tensors *)

Lemma is_contiguous_from_canonical (sh : list nat) :
  is_contiguous_from sh (contiguous_strides sh) = true.
Proof.
  induction sh as [|n sh IH]; simpl; [reflexivity|].
  rewrite Nat.eqb_refl, orb_true_r. exact IH.
Qed.

Lemma dot_contiguous_from (sh st idx : list nat) :
  length st = length sh ->
  is_contiguous_from sh st = true ->
  valid_index sh idx ->
  dot idx st = dot idx (contiguous_strides sh).
Proof.
  revert st idx. induction sh as [|n sh IH]; intros [|s st] [|i idx];
    simpl; try tauto; try discriminate.
  intros Hlen Hc [Hi Hv]. apply andb_true_iff in Hc. destruct Hc as [Hs Hc].
  rewrite (IH st idx) by (auto; lia).
  apply orb_true_iff in Hs. destruct Hs as [Hs|Hs].
  - apply Nat.eqb_eq in Hs. subst n. replace i with 0 by lia. reflexivity.
  - apply Nat.eqb_eq in Hs. subst s. reflexivity.
Qed.

Lemma valid_index_prod_pos (sh idx : list nat) :
  valid_index sh idx -> 0 < prod_list sh.
Proof.
  revert idx. induction sh as [|n sh IH]; intros [|i idx]; simpl;
    try tauto; [lia|].
  intros [Hi Hv]. specialize (IH _ Hv). nia.
Qed.

Section TensorLemmas.
Context {T : Type} `{Scalar T}.

Lemma tget_from_fun (sh : list nat) (f : list nat -> T) (idx : list nat) :
  valid_index sh idx -> tget (from_fun sh f) idx = f idx.
Proof.
  intros Hv. unfold tget, from_fun. simpl.
  rewrite (nth_indep _ s_zero (f [])).
  - rewrite map_nth. f_equal. apply nth_indices, Hv.
  - rewrite length_map, length_indices. apply dot_bound, Hv.
Qed.

Lemma wf_from_fun (sh : list nat) (f : list nat -> T) :
  wf (from_fun sh f).
Proof.
  unfold wf. simpl. induction sh; simpl; congruence.
Qed.

Lemma is_contiguous_from_fun (sh : list nat) (f : list nat -> T) :
  is_contiguous (from_fun sh f) = true.
Proof.
  unfold is_contiguous. simpl. rewrite is_contiguous_from_canonical.
  apply orb_true_r.
Qed.

(** In a contiguous tensor the entry at [idx] sits at the row-major
    position of [idx], counted from the offset. *)
Lemma tget_contiguous_pos (t : Tensor T) (idx : list nat) :
  wf t -> is_contiguous t = true -> valid_index (shape t) idx ->
  tget t idx =
  nth (offset t + dot idx (contiguous_strides (shape t))) (storage t)
    s_zero.
Proof.
  intros Hwf Hc Hv. unfold tget. f_equal. f_equal.
  unfold is_contiguous in Hc. apply orb_true_iff in Hc.
  destruct Hc as [Hz|Hc].
  - apply Nat.eqb_eq in Hz. apply valid_index_prod_pos in Hv.
    unfold numel in Hz. lia.
  - apply dot_contiguous_from; assumption.
Qed.

Lemma shape_contiguous (t : Tensor T) : shape (contiguous t) = shape t.
Proof. unfold contiguous. destruct (is_contiguous t); reflexivity. Qed.

Lemma is_contiguous_contiguous (t : Tensor T) :
  is_contiguous (contiguous t) = true.
Proof.
  unfold contiguous. destruct (is_contiguous t) eqn:E; [exact E|].
  apply is_contiguous_from_fun.
Qed.

Lemma wf_contiguous (t : Tensor T) : wf t -> wf (contiguous t).
Proof.
  unfold contiguous. destruct (is_contiguous t); [tauto|].
  intros _. apply wf_from_fun.
Qed.

Lemma tget_contiguous (t : Tensor T) (idx : list nat) :
  valid_index (shape t) idx -> tget (contiguous t) idx = tget t idx.
Proof.
  intros Hv. unfold contiguous. destruct (is_contiguous t); [reflexivity|].
  apply tget_from_fun, Hv.
Qed.

Lemma elements_contiguous (t : Tensor T) :
  wf t -> is_contiguous t = true ->
  elements t =
  map (fun p => nth (offset t + p) (storage t) s_zero) (seq 0 (numel t)).
Proof.
  intros Hwf Hc. unfold elements, numel.
  rewrite <- (ravel_seq (shape t)), map_map.
  apply map_ext_in. intros idx Hin.
  apply tget_contiguous_pos; auto. apply indices_valid, Hin.
Qed.
End TensorLemmas.

(** ** Lists of sizes *)

Lemma set_nth_app {A : Type} (l r : list A) (x y : A) :
  set_nth (length l) x (l ++ y :: r) = l ++ x :: r.
Proof. induction l as [|a l IH]; simpl; [reflexivity|]. now rewrite IH. Qed.

Lemma nth_app_mid {A : Type} (l r : list A) (y d : A) :
  nth (length l) (l ++ y :: r) d = y.
Proof. induction l as [|a l IH]; simpl; [reflexivity|exact IH]. Qed.

Lemma nth_error_app_mid {A : Type} (l r : list A) (y : A) :
  nth_error (l ++ y :: r) (length l) = Some y.
Proof. induction l as [|a l IH]; simpl; [reflexivity|exact IH]. Qed.

Lemma insert_nth_app {A : Type} (l r : list A) (x : A) :
  insert_nth (length l) x (l ++ r) = l ++ x :: r.
Proof.
  induction l as [|a l IH]; simpl; [destruct r; reflexivity|].
  now rewrite IH.
Qed.

Lemma remove_nth_app {A : Type} (l r : list A) (y : A) :
  remove_nth (length l) (l ++ y :: r) = l ++ r.
Proof. induction l as [|a l IH]; simpl; [reflexivity|]. now rewrite IH. Qed.

(** Moving the channel axis behind the position axes: what
    [unsqueeze(2+n).transpose(1, 2+n).squeeze(1)] does to a list with one
    entry per axis. *)
Lemma move_channel_axis {A : Type} (a c z d : A) (ls js : list A) :
  remove_nth 1
    (swap_nth 1 (2 + length ls) d
       (insert_nth (2 + length ls) z (a :: c :: ls ++ js)))
  = a :: ls ++ c :: js.
Proof.
  unfold swap_nth. cbn [Nat.add insert_nth].
  rewrite insert_nth_app. cbn [nth].
  rewrite nth_app_mid. cbn [set_nth].
  rewrite set_nth_app. reflexivity.
Qed.

Lemma dot_app (i1 i2 s1 s2 : list nat) :
  length i1 = length s1 ->
  dot (i1 ++ i2) (s1 ++ s2) = dot i1 s1 + dot i2 s2.
Proof.
  revert s1. induction i1 as [|i i1 IH]; intros [|s s1]; simpl;
    try discriminate; [reflexivity|].
  intros Hlen. rewrite IH by lia. lia.
Qed.

Lemma dot_window_source (ls ss js st : list nat) :
  length ls = length st -> length ss = length st ->
  length js = length st ->
  dot (window_source ls ss js) st =
  dot ls (window_strides st ss) + dot js st.
Proof.
  revert ls ss js. induction st as [|t st IH];
    intros [|l ls] [|s ss] [|j js]; simpl; try discriminate;
    [reflexivity|].
  intros H1 H2 H3. rewrite IH by lia. nia.
Qed.

Lemma length_window_counts (sp ks ss : list nat) :
  windows_fit sp ks ss -> length (window_counts sp ks ss) = length sp.
Proof.
  revert ks ss. induction sp as [|n sp IH]; intros [|k ks] [|s ss]; simpl;
    try tauto.
  intros [_ [_ Hf]]. f_equal. apply IH, Hf.
Qed.

Lemma windows_fit_length (sp ks ss : list nat) :
  windows_fit sp ks ss ->
  length ks = length sp /\ length ss = length sp.
Proof.
  revert ks ss. induction sp as [|n sp IH]; intros [|k ks] [|s ss]; simpl;
    try tauto.
  intros [_ [_ Hf]]. destruct (IH _ _ Hf). split; congruence.
Qed.

Lemma length_window_strides (st ss : list nat) :
  length ss = length st -> length (window_strides st ss) = length st.
Proof.
  revert ss. induction st as [|t st IH]; intros [|s ss]; simpl;
    try discriminate; [reflexivity|].
  intros Hl. f_equal. apply IH. lia.
Qed.

(** ** The windowing loop of [extract_patches] *)

Section Windows.
Context {T : Type} `{Scalar T} `{KfacEnv T}.

Lemma unfold_loop_spec (sp : list nat) :
  forall (ks ss st : list nat) (i : nat) (pre suf stpre stsuf : list nat)
         (x : Tensor T),
    windows_fit sp ks ss ->
    length st = length sp ->
    length pre = i + 2 -> length stpre = i + 2 ->
    shape x = pre ++ sp ++ suf ->
    strides x = stpre ++ st ++ stsuf ->
    ConvLayer.unfold_loop i (combine ks ss) x =
    Ok (mkTensor (storage x) (offset x)
          (pre ++ window_counts sp ks ss ++ suf ++ ks)
          (stpre ++ window_strides st ss ++ stsuf ++ st)).
Proof.
  induction sp as [|n sp IH];
    intros [|k ks] [|s ss] [|t st] i pre suf stpre stsuf x Hfit Hst
           Hpre Hstpre Hsh Hstr; simpl in Hfit; try tauto;
    try discriminate.
  - simpl. rewrite !app_nil_r. simpl in Hsh, Hstr.
    rewrite <- Hsh, <- Hstr. destruct x; reflexivity.
  - destruct Hfit as [Hk [Hs Hfit]].
    cbn [combine ConvLayer.unfold_loop]. unfold unfold.
    rewrite Hsh, Hstr, <- Hpre.
    cbn [app]. rewrite nth_error_app_mid.
    destruct (Nat.ltb_spec n k) as [Hlt|_]; [lia|].
    destruct (Nat.eqb_spec s 0) as [Hz|_]; [lia|].
    rewrite set_nth_app.
    rewrite Hpre, <- Hstpre, nth_app_mid, set_nth_app.
    cbn [bind].
    rewrite (IH ks ss st (S i) (pre ++ [(n - k) / s + 1]) (suf ++ [k])
                (stpre ++ [s * t]) (stsuf ++ [t])); cbn [storage offset
                shape strides window_counts window_strides]; auto.
    + f_equal. f_equal; rewrite <- !app_assoc; reflexivity.
    + rewrite length_app. simpl. lia.
    + rewrite length_app. simpl. lia.
    + rewrite <- !app_assoc. simpl. rewrite <- !app_assoc. reflexivity.
    + rewrite <- !app_assoc. simpl. rewrite <- !app_assoc. reflexivity.
Qed.

Lemma insert_nth_at {A : Type} (n : nat) (l r : list A) (x : A) :
  n = length l -> insert_nth n x (l ++ r) = l ++ x :: r.
Proof. intros ->. apply insert_nth_app. Qed.

Lemma swap_channel {A : Type} (n : nat) (a c z d : A) (ls js : list A) :
  n = length ls ->
  swap_nth 1 (S (S n)) d (a :: c :: ls ++ z :: js)
  = a :: z :: ls ++ c :: js.
Proof.
  intros ->. unfold swap_nth. cbn [nth]. rewrite nth_app_mid.
  cbn [set_nth]. rewrite set_nth_app. reflexivity.
Qed.

(** [x.unsqueeze(2+n).transpose(1, 2+n).squeeze(1)] on a tensor with
    axes (batch, channel, n position axes, the rest). *)
Lemma move_channel_spec (x : Tensor T) (a c sa sc : nat)
    (ls js sls sjs : list nat) :
  shape x = a :: c :: ls ++ js ->
  strides x = sa :: sc :: sls ++ sjs ->
  length sls = length ls ->
  (x1 <- unsqueeze (2 + length ls) x ;;
   x2 <- transpose 1 (2 + length ls) x1 ;;
   squeeze 1 x2)
  = Ok (mkTensor (storage x) (offset x)
          (a :: ls ++ c :: js) (sa :: sls ++ sc :: sjs)).
Proof.
  intros Hsh Hst Hlen. unfold unsqueeze, ndim.
  rewrite Hsh, Hst. cbn [length]. rewrite length_app.
  destruct (Nat.ltb_spec (S (S (length ls + length js))) (2 + length ls))
    as [Hlt|_]; [lia|].
  set (z := if _ <? _ then _ else 1). clearbody z.
  cbn [bind]. unfold transpose, ndim. cbn [shape strides storage offset].
  cbn [Nat.add insert_nth].
  rewrite (insert_nth_at ls js 1 eq_refl).
  rewrite (insert_nth_at sls sjs z (eq_sym Hlen)).
  cbn [length]. rewrite length_app. cbn [length].
  destruct (Nat.ltb_spec 1 (S (S (length ls + S (length js)))))
    as [_|Hge]; [|lia].
  destruct (Nat.ltb_spec (S (S (length ls)))
              (S (S (length ls + S (length js))))) as [_|Hge]; [|lia].
  cbn [andb bind].
  rewrite (swap_channel a c 1 0 ls js eq_refl).
  rewrite (swap_channel sa sc z 0 sls sjs (eq_sym Hlen)).
  unfold squeeze. cbn [shape strides storage offset nth_error].
  cbn [Nat.eqb remove_nth]. reflexivity.
Qed.

(** The windowing steps on a well-shaped input: the axes of the result
    are (batch, positions, channel, kernel offsets). *)
Lemma windowed_spec (self : ConvLayer.t) (x : Tensor T)
    (b c sb sc : nat) (sp st : list nat) :
  shape x = b :: c :: sp ->
  strides x = sb :: sc :: st ->
  length st = length sp ->
  ConvLayer.n_dim self = length sp ->
  windows_fit sp (ConvLayer.kernel_size (ConvLayer.module self))
    (ConvLayer.stride (ConvLayer.module self)) ->
  ConvLayer.windowed self x =
  Ok (contiguous
        (mkTensor (storage x) (offset x)
           (b :: window_counts sp
                   (ConvLayer.kernel_size (ConvLayer.module self))
                   (ConvLayer.stride (ConvLayer.module self))
              ++ c :: ConvLayer.kernel_size (ConvLayer.module self))
           (sb :: window_strides st
                    (ConvLayer.stride (ConvLayer.module self))
               ++ sc :: st))).
Proof.
  intros Hsh Hst Hlen Hn Hfit. unfold ConvLayer.windowed.
  set (ks := ConvLayer.kernel_size (ConvLayer.module self)) in *.
  set (ss := ConvLayer.stride (ConvLayer.module self)) in *.
  rewrite unfold_loop_spec
    with (sp := sp) (st := st) (pre := [b; c]) (suf := [])
         (stpre := [sb; sc]) (stsuf := []);
    auto; [|rewrite app_nil_r; exact Hsh|rewrite app_nil_r; exact Hst].
  cbn [bind app].
  destruct (windows_fit_length _ _ _ Hfit) as [Hks Hss].
  assert (Hwc : length (window_counts sp ks ss) = length sp)
    by (apply length_window_counts, Hfit).
  rewrite Hn, <- Hwc.
  assert (Hws : length (window_strides st ss)
                = length (window_counts sp ks ss))
    by (rewrite length_window_strides; lia).
  pose proof (@move_channel_spec
    (mkTensor (storage x) (offset x)
       (b :: c :: window_counts sp ks ss ++ ks)
       (sb :: sc :: window_strides st ss ++ st))
    b c sb sc (window_counts sp ks ss) ks (window_strides st ss) st
    eq_refl eq_refl Hws) as Hm.
  cbn [storage offset] in Hm.
  unfold bind in Hm |- *.
  destruct (unsqueeze _ _) as [x1|e]; [|discriminate].
  destruct (transpose _ _ x1) as [x2|e]; [|discriminate].
  rewrite Hm. reflexivity.
Qed.

Lemma windowed_get (x : Tensor T) (b c sb sc : nat)
    (sp st ks ss : list nat) (i l : nat) (ls js : list nat) :
  strides x = sb :: sc :: st ->
  length st = length sp ->
  windows_fit sp ks ss ->
  valid_index (window_counts sp ks ss) ls ->
  valid_index ks js ->
  i < b -> l < c ->
  tget (contiguous
          (mkTensor (storage x) (offset x)
             (b :: window_counts sp ks ss ++ c :: ks)
             (sb :: window_strides st ss ++ sc :: st)))
       (i :: ls ++ l :: js)
  = tget x (i :: l :: window_source ls ss js).
Proof.
  intros Hst Hlen Hfit Hls Hjs Hi Hl.
  destruct (windows_fit_length _ _ _ Hfit) as [Hks Hss].
  pose proof (valid_index_length _ _ Hls) as Hlls.
  pose proof (valid_index_length _ _ Hjs) as Hljs.
  rewrite length_window_counts in Hlls by exact Hfit.
  rewrite tget_contiguous.
  - unfold tget. cbn [storage offset strides]. rewrite Hst.
    f_equal. f_equal. cbn [dot].
    rewrite dot_app by (rewrite length_window_strides; lia).
    cbn [dot]. rewrite dot_window_source by lia. lia.
  - cbn [shape valid_index]. split; [exact Hi|].
    clear - Hls Hjs Hl. revert ls Hls.
    induction (window_counts sp ks ss) as [|n wc IH]; intros [|a ls];
      simpl; try tauto.
    intros [Ha Hv]. split; [exact Ha|]. apply IH, Hv.
Qed.

Lemma shapes_from_spec (y : Tensor T) (locs : list nat) :
  forall (i : nat) (pre rest : list nat),
    shape y = pre ++ locs ++ rest -> length pre = 1 + i ->
    ConvLayer.shapes_from y i (length locs) = Ok locs.
Proof.
  induction locs as [|n locs IH]; intros i pre rest Hsh Hpre;
    [reflexivity|].
  cbn [length ConvLayer.shapes_from]. unfold shape_at.
  rewrite Hsh, <- Hpre. cbn [app]. rewrite nth_error_app_mid.
  cbn [bind].
  rewrite (IH (S i) (pre ++ [n]) rest).
  - reflexivity.
  - rewrite Hsh, <- app_assoc. reflexivity.
  - rewrite length_app. simpl. lia.
Qed.

(** Size inference for a request [(b, s, -1)]. *)
Lemma infer_size_b_s_hole (b s n : nat) :
  infer_size [Z.of_nat b; Z.of_nat s; (-1)%Z] n =
  if (0 <? b * s) && (n mod (b * s) =? 0)
  then Ok [b; s; n / (b * s)] else Raise RuntimeError.
Proof.
  unfold infer_size. cbn [infer_scan bind].
  change ((-1 =? -1)%Z) with true. cbv iota. cbn [bind].
  destruct (Z.eqb_spec (Z.of_nat s) (-1)) as [Hs|_]; [lia|].
  destruct (Z.ltb_spec (Z.of_nat s) 0) as [Hs|_]; [lia|].
  cbn [bind].
  destruct (Z.eqb_spec (Z.of_nat b) (-1)) as [Hb|_]; [lia|].
  destruct (Z.ltb_spec (Z.of_nat b) 0) as [Hb|_]; [lia|].
  cbn [bind]. rewrite !Nat2Z.id, Nat.mul_1_r.
  destruct (_ && _); [|reflexivity].
  cbn [map]. change ((-1 =? -1)%Z) with true. cbv iota.
  destruct (Z.eqb_spec (Z.of_nat s) (-1)) as [Hs|_]; [lia|].
  destruct (Z.eqb_spec (Z.of_nat b) (-1)) as [Hb|_]; [lia|].
  rewrite !Nat2Z.id. reflexivity.
Qed.

Lemma view_contiguous (t : Tensor T) (rq : list Z) (nw : list nat) :
  is_contiguous t = true ->
  infer_size rq (numel t) = Ok nw ->
  view rq t =
  Ok (mkTensor (storage t) (offset t) nw (contiguous_strides nw)).
Proof.
  intros Hc Hi. unfold view. rewrite Hi. cbn [bind].
  unfold view_strides. rewrite Hc. reflexivity.
Qed.

Lemma merge_locations_spec (self : ConvLayer.t) (y : Tensor T)
    (b c : nat) (locs ks : list nat) :
  shape y = b :: locs ++ c :: ks ->
  is_contiguous y = true ->
  ConvLayer.n_dim self = length locs ->
  ConvLayer.merge_locations self y =
  if (0 <? b * sum_list locs) && (numel y mod (b * sum_list locs) =? 0)
  then Ok (mkTensor (storage y) (offset y)
             [b; sum_list locs; numel y / (b * sum_list locs)]
             (contiguous_strides
                [b; sum_list locs; numel y / (b * sum_list locs)]))
  else Raise RuntimeError.
Proof.
  intros Hsh Hc Hn. unfold ConvLayer.merge_locations, shape_at.
  rewrite Hsh. cbn [nth_error bind]. rewrite Hn.
  rewrite (shapes_from_spec y locs (i := 0) [b] (c :: ks)) by auto.
  cbn [bind]. unfold view. rewrite infer_size_b_s_hole.
  destruct (_ && _); [|reflexivity].
  cbn [bind]. unfold view_strides. rewrite Hc. reflexivity.
Qed.
End Windows.

(** ** Shape of the extracted patches *)

Section PatchShape.
Context {T : Type} `{Scalar T} `{KfacEnv T}.

Lemma pad_input_zero (m : ConvLayer.Conv) (x : Tensor T) :
  sum_list (ConvLayer.padding m) = 0 -> ConvLayer.pad_input m x = Ok x.
Proof. intros Hz. unfold ConvLayer.pad_input. now rewrite Hz. Qed.

Lemma numel_contiguous (t : Tensor T) : numel (contiguous t) = numel t.
Proof. unfold numel. now rewrite shape_contiguous. Qed.

(** Windowing and the final [view] on an input that is already padded:
    the result has the shape [code_patch_shape], when the entries divide
    evenly, and the call fails otherwise. *)
Lemma windowed_merge_shape (self : ConvLayer.t) (x : Tensor T)
    (b c : nat) (sp : list nat) :
  shape x = b :: c :: sp -> wf x ->
  ConvLayer.n_dim self = length sp ->
  windows_fit sp (ConvLayer.kernel_size (ConvLayer.module self))
    (ConvLayer.stride (ConvLayer.module self)) ->
  let ks := ConvLayer.kernel_size (ConvLayer.module self) in
  let ss := ConvLayer.stride (ConvLayer.module self) in
  let locs := window_counts sp ks ss in
  let n := b * prod_list (locs ++ c :: ks) in
  if (0 <? b * sum_list locs) && (n mod (b * sum_list locs) =? 0)
  then exists y,
      (y <- ConvLayer.windowed self x ;; ConvLayer.merge_locations self y)
      = Ok y /\ shape y = code_patch_shape b c sp ks ss
  else (y <- ConvLayer.windowed self x ;; ConvLayer.merge_locations self y)
       = Raise RuntimeError.
Proof.
  intros Hsh Hwf Hn Hfit ks ss locs n.
  unfold wf in Hwf. rewrite Hsh in Hwf.
  destruct (strides x) as [|sb [|sc st]] eqn:Hst; try discriminate.
  simpl in Hwf.
  rewrite windowed_spec
    with (b := b) (c := c) (sb := sb) (sc := sc) (sp := sp) (st := st);
    auto; try lia.
  cbn [bind]. fold ks ss locs.
  set (t := mkTensor _ _ _ _).
  rewrite merge_locations_spec
    with (b := b) (c := c) (locs := locs) (ks := ks).
  - rewrite numel_contiguous. unfold numel. cbn [shape t prod_list
      fold_right]. fold (prod_list (locs ++ c :: ks)). fold n.
    destruct (_ && _); [|reflexivity].
    eexists. split; [reflexivity|]. reflexivity.
  - rewrite shape_contiguous. reflexivity.
  - apply is_contiguous_contiguous.
  - rewrite Hn. symmetry. apply length_window_counts, Hfit.
Qed.
End PatchShape.

Section PatchShapeClaims.
Context {T : Type} `{Scalar T} `{KfacEnv T}.

(** C4.  A layer over a one-dimensional convolution with kernel size 3,
    stride 1 and no padding turns every input of shape (2, 1, 5) into
    patches of shape (2, 3, 3). *)
Theorem extract_patches_1d_kernel3 (self : ConvLayer.t) (x : Tensor T) :
  ConvLayer.kernel_size (ConvLayer.module self) = [3] ->
  ConvLayer.stride (ConvLayer.module self) = [1] ->
  ConvLayer.padding (ConvLayer.module self) = [0] ->
  ConvLayer.n_dim self = 1 ->
  shape x = [2; 1; 5] -> wf x ->
  exists y, ConvLayer.extract_patches self x = Ok y /\
            shape y = [2; 3; 3].
Proof.
  intros Hk Hs Hp Hn Hsh Hwf. unfold ConvLayer.extract_patches.
  rewrite pad_input_zero by (rewrite Hp; reflexivity).
  cbn [bind].
  pose proof windowed_merge_shape as Hm.
  specialize Hm with (1 := Hsh) (2 := Hwf) (3 := Hn).
  rewrite Hk, Hs in Hm.
  apply Hm. simpl. lia.
Qed.
End PatchShapeClaims.

(** ** Order of the entries of a patch *)

Section PatchOrderLemmas.
Context {T : Type} `{Scalar T} `{KfacEnv T}.

Lemma wf_view_result (t : Tensor T) (new : list nat) :
  wf (mkTensor (storage t) (offset t) new (contiguous_strides new)).
Proof. unfold wf. simpl. induction new; simpl; congruence. Qed.

Lemma is_contiguous_view_result (t : Tensor T) (new : list nat) :
  is_contiguous
    (mkTensor (storage t) (offset t) new (contiguous_strides new)) = true.
Proof.
  unfold is_contiguous. simpl. rewrite is_contiguous_from_canonical.
  apply orb_true_r.
Qed.

(** The final [view] only regroups the axes: the entries, read
    row-major, stay what they are. *)
Lemma merge_locations_elements (self : ConvLayer.t) (y out : Tensor T)
    (b c : nat) (locs ks : list nat) :
  shape y = b :: locs ++ c :: ks -> wf y ->
  is_contiguous y = true ->
  ConvLayer.n_dim self = length locs ->
  ConvLayer.merge_locations self y = Ok out ->
  elements out = elements y.
Proof.
  intros Hsh Hwf Hc Hn Hm.
  rewrite merge_locations_spec
    with (b := b) (c := c) (locs := locs) (ks := ks) in Hm by assumption.
  destruct (_ && _) eqn:Hcond; [|discriminate].
  apply andb_true_iff in Hcond. destruct Hcond as [Hpos Hmod].
  apply Nat.ltb_lt in Hpos. apply Nat.eqb_eq in Hmod.
  injection Hm as <-.
  rewrite elements_contiguous with (t := y) by assumption.
  rewrite elements_contiguous
    by (apply wf_view_result || apply is_contiguous_view_result).
  cbn [storage offset]. f_equal. f_equal.
  unfold numel at 1. cbn [shape prod_list fold_right].
  rewrite Nat.mul_1_r, Nat.mul_assoc.
  apply Nat.Div0.div_exact in Hmod. lia.
Qed.

(** After the rearrangement the axes are (batch, positions, channel,
    kernel offsets), for any number of spatial axes. *)
Lemma windowed_layout (self : ConvLayer.t) (xp : Tensor T) (b c : nat)
    (sp : list nat) :
  shape xp = b :: c :: sp -> wf xp ->
  ConvLayer.n_dim self = length sp ->
  windows_fit sp (ConvLayer.kernel_size (ConvLayer.module self))
    (ConvLayer.stride (ConvLayer.module self)) ->
  let ks := ConvLayer.kernel_size (ConvLayer.module self) in
  let ss := ConvLayer.stride (ConvLayer.module self) in
  exists y,
    ConvLayer.windowed self xp = Ok y /\
    shape y = b :: window_counts sp ks ss ++ c :: ks /\
    wf y /\ is_contiguous y = true /\
    (forall i ls l js,
        i < b -> valid_index (window_counts sp ks ss) ls ->
        l < c -> valid_index ks js ->
        tget y (i :: ls ++ l :: js)
        = tget xp (i :: l :: window_source ls ss js)).
Proof.
  intros Hsh Hwf Hn Hfit ks ss.
  pose proof Hwf as Hwf'. unfold wf in Hwf'. rewrite Hsh in Hwf'.
  destruct (strides xp) as [|sb [|sc st]] eqn:Hst; try discriminate.
  simpl in Hwf'.
  eexists. split; [|split; [|split; [|split]]].
  - apply windowed_spec
      with (b := b) (c := c) (sb := sb) (sc := sc) (sp := sp) (st := st);
      auto; lia.
  - rewrite shape_contiguous. reflexivity.
  - apply wf_contiguous. unfold wf. cbn [shape strides length].
    rewrite !length_app. cbn [length].
    destruct (windows_fit_length _ _ _ Hfit) as [Hks Hss].
    rewrite length_window_strides, length_window_counts by (auto; lia).
    lia.
  - apply is_contiguous_contiguous.
  - intros i ls l js Hi Hls Hl Hjs.
    apply windowed_get; auto. lia.
Qed.

(** One spatial axis: the patch at location [l] lists channel after
    channel, and within a channel the kernel offsets. *)
Lemma extract_patches_1d_order (self : ConvLayer.t) (x xp : Tensor T)
    (b c w k s : nat) :
  ConvLayer.pad_input (ConvLayer.module self) x = Ok xp ->
  shape xp = [b; c; w] -> wf xp ->
  ConvLayer.n_dim self = 1 ->
  ConvLayer.kernel_size (ConvLayer.module self) = [k] ->
  ConvLayer.stride (ConvLayer.module self) = [s] ->
  k <= w -> 0 < s -> 0 < b ->
  exists out,
    ConvLayer.extract_patches self x = Ok out /\
    shape out = [b; (w - k) / s + 1; c * k] /\
    channel_outermost c k s xp out.
Proof.
  intros Hpad Hsh Hwf Hn Hk Hs Hkw Hs0 Hb.
  unfold ConvLayer.extract_patches. rewrite Hpad. cbn [bind].
  pose proof windowed_layout as Hw.
  specialize Hw with (1 := Hsh) (2 := Hwf) (3 := Hn).
  rewrite Hk, Hs in Hw.
  destruct Hw as [y [Hy [Hshy [Hwfy [Hcy Hget]]]]];
    [simpl; lia|]. cbn [window_counts app] in Hshy, Hget.
  set (L := (w - k) / s + 1) in *.
  rewrite Hy. cbn [bind].
  rewrite merge_locations_spec
    with (b := b) (c := c) (locs := [L]) (ks := [k]); auto.
  unfold numel. rewrite Hshy. cbn [sum_list prod_list fold_right].
  rewrite Nat.add_0_r, Nat.mul_1_r.
  replace (b * (L * (c * k))) with ((c * k) * (b * L)) by lia.
  assert (HL : 0 < b * L) by (unfold L; nia).
  rewrite Nat.Div0.mod_mul, Nat.div_mul by lia.
  destruct (Nat.ltb_spec 0 (b * L)) as [_|Hlt]; [|lia].
  cbn [andb Nat.eqb].
  eexists. split; [reflexivity|]. split; [reflexivity|].
  intros i l ch j Hv Hch Hj.
  cbn [shape valid_index] in Hv. destruct Hv as [Hi [Hl [Hf _]]].
  transitivity (tget y [i; l; ch; j]);
    [|apply (Hget i [l] ch [j]); cbn [valid_index]; auto; lia].
  rewrite tget_contiguous_pos with (t := y); auto.
  - unfold tget. cbn [storage offset strides]. rewrite Hshy.
    f_equal. f_equal.
    cbn [dot contiguous_strides prod_list fold_right]. lia.
  - rewrite Hshy. cbn [valid_index]. lia.
Qed.
End PatchOrderLemmas.

Section PatchClaims.
Context {T : Type} `{Scalar T} `{KfacEnv T}.

(** C1.  The location axis of the patches has the SUM of the window
    counts of the spatial axes where the claim has their product: a
    two-dimensional convolution with a 2x2 kernel, stride 1 and no
    padding turns every input of shape (1, 1, 4, 4) into a tensor of
    shape (1, 6, 6), not the (1, 9, 4) of the claim. *)
Theorem extract_patches_2d_sums_counts (self : ConvLayer.t)
    (x : Tensor T) :
  ConvLayer.kernel_size (ConvLayer.module self) = [2; 2] ->
  ConvLayer.stride (ConvLayer.module self) = [1; 1] ->
  ConvLayer.padding (ConvLayer.module self) = [0; 0] ->
  ConvLayer.n_dim self = 2 ->
  shape x = [1; 1; 4; 4] -> wf x ->
  exists y, ConvLayer.extract_patches self x = Ok y /\
            shape y = [1; 6; 6] /\
            spec_patch_shape 1 1 [4; 4] [2; 2] [1; 1] = [1; 9; 4].
Proof.
  intros Hk Hs Hp Hn Hsh Hwf. unfold ConvLayer.extract_patches.
  rewrite pad_input_zero by (rewrite Hp; reflexivity).
  cbn [bind].
  pose proof windowed_merge_shape as Hm.
  specialize Hm with (1 := Hsh) (2 := Hwf) (3 := Hn).
  rewrite Hk, Hs in Hm.
  destruct Hm as [y [Hy Hshy]]; [simpl; lia|].
  exists y. split; [exact Hy|]. split; [exact Hshy|reflexivity].
Qed.

(** C3, as amended.  After the rearrangement step the axes are (batch,
    positions, channel, kernel offsets), for any number of spatial axes:
    within a patch the channel is the OUTERMOST axis and the kernel
    offsets are innermost, and the final [view] keeps the row-major
    order of the entries.  With one spatial axis, feature [ch * k + j]
    of the patch at location [l] is the padded input of channel [ch] at
    position [l * stride + j]. *)
Theorem extract_patches_channel_outermost :
  (forall (self : ConvLayer.t) (x xp : Tensor T) (b c : nat)
          (sp : list nat),
      ConvLayer.pad_input (ConvLayer.module self) x = Ok xp ->
      shape xp = b :: c :: sp -> wf xp ->
      ConvLayer.n_dim self = length sp ->
      windows_fit sp (ConvLayer.kernel_size (ConvLayer.module self))
        (ConvLayer.stride (ConvLayer.module self)) ->
      let ks := ConvLayer.kernel_size (ConvLayer.module self) in
      let ss := ConvLayer.stride (ConvLayer.module self) in
      exists y,
        ConvLayer.windowed self xp = Ok y /\
        shape y = b :: window_counts sp ks ss ++ c :: ks /\
        (forall i ls l js,
            i < b -> valid_index (window_counts sp ks ss) ls ->
            l < c -> valid_index ks js ->
            tget y (i :: ls ++ l :: js)
            = tget xp (i :: l :: window_source ls ss js)) /\
        ConvLayer.extract_patches self x
        = ConvLayer.merge_locations self y /\
        (forall out, ConvLayer.merge_locations self y = Ok out ->
                     elements out = elements y))
  /\
  (forall (self : ConvLayer.t) (x xp : Tensor T) (b c w k s : nat),
      ConvLayer.pad_input (ConvLayer.module self) x = Ok xp ->
      shape xp = [b; c; w] -> wf xp ->
      ConvLayer.n_dim self = 1 ->
      ConvLayer.kernel_size (ConvLayer.module self) = [k] ->
      ConvLayer.stride (ConvLayer.module self) = [s] ->
      k <= w -> 0 < s -> 0 < b ->
      exists out,
        ConvLayer.extract_patches self x = Ok out /\
        shape out = [b; (w - k) / s + 1; c * k] /\
        channel_outermost c k s xp out).
Proof.
  split.
  - intros self x xp b c sp Hpad Hsh Hwf Hn Hfit ks ss.
    pose proof windowed_layout as Hw.
    specialize Hw with (1 := Hsh) (2 := Hwf) (3 := Hn) (4 := Hfit).
    destruct Hw as [y [Hy [Hshy [Hwfy [Hcy Hget]]]]].
    exists y. split; [exact Hy|]. split; [exact Hshy|].
    split; [exact Hget|]. split.
    + unfold ConvLayer.extract_patches. rewrite Hpad. cbn [bind].
      rewrite Hy. reflexivity.
    + intros out Hout.
      apply merge_locations_elements
        with (self := self) (b := b) (c := c)
             (locs := window_counts sp ks ss) (ks := ks); auto.
      rewrite Hn. symmetry. apply length_window_counts, Hfit.
  - intros. eapply extract_patches_1d_order; eauto.
Qed.
End PatchClaims.

(** C4 at a sample input. *)
Lemma extract_patches_1d_kernel3_witness :
  exists y,
    ConvLayer.extract_patches (sample_conv 1 1 [3] [1] [0] false)
      (ramp [2; 1; 5]) = Ok y /\
    shape y = [2; 3; 3].
Proof.
  apply extract_patches_1d_kernel3; reflexivity.
Defined.

(** C1 at a sample input. *)
Lemma extract_patches_2d_sums_counts_witness :
  exists y,
    ConvLayer.extract_patches (sample_conv 1 1 [2; 2] [1; 1] [0; 0] false)
      (ramp [1; 1; 4; 4]) = Ok y /\
    shape y = [1; 6; 6] /\
    spec_patch_shape 1 1 [4; 4] [2; 2] [1; 1] = [1; 9; 4].
Proof.
  apply extract_patches_2d_sums_counts; reflexivity.
Defined.

(** C3 as amended, at a sample input with two channels. *)
Lemma extract_patches_channel_outermost_witness :
  exists out,
    ConvLayer.extract_patches (sample_conv 2 1 [2] [1] [0] false)
      (ramp [1; 2; 3]) = Ok out /\
    shape out = [1; (3 - 2) / 1 + 1; 2 * 2] /\
    channel_outermost 2 2 1 (ramp [1; 2; 3]) out.
Proof.
  apply (proj2 (extract_patches_channel_outermost (T := Z)
                  (H0 := sample_env)));
    try reflexivity; lia.
Defined.

(** C3 as stated fails: with two channels (1, 2, 3) and (4, 5, 6) and a
    kernel of size 2, the patch at location 0 is (1, 2, 4, 5), so its
    feature 1 is channel 0 at offset 1, where channels innermost would
    have channel 1 at offset 0. *)
Lemma extract_patches_not_channel_innermost :
  ~ (forall out,
        ConvLayer.extract_patches (sample_conv 2 1 [2] [1] [0] false)
          (ramp [1; 2; 3]) = Ok out ->
        channel_innermost 2 2 1 (ramp [1; 2; 3]) out).
Proof.
  intros Hc.
  specialize (Hc _ eq_refl 0 0 1 0).
  vm_compute in Hc.
  assert (Hv : 0 < 1 /\ 0 < 2 /\ 1 < 4 /\ True) by lia.
  specialize (Hc Hv (le_n 2) (le_S _ _ (le_n 1))).
  discriminate Hc.
Qed.

(** ** The identity layer *)

(** C9.  An identity layer hands the gradients back as they are, whatever
    the damping, keeps all of its fields through [multiply_preconditioner]
    and [update_cov], and has no variables. *)
Theorem identity_layer_is_noop (T Cov Module G : Type)
    (self : IdentityLayer.t Cov Module) (grads : G) (damping : T) :
  IdentityLayer.multiply_preconditioner self grads damping = (grads, self)
  /\ IdentityLayer.update_cov self = (tt, self)
  /\ IdentityLayer.vars (T := T) self = [].
Proof. repeat split. Qed.

(** ** Gradient matrices of the linear layer *)

Section GradMatrices.
Context {T : Type} `{Scalar T} `{KfacEnv T}.

Lemma colon_none_spec (b : Tensor T) (o sb : nat) :
  shape b = [o] -> strides b = [sb] ->
  colon_none b = Ok (mkTensor (storage b) (offset b) [o; 1] [sb; 1]).
Proof.
  intros Hsh Hst. unfold colon_none, unsqueeze, ndim.
  rewrite Hsh, Hst. reflexivity.
Qed.

(** [torch.cat([w, b[:, None]], -1)] for a matrix and a vector: a matrix
    with one more column, the vector last. *)
Lemma cat_bias_column (w b : Tensor T) (o f : nat) :
  shape w = [o; f] -> shape b = [o] -> wf b ->
  exists m,
    (b2 <- colon_none b ;; cat_last w b2) = Ok m /\
    shape m = [o; f + 1] /\ wf m /\ is_contiguous m = true /\
    (forall i j, i < o -> j < f -> tget m [i; j] = tget w [i; j]) /\
    (forall i, i < o -> tget m [i; f] = tget b [i]).
Proof.
  intros Hw Hb Hwf. unfold wf in Hwf. rewrite Hb in Hwf.
  destruct (strides b) as [|sb [|? ?]] eqn:Hst; try discriminate.
  rewrite colon_none_spec with (o := o) (sb := sb) by assumption.
  cbn [bind]. unfold cat_last. rewrite Hw. cbn [shape rev app].
  destruct (list_eq_dec Nat.eq_dec [o] [o]) as [_|Hne]; [|congruence].
  eexists. split; [reflexivity|]. cbn [rev app].
  split; [reflexivity|]. split; [apply wf_from_fun|].
  split; [apply is_contiguous_from_fun|]. split.
  - intros i j Hi Hj. rewrite tget_from_fun by (cbn [valid_index]; lia).
    cbn [removelast last app].
    destruct (Nat.ltb_spec j f) as [_|Hge]; [reflexivity|lia].
  - intros i Hi. rewrite tget_from_fun by (cbn [valid_index]; lia).
    cbn [removelast last app].
    destruct (Nat.ltb_spec f f) as [Hlt|_]; [lia|].
    rewrite Nat.sub_diag. unfold tget. cbn [storage offset strides].
    rewrite Hst. cbn [dot]. f_equal; lia.
Qed.

(** [m[:, :-1]] and [m[:, -1]] of a matrix. *)
Lemma split_last_column (m : Tensor T) (o n : nat) :
  shape m = [o; S n] -> wf m ->
  exists w b,
    cols_but_last m = Ok w /\ col_last m = Ok b /\
    shape w = [o; n] /\ shape b = [o] /\
    (forall i j, i < o -> j < n -> tget w [i; j] = tget m [i; j]) /\
    (forall i, i < o -> tget b [i] = tget m [i; n]).
Proof.
  intros Hsh Hwf. unfold cols_but_last, col_last. rewrite Hsh.
  cbn [Nat.eqb]. eexists. eexists.
  split; [reflexivity|]. split; [reflexivity|].
  cbn [shape set_nth remove_nth Nat.sub]. rewrite Nat.sub_0_r.
  split; [reflexivity|]. split; [reflexivity|].
  pose proof Hwf as Hwf'. unfold wf in Hwf'. rewrite Hsh in Hwf'.
  destruct (strides m) as [|s0 [|s1 [|? ?]]] eqn:Hst; try discriminate.
  split.
  - intros i j Hi Hj. unfold tget. cbn [storage offset strides].
    rewrite Hst. reflexivity.
  - intros i Hi. unfold tget. cbn [storage offset strides].
    rewrite Hst. cbn [remove_nth nth dot]. f_equal. lia.
Qed.

Lemma elements_ext (a b : Tensor T) :
  shape a = shape b ->
  (forall idx, valid_index (shape b) idx -> tget a idx = tget b idx) ->
  tensor_eqv a b.
Proof.
  intros Hsh Hget. split; [exact Hsh|]. unfold elements. rewrite Hsh.
  apply map_ext_in. intros idx Hin. apply Hget, indices_valid, Hin.
Qed.

(** C10.  Assembling the gradient matrix and splitting it again gives the
    gradients back: for a layer with bias, a weight gradient of shape
    (out, in) and a bias gradient of shape (out), the two pieces have the
    shapes and the entries of the two gradients; for a layer without
    bias the weight gradient itself comes back. *)
Theorem linear_mat_to_grads_grads_to_mat :
  (forall (self : LinearLayer.t) (w b : Tensor T) (o f : nat),
      LinearLayer.has_bias self = true ->
      shape w = [o; f] -> shape b = [o] -> wf b ->
      exists m w' b',
        LinearLayer.grads_to_mat self [w; b] = Ok m /\
        LinearLayer.mat_to_grads self m = Ok [w'; b'] /\
        tensor_eqv w' w /\ tensor_eqv b' b)
  /\
  (forall (self : LinearLayer.t) (w : Tensor T),
      LinearLayer.has_bias self = false ->
      exists m,
        LinearLayer.grads_to_mat self [w] = Ok m /\
        LinearLayer.mat_to_grads self m = Ok [w]).
Proof.
  split.
  - intros self w b o f Hb Hw Hbs Hwf.
    pose proof cat_bias_column as Hcat.
    specialize Hcat with (1 := Hw) (2 := Hbs) (3 := Hwf).
    destruct Hcat as [m [Hm [Hsm [Hwfm [Hcm [Hgw Hgb]]]]]].
    rewrite Nat.add_1_r in Hsm.
    pose proof split_last_column as Hsplit.
    specialize Hsplit with (1 := Hsm) (2 := Hwfm).
    destruct Hsplit
      as [w' [b' [Hw' [Hb' [Hsw [Hsb [Hgw' Hgb']]]]]]].
    exists m, w', b'.
    unfold LinearLayer.grads_to_mat, LinearLayer.mat_to_grads.
    rewrite Hb. cbn [unpack2 bind]. rewrite Hm, Hw', Hb'. cbn [bind].
    split; [reflexivity|]. split; [reflexivity|]. split.
    + apply elements_ext; [congruence|]. rewrite Hw.
      intros [|i [|j [|? ?]]]; cbn [valid_index]; try tauto.
      intros [Hi [Hj _]]. rewrite Hgw', Hgw by assumption. reflexivity.
    + apply elements_ext; [congruence|]. rewrite Hbs.
      intros [|i [|? ?]]; cbn [valid_index]; try tauto.
      intros [Hi _]. rewrite Hgb', Hgb by assumption. reflexivity.
  - intros self w Hb. exists w.
    unfold LinearLayer.grads_to_mat, LinearLayer.mat_to_grads.
    rewrite Hb. split; reflexivity.
Qed.
End GradMatrices.

(** C10 at a sample layer with three inputs, two outputs and a bias. *)
Lemma linear_mat_to_grads_grads_to_mat_witness :
  exists m w' b',
    LinearLayer.grads_to_mat (sample_linear 3 2 true)
      [ramp [2; 3]; ramp [2]] = Ok m /\
    LinearLayer.mat_to_grads (sample_linear 3 2 true) m = Ok [w'; b'] /\
    tensor_eqv w' (ramp [2; 3]) /\ tensor_eqv b' (ramp [2]).
Proof.
  apply (proj1 (linear_mat_to_grads_grads_to_mat (T := Z)
                  (H0 := sample_env)))
    with (o := 2) (f := 3);
    reflexivity.
Defined.

(** ** [multiply_preconditioner] of the convolutional layer *)

Section ConvPreconditioner.
Context {T : Type} `{Scalar T} `{KfacEnv T}.

(** Without a bias the gradient matrix is never assembled: [grads] is a
    sequence of tensors, and [grads.shape] does not exist. *)
Lemma mat_grads_bias_free (self : ConvLayer.t) (grads : list (Tensor T)) :
  ConvLayer.has_bias self = false ->
  ConvLayer.mat_grads self grads =
  match grads with
  | [] => Raise IndexError
  | _ :: _ => Raise AttributeError
  end.
Proof.
  intros Hb. unfold ConvLayer.mat_grads. rewrite Hb.
  destruct grads; reflexivity.
Qed.

Lemma matmul_shape (a b : Tensor T) (m k n : nat) :
  shape a = [m; k] -> shape b = [k; n] ->
  exists c, matmul a b = Ok c /\ shape c = [m; n].
Proof.
  intros Ha Hb. unfold matmul. rewrite Ha, Hb, Nat.eqb_refl.
  eexists. split; reflexivity.
Qed.

(** C2.  For a convolution without bias [multiply_preconditioner] returns
    no gradients at all, whatever it is given: it raises, and when the
    damping and the two inverses are there and [grads] holds a gradient,
    what it raises is the AttributeError of [grads.shape]. *)
Theorem conv_multiply_preconditioner_bias_free_raises
    (self : ConvLayer.t) (grads : list (Tensor T)) (damping : T) :
  ConvLayer.has_bias self = false ->
  (exists e,
      ConvLayer.multiply_preconditioner self grads damping = Raise e)
  /\
  (forall n a_damp s_damp act_inv sen_inv g gs,
      shape_at (ConvLayer._activations self) 1 = Ok n ->
      compute_damping (ConvLayer.base self) damping n
      = Ok (a_damp, s_damp) ->
      inverse_by_cholesky
        (value (_activations_cov (ConvLayer.base self))) a_damp
      = Ok act_inv ->
      inverse_by_cholesky
        (value (_sensitivities_cov (ConvLayer.base self))) s_damp
      = Ok sen_inv ->
      grads = g :: gs ->
      ConvLayer.multiply_preconditioner self grads damping
      = Raise AttributeError).
Proof.
  intros Hb. split.
  - unfold ConvLayer.multiply_preconditioner.
    destruct (shape_at _ 1) as [n|e]; cbn [bind]; [|eauto].
    destruct (compute_damping _ _ _) as [[a_damp s_damp]|e];
      cbn [bind]; [|eauto].
    destruct (inverse_by_cholesky _ a_damp) as [act_inv|e];
      cbn [bind]; [|eauto].
    destruct (inverse_by_cholesky _ s_damp) as [sen_inv|e];
      cbn [bind]; [|eauto].
    rewrite mat_grads_bias_free by exact Hb.
    destruct grads; cbn [bind]; eauto.
  - intros n a_damp s_damp act_inv sen_inv g gs Hn Hd Ha Hs ->.
    unfold ConvLayer.multiply_preconditioner.
    rewrite Hn. cbn [bind]. rewrite Hd. cbn [bind].
    rewrite Ha, Hs. cbn [bind].
    rewrite mat_grads_bias_free by exact Hb. reflexivity.
Qed.

(** C7.  Where [multiply_preconditioner] gets to it, the product
    [sen_cov_inverse @ mat_grads @ act_cov_inverse] is divided, entry by
    entry, by the size of axis 1 of the captured activations, and the
    quotient is what is split; for a convolution without bias it does not
    get there, as the gradient matrix is never assembled. *)
Theorem conv_nat_grads_renorm :
  (forall (self : ConvLayer.t) (sen_inv mat act_inv : Tensor T)
          (locations m n : nat),
      shape_at (ConvLayer._activations self) 1 = Ok locations ->
      shape sen_inv = [m; m] -> shape mat = [m; n] ->
      shape act_inv = [n; n] ->
      exists p q ng,
        matmul sen_inv mat = Ok p /\ matmul p act_inv = Ok q /\
        ConvLayer.nat_grads self sen_inv mat act_inv = Ok ng /\
        shape ng = [m; n] /\
        (forall i j, i < m -> j < n ->
            tget ng [i; j] = s_div (tget q [i; j]) (s_of_nat locations)))
  /\
  (forall (self : ConvLayer.t) (grads : list (Tensor T)) (damping : T)
          (locations : nat) (a_damp s_damp : T)
          (act_inv sen_inv mat : Tensor T),
      shape_at (ConvLayer._activations self) 1 = Ok locations ->
      compute_damping (ConvLayer.base self) damping locations
      = Ok (a_damp, s_damp) ->
      inverse_by_cholesky
        (value (_activations_cov (ConvLayer.base self))) a_damp
      = Ok act_inv ->
      inverse_by_cholesky
        (value (_sensitivities_cov (ConvLayer.base self))) s_damp
      = Ok sen_inv ->
      ConvLayer.mat_grads self grads = Ok mat ->
      ConvLayer.multiply_preconditioner self grads damping
      = (ng <- ConvLayer.nat_grads self sen_inv mat act_inv ;;
         ConvLayer.split_grads self grads ng))
  /\
  (forall (self : ConvLayer.t) (grads : list (Tensor T)) (mat : Tensor T),
      ConvLayer.has_bias self = false ->
      ConvLayer.mat_grads self grads <> Ok mat).
Proof.
  split; [|split].
  - intros self sen_inv mat act_inv locations m n Hl Hs Hm Ha.
    pose proof matmul_shape as Hp.
    specialize Hp with (1 := Hs) (2 := Hm).
    destruct Hp as [p [Hp Hsp]].
    pose proof matmul_shape as Hq.
    specialize Hq with (1 := Hsp) (2 := Ha).
    destruct Hq as [q [Hq Hsq]].
    exists p, q, (div_int q locations).
    split; [exact Hp|]. split; [exact Hq|].
    unfold ConvLayer.nat_grads. rewrite Hl. cbn [bind].
    rewrite Hp. cbn [bind]. rewrite Hq. cbn [bind].
    split; [reflexivity|]. split; [exact Hsq|].
    intros i j Hi Hj. unfold div_int.
    rewrite tget_from_fun; [reflexivity|].
    rewrite Hsq. cbn [valid_index]. lia.
  - intros self grads damping locations a_damp s_damp act_inv sen_inv mat
           Hl Hd Ha Hs Hm.
    unfold ConvLayer.multiply_preconditioner.
    rewrite Hl. cbn [bind]. rewrite Hd. cbn [bind].
    rewrite Ha, Hs. cbn [bind]. rewrite Hm. reflexivity.
  - intros self grads mat Hb. rewrite mat_grads_bias_free by exact Hb.
    destruct grads; discriminate.
Qed.
End ConvPreconditioner.

(** C2 at a sample layer without bias. *)
Lemma conv_multiply_preconditioner_bias_free_raises_witness :
  (exists e,
      ConvLayer.multiply_preconditioner
        (sample_conv_trained 2 2 [2] false 3) [ramp [2; 2; 2]] 1%Z
      = Raise e)
  /\
  ConvLayer.multiply_preconditioner
    (sample_conv_trained 2 2 [2] false 3) [ramp [2; 2; 2]] 1%Z
  = Raise AttributeError.
Proof.
  destruct (conv_multiply_preconditioner_bias_free_raises
              (sample_conv_trained 2 2 [2] false 3) [ramp [2; 2; 2]] 1%Z
              eq_refl) as [He Ha].
  split; [exact He|].
  eapply Ha; reflexivity.
Defined.

(** C7 at a sample layer with bias, three locations for each example. *)
Lemma conv_nat_grads_renorm_witness :
  exists p q ng,
    matmul (ramp [2; 2]) (ramp [2; 5]) = Ok p /\
    matmul p (ramp [5; 5]) = Ok q /\
    ConvLayer.nat_grads (sample_conv_trained 2 2 [2] true 3)
      (ramp [2; 2]) (ramp [2; 5]) (ramp [5; 5]) = Ok ng /\
    shape ng = [2; 5] /\
    (forall i j, i < 2 -> j < 5 ->
        tget ng [i; j] = s_div (tget q [i; j]) (s_of_nat 3)).
Proof.
  apply (proj1 (conv_nat_grads_renorm (T := Z) (H0 := sample_env)));
    reflexivity.
Defined.

(** ** [update_cov] of the convolutional layer *)

Section ConvUpdateCov.
Context {T : Type} `{Scalar T} `{KfacEnv T}.

(** Size inference for a request [(-1, f)]. *)
Lemma infer_size_hole_f (f n : nat) :
  infer_size [(-1)%Z; Z.of_nat f] n =
  if (0 <? f) && (n mod f =? 0) then Ok [n / f; f]
  else Raise RuntimeError.
Proof.
  unfold infer_size. cbn [infer_scan bind].
  destruct (Z.eqb_spec (Z.of_nat f) (-1)) as [Hf|_]; [lia|].
  destruct (Z.ltb_spec (Z.of_nat f) 0) as [Hf|_]; [lia|].
  cbn [bind]. change ((-1 =? -1)%Z) with true. cbv iota. cbn [bind].
  rewrite Nat2Z.id, Nat.mul_1_r.
  destruct (_ && _); [|reflexivity].
  cbn [map]. change ((-1 =? -1)%Z) with true. cbv iota.
  destruct (Z.eqb_spec (Z.of_nat f) (-1)) as [Hf|_]; [lia|].
  rewrite Nat2Z.id. reflexivity.
Qed.

(** [t.reshape(-1, t.shape[-1])] on a contiguous capture of shape
    (batch, locations, features): a matrix with one row for every location
    of every example, holding the same entries in the same order. *)
Lemma flatten_capture (t : Tensor T) (b l f : nat) :
  shape t = [b; l; f] -> wf t -> is_contiguous t = true -> 0 < f ->
  exists t2,
    (n <- shape_last t ;; reshape [(-1)%Z; Z.of_nat n] t) = Ok t2 /\
    shape t2 = [b * l; f] /\ elements t2 = elements t.
Proof.
  intros Hsh Hwf Hc Hf. unfold shape_last. rewrite Hsh. cbn [rev app bind].
  unfold reshape. rewrite infer_size_hole_f.
  assert (Hn : numel t = (b * l) * f).
  { unfold numel. rewrite Hsh. cbn [prod_list fold_right]. lia. }
  rewrite Hn, Nat.Div0.mod_mul, Nat.div_mul by lia.
  destruct (Nat.ltb_spec 0 f) as [_|Hle]; [|lia].
  cbn [andb Nat.eqb bind]. unfold view_strides. rewrite Hc.
  eexists. split; [reflexivity|]. split; [reflexivity|].
  rewrite elements_contiguous
    by (apply wf_view_result || apply is_contiguous_view_result).
  rewrite elements_contiguous with (t := t) by assumption.
  cbn [storage offset]. f_equal. f_equal. rewrite Hn.
  unfold numel. cbn [shape prod_list fold_right]. lia.
Qed.

(** C5.  On captures of shape (batch, locations, features) and (batch,
    locations, out_features), [update_cov] of the convolutional layer ends
    the way [update_cov] of a linear layer ends that has the same
    centering flag, the same presence of a bias, the same accumulators,
    and the two captures flattened to batch * locations rows: with the
    same accumulators, or the same exception. *)
Theorem conv_update_cov_is_linear_update_cov
    (conv : ConvLayer.t) (lm : LinearLayer.Linear)
    (b l f o : nat) :
  shape (ConvLayer._activations conv) = [b; l; f] ->
  shape (ConvLayer._sensitivities conv) = [b; l; o] ->
  wf (ConvLayer._activations conv) -> wf (ConvLayer._sensitivities conv) ->
  is_contiguous (ConvLayer._activations conv) = true ->
  is_contiguous (ConvLayer._sensitivities conv) = true ->
  0 < f -> 0 < o ->
  (LinearLayer.bias lm = None <->
   ConvLayer.bias (ConvLayer.module conv) = None) ->
  exists act2 sen2,
    shape act2 = [b * l; f] /\ shape sen2 = [b * l; o] /\
    elements act2 = elements (ConvLayer._activations conv) /\
    elements sen2 = elements (ConvLayer._sensitivities conv) /\
    same_outcome ConvLayer.base LinearLayer.base
      (ConvLayer.update_cov conv)
      (LinearLayer.update_cov
         (LinearLayer.mk lm (ConvLayer._center conv) (ConvLayer.base conv)
            act2 sen2)).
Proof.
  intros Ha Hs Hwa Hws Hca Hcs Hf Ho Hbias.
  pose proof flatten_capture as Hfa.
  specialize Hfa with (1 := Ha) (2 := Hwa) (3 := Hca) (4 := Hf).
  destruct Hfa as [act2 [Hact2 [Hsa He]]].
  pose proof flatten_capture as Hfs.
  specialize Hfs with (1 := Hs) (2 := Hws) (3 := Hcs) (4 := Ho).
  destruct Hfs as [sen2 [Hsen2 [Hss Hes]]].
  exists act2, sen2. repeat (split; [assumption|]).
  unfold ConvLayer.update_cov.
  unfold bind at 1 in Hact2. unfold bind at 1 in Hsen2.
  destruct (shape_last (ConvLayer._activations conv)) as [na|e];
    [|discriminate].
  cbn [bind]. rewrite Hact2. cbn [bind].
  destruct (shape_last (ConvLayer._sensitivities conv)) as [ns|e];
    [|discriminate].
  cbn [bind]. rewrite Hsen2. cbn [bind].
  unfold LinearLayer.update_cov.
  cbn [LinearLayer._activations LinearLayer._sensitivities
       LinearLayer._center LinearLayer.base LinearLayer.module].
  assert (Hb : LinearLayer.has_bias
                 (LinearLayer.mk lm (ConvLayer._center conv)
                    (ConvLayer.base conv) act2 sen2)
               = ConvLayer.has_bias conv).
  { unfold LinearLayer.has_bias, ConvLayer.has_bias, ConvLayer.has_bias_of.
    cbn [LinearLayer.module].
    destruct (LinearLayer.bias lm), (ConvLayer.bias (ConvLayer.module conv));
      try reflexivity; destruct Hbias as [H1 H2];
      [specialize (H2 eq_refl)|specialize (H1 eq_refl)]; discriminate. }
  rewrite Hb.
  unfold ConvLayer.cov_inputs, LinearLayer.cov_inputs.
  destruct (ConvLayer._center conv), (ConvLayer.has_bias conv);
    cbn [bind];
    repeat match goal with
      | |- context [bind ?m _] =>
          match m with
          | center _ => idtac | append_homog _ => idtac
          | compute_cov _ => idtac | add_to_average _ _ => idtac
          end;
          destruct m; cbn [bind]
      end;
    cbn [same_outcome ConvLayer.base LinearLayer.base]; reflexivity.
Qed.
End ConvUpdateCov.

(** C5 at a sample layer with bias: two examples, three locations. *)
Lemma conv_update_cov_is_linear_update_cov_witness :
  exists act2 sen2,
    shape act2 = [2 * 3; 4] /\ shape sen2 = [2 * 3; 2] /\
    elements act2 = elements (ramp [2; 3; 4]) /\
    elements sen2 = elements (ramp [2; 3; 2]) /\
    same_outcome ConvLayer.base LinearLayer.base
      (ConvLayer.update_cov (sample_conv_trained 2 2 [2] true 3))
      (LinearLayer.update_cov
         (LinearLayer.mk (H0 := sample_env)
            (LinearLayer.mkLinear 4 2 (ramp [2; 4]) (Some (ramp [2])))
            false (mkLayer 5 2 (ramp [5; 5]) (ramp [2; 2])) act2 sen2)).
Proof.
  apply (conv_update_cov_is_linear_update_cov
           (sample_conv_trained 2 2 [2] true 3)
           (LinearLayer.mkLinear 4 2 (ramp [2; 4]) (Some (ramp [2]))));
    try reflexivity; lia.
Defined.

(** ** The captures are contiguous *)

Section Captures.
Context {T : Type} `{Scalar T} `{KfacEnv T}.

Lemma view_of_contiguous (t v : Tensor T) (req : list Z) :
  is_contiguous t = true -> view req t = Ok v ->
  wf v /\ is_contiguous v = true.
Proof.
  intros Hc Hv. unfold view in Hv.
  destruct (infer_size req (numel t)) as [new|e]; [|discriminate].
  cbn [bind] in Hv. unfold view_strides in Hv. rewrite Hc in Hv.
  injection Hv as <-.
  split; [apply wf_view_result|apply is_contiguous_view_result].
Qed.

(** What the forward hook stores is contiguous, with one stride for every
    axis. *)
Lemma forward_hook_capture (self self' : ConvLayer.t)
    (inp : list (Tensor T)) :
  ConvLayer.forward_hook self inp = Ok self' ->
  wf (ConvLayer._activations self') /\
  is_contiguous (ConvLayer._activations self') = true.
Proof.
  unfold ConvLayer.forward_hook, ConvLayer.extract_patches.
  destruct (getitem inp 0) as [x|e]; [|discriminate]. cbn [bind].
  destruct (ConvLayer.pad_input _ x) as [xp|e]; [|discriminate].
  cbn [bind]. unfold ConvLayer.windowed.
  destruct (ConvLayer.unfold_loop _ _ xp) as [x1|e]; [|discriminate].
  cbn [bind].
  destruct (unsqueeze _ x1) as [x2|e]; [|discriminate]. cbn [bind].
  destruct (transpose _ _ x2) as [x3|e]; [|discriminate]. cbn [bind].
  destruct (squeeze _ x3) as [x4|e]; [|discriminate]. cbn [bind].
  unfold ConvLayer.merge_locations.
  destruct (shape_at _ 0) as [b|e]; [|discriminate]. cbn [bind].
  destruct (ConvLayer.shapes_from _ _ _) as [locs|e]; [|discriminate].
  cbn [bind].
  destruct (view _ (contiguous x4)) as [v|e] eqn:Hv; [|discriminate].
  cbn [bind]. intros [= <-]. cbn [ConvLayer._activations].
  eapply view_of_contiguous; [apply is_contiguous_contiguous|exact Hv].
Qed.

(** The same for the backward hook. *)
Lemma backward_hook_capture (self self' : ConvLayer.t)
    (grad_out : list (Tensor T)) :
  ConvLayer.backward_hook self grad_out = Ok self' ->
  wf (ConvLayer._sensitivities self') /\
  is_contiguous (ConvLayer._sensitivities self') = true.
Proof.
  unfold ConvLayer.backward_hook.
  destruct (getitem grad_out 0) as [g|e]; [|discriminate]. cbn [bind].
  destruct (ndim g =? 0); [discriminate|].
  destruct (transpose _ _ g) as [s|e]; [|discriminate]. cbn [bind].
  destruct (shape_at _ 0) as [b|e]; [|discriminate]. cbn [bind].
  destruct (shape_last _) as [c|e]; [|discriminate]. cbn [bind].
  destruct (view _ (contiguous s)) as [v|e] eqn:Hv; [|discriminate].
  cbn [bind]. intros [= <-]. cbn [ConvLayer._sensitivities].
  eapply view_of_contiguous; [apply is_contiguous_contiguous|exact Hv].
Qed.
End Captures.

(** ** The bias column *)

Section BiasColumn.
Context {T : Type} `{Scalar T} `{KfacEnv T}.

Lemma append_homog_spec_column (a : Tensor T) (n f : nat) :
  shape a = [n; f] ->
  exists h,
    append_homog_spec a = Ok h /\ shape h = [n; f + 1] /\
    (forall i j, i < n -> j < f -> tget h [i; j] = tget a [i; j]) /\
    (forall i, i < n -> tget h [i; f] = s_one).
Proof.
  intros Ha. unfold append_homog_spec, cat_last. rewrite Ha.
  cbn [rev app shape from_fun].
  destruct (list_eq_dec Nat.eq_dec [n] [n]) as [_|Hne]; [|congruence].
  eexists. split; [reflexivity|]. cbn [rev app].
  split; [reflexivity|]. split.
  - intros i j Hi Hj. rewrite tget_from_fun by (cbn [valid_index]; lia).
    cbn [removelast last app].
    destruct (Nat.ltb_spec j f) as [_|Hge]; [reflexivity|lia].
  - intros i Hi. rewrite tget_from_fun by (cbn [valid_index]; lia).
    cbn [removelast last app].
    destruct (Nat.ltb_spec f f) as [Hlt|_]; [lia|].
    rewrite Nat.sub_diag.
    change (mkTensor (map (fun _ => s_one) (indices [n; 1])) 0 [n; 1]
              (contiguous_strides [n; 1]))
      with (from_fun [n; 1] (fun _ : list nat => s_one)).
    rewrite tget_from_fun; [reflexivity|]. cbn [valid_index]. lia.
Qed.

(** Size inference for a request [(o, -1)]. *)
Lemma infer_size_o_hole (o n : nat) :
  infer_size [Z.of_nat o; (-1)%Z] n =
  if (0 <? o) && (n mod o =? 0) then Ok [o; n / o]
  else Raise RuntimeError.
Proof.
  unfold infer_size. cbn [infer_scan bind].
  change ((-1 =? -1)%Z) with true. cbv iota. cbn [bind].
  destruct (Z.eqb_spec (Z.of_nat o) (-1)) as [Ho|_]; [lia|].
  destruct (Z.ltb_spec (Z.of_nat o) 0) as [Ho|_]; [lia|].
  cbn [bind]. rewrite Nat2Z.id, Nat.mul_1_r.
  destruct (_ && _); [|reflexivity].
  cbn [map]. change ((-1 =? -1)%Z) with true. cbv iota.
  destruct (Z.eqb_spec (Z.of_nat o) (-1)) as [Ho|_]; [lia|].
  rewrite Nat2Z.id. reflexivity.
Qed.

(** The gradient matrix of a convolution with bias: the kernel gradient
    flattened to one row for every output channel, the bias gradient as
    one more column. *)
Lemma conv_mat_grads_bias (self : ConvLayer.t) (w b : Tensor T)
    (o c : nat) (ks : list nat) :
  ConvLayer.has_bias self = true ->
  shape w = o :: c :: ks -> is_contiguous w = true ->
  shape b = [o] -> wf b -> 0 < o ->
  exists m,
    ConvLayer.mat_grads self [w; b] = Ok m /\
    shape m = [o; c * prod_list ks + 1] /\
    (forall i, i < o -> tget m [i; c * prod_list ks] = tget b [i]).
Proof.
  intros Hb Hw Hc Hbs Hwf Ho. unfold ConvLayer.mat_grads. rewrite Hb.
  cbn [unpack2 bind]. unfold shape_at. rewrite Hw. cbn [nth_error bind].
  unfold view. rewrite infer_size_o_hole.
  assert (Hn : numel w = (c * prod_list ks) * o).
  { unfold numel. rewrite Hw. cbn [prod_list fold_right].
    fold (prod_list ks). lia. }
  rewrite Hn, Nat.Div0.mod_mul, Nat.div_mul by lia.
  destruct (Nat.ltb_spec 0 o) as [_|Hle]; [|lia].
  cbn [andb Nat.eqb bind]. unfold view_strides. rewrite Hc. cbn [bind].
  pose proof cat_bias_column as Hcat.
  specialize (Hcat (mkTensor (storage w) (offset w) [o; c * prod_list ks]
                      (contiguous_strides [o; c * prod_list ks]))
                   b o (c * prod_list ks) eq_refl Hbs Hwf).
  destruct Hcat as [m [Hm [Hsm [_ [_ [_ Hgb]]]]]].
  exists m. split; [exact Hm|]. split; [exact Hsm|exact Hgb].
Qed.

End BiasColumn.


(** ** The padding step of [extract_patches] *)

Lemma sum_list_zero (l : list nat) :
  sum_list l = 0 <-> Forall (fun p => p = 0) l.
Proof.
  induction l as [|p l IH]; simpl.
  - split; auto.
  - split.
    + intros Hs. constructor; [lia|]. apply IH. lia.
    + intros Hf. inversion Hf; subst. simpl. apply IH. assumption.
Qed.

Lemma length_padded_sizes (sp ps : list nat) :
  length ps = length sp -> length (padded_sizes sp ps) = length sp.
Proof.
  revert ps. induction sp as [|n sp IH]; intros [|p ps]; simpl;
    try discriminate; [reflexivity|].
  intros Hl. f_equal. apply IH. lia.
Qed.

Section Padding.
Context {T : Type} `{Scalar T} `{KfacEnv T}.

Lemma pad_pairs_twice (l : list nat) :
  pad_pairs (flat_map (fun p => [p; p]) l)
  = Ok (map (fun p => (p, p)) l).
Proof.
  induction l as [|p l IH]; [reflexivity|].
  cbn [flat_map app pad_pairs map]. rewrite IH. reflexivity.
Qed.

(** The amounts [extract_patches] asks [F.pad] for: nothing on the batch
    and channel axes, and on every spatial axis its padding before and the
    same padding after. *)
Lemma axis_pads_pad_arg (ps : list nat) :
  pad_pairs (ConvLayer.pad_arg ps) = Ok (map (fun p => (p, p)) (rev ps))
  /\ axis_pads (2 + length ps) (map (fun p => (p, p)) (rev ps))
     = (0, 0) :: (0, 0) :: map (fun p => (p, p)) ps.
Proof.
  split; [apply pad_pairs_twice|].
  unfold axis_pads. rewrite length_map, length_rev.
  replace (2 + length ps - length ps) with 2 by lia.
  rewrite <- map_rev, rev_involutive. reflexivity.
Qed.

Lemma pad_source_constant (n l r i : nat) :
  pad_source "constant" n l r i
  = Ok (if (l <=? i) && (i <? l + n) then Some (i - l) else None).
Proof. reflexivity. Qed.

Lemma pad_check_constant (sh : list nat) (pads : list (nat * nat)) :
  pad_check "constant" sh pads = Ok tt.
Proof.
  revert pads. induction sh as [|n sh IH]; intros [|[l r] pads];
    try reflexivity.
  cbn [pad_check]. rewrite pad_source_constant.
  destruct ((l =? 0) && (r =? 0)); cbn [bind]; apply IH.
Qed.

Lemma pad_index_constant_spatial (sp ps js : list nat) :
  pad_index "constant" sp (map (fun p => (p, p)) ps) js
  = Ok (zero_pad_source sp ps js).
Proof.
  revert ps js. induction sp as [|n sp IH]; intros [|p ps] [|j js];
    try reflexivity.
  cbn [map pad_index zero_pad_source]. rewrite pad_source_constant, IH.
  cbn [bind].
  destruct ((p <=? j) && (j <? p + n)); [|reflexivity].
  destruct (zero_pad_source sp ps js); reflexivity.
Qed.

Lemma padded_shape (b c : nat) (sp ps : list nat) :
  map (fun '(n, (l, r)) => l + n + r)
    (combine (b :: c :: sp) ((0, 0) :: (0, 0) :: map (fun p => (p, p)) ps))
  = b :: c :: padded_sizes sp ps.
Proof.
  cbn [combine map]. rewrite !Nat.add_0_r. cbn [Nat.add]. f_equal. f_equal.
  revert ps. induction sp as [|n sp IH]; intros [|p ps]; try reflexivity.
  cbn [map combine padded_sizes]. rewrite IH. reflexivity.
Qed.

(** Zero padding of an input with batch and channel axes first. *)
Lemma F_pad_zeros (x : Tensor T) (b c : nat) (sp ps : list nat) :
  shape x = b :: c :: sp -> length ps = length sp ->
  exists xp,
    F_pad x (ConvLayer.pad_arg ps) "constant" s_zero = Ok xp /\
    shape xp = b :: c :: padded_sizes sp ps /\
    wf xp /\
    (forall i l js,
        valid_index (shape xp) (i :: l :: js) ->
        tget xp (i :: l :: js) =
        match zero_pad_source sp ps js with
        | Some src => tget x (i :: l :: src)
        | None => s_zero
        end).
Proof.
  intros Hsh Hlen. unfold F_pad.
  destruct (axis_pads_pad_arg ps) as [Hpairs Haxis].
  rewrite Hpairs. cbn [bind]. unfold ndim. rewrite Hsh.
  rewrite length_map, length_rev. cbn [length].
  destruct (Nat.ltb_spec (S (S (length sp))) (length ps)) as [Hlt|_];
    [lia|].
  rewrite <- Hlen. change (S (S (length ps))) with (2 + length ps).
  rewrite Haxis, pad_source_constant, pad_check_constant. cbn [bind].
  eexists. split; [reflexivity|]. unfold pad_axes. rewrite Hsh.
  rewrite padded_shape. split; [reflexivity|].
  split; [apply wf_from_fun|].
  intros i l js Hv. rewrite tget_from_fun by exact Hv.
  cbn [valid_index] in Hv. destruct Hv as [Hi [Hl _]].
  cbn [pad_index]. rewrite !pad_source_constant. cbn [bind Nat.leb].
  cbn [Nat.add].
  destruct (Nat.ltb_spec i b) as [_|Hge]; [|lia].
  destruct (Nat.ltb_spec l c) as [_|Hge]; [|lia].
  cbn [andb bind]. rewrite pad_index_constant_spatial. cbn [bind].
  rewrite !Nat.sub_0_r.
  destruct (zero_pad_source sp ps js); reflexivity.
Qed.

(** C8.  When the padding of every spatial axis is zero, [extract_patches]
    windows the input itself.  Otherwise the input is padded first, by the
    padding of each spatial axis before and after that axis and by nothing
    on the batch and channel axes, and the windows are cut from the padded
    tensor; with padding mode 'zeros' the padded tensor shows the input
    moved by the padding and zero around it. *)
Theorem extract_patches_padding (self : ConvLayer.t) (x : Tensor T) :
  let m := ConvLayer.module self in
  let ps := ConvLayer.padding m in
  (Forall (fun p => p = 0) ps ->
   ConvLayer.pad_input m x = Ok x /\
   ConvLayer.extract_patches self x
   = (y <- ConvLayer.windowed self x ;; ConvLayer.merge_locations self y))
  /\
  (~ Forall (fun p => p = 0) ps ->
   ConvLayer.pad_input m x
   = F_pad x (ConvLayer.pad_arg ps)
       (if String.eqb (ConvLayer.padding_mode m) "zeros" then "constant"
        else ConvLayer.padding_mode m) s_zero /\
   pad_pairs (ConvLayer.pad_arg ps) = Ok (map (fun p => (p, p)) (rev ps)) /\
   axis_pads (2 + length ps) (map (fun p => (p, p)) (rev ps))
   = (0, 0) :: (0, 0) :: map (fun p => (p, p)) ps /\
   ConvLayer.extract_patches self x
   = (xp <- ConvLayer.pad_input m x ;;
      y <- ConvLayer.windowed self xp ;;
      ConvLayer.merge_locations self y))
  /\
  (forall (b c : nat) (sp : list nat),
      ~ Forall (fun p => p = 0) ps ->
      ConvLayer.padding_mode m = "zeros"%string ->
      shape x = b :: c :: sp -> length ps = length sp ->
      exists xp,
        ConvLayer.pad_input m x = Ok xp /\
        shape xp = b :: c :: padded_sizes sp ps /\
        (forall i l js,
            valid_index (shape xp) (i :: l :: js) ->
            tget xp (i :: l :: js) =
            match zero_pad_source sp ps js with
            | Some src => tget x (i :: l :: src)
            | None => s_zero
            end) /\
        ConvLayer.extract_patches self x
        = (y <- ConvLayer.windowed self xp ;;
           ConvLayer.merge_locations self y)).
Proof.
  intros m ps.
  assert (Hnz : ~ Forall (fun p => p = 0) ps ->
                (0 <? sum_list ps) = true).
  { intros Hn. apply Nat.ltb_lt.
    destruct (Nat.eq_dec (sum_list ps) 0) as [Hz|Hz]; [|lia].
    exfalso. apply Hn, sum_list_zero, Hz. }
  split; [|split].
  - intros Hz. apply sum_list_zero in Hz.
    unfold ConvLayer.extract_patches. fold m.
    rewrite pad_input_zero by exact Hz. split; reflexivity.
  - intros Hn. destruct (axis_pads_pad_arg ps) as [Hpairs Haxis].
    split; [|split; [exact Hpairs|split; [exact Haxis|reflexivity]]].
    unfold ConvLayer.pad_input. fold m ps. rewrite (Hnz Hn). reflexivity.
  - intros b c sp Hn Hmode Hsh Hlen.
    pose proof F_pad_zeros as Hpad.
    specialize Hpad with (1 := Hsh) (2 := Hlen).
    destruct Hpad as [xp [Hxp [Hshp [_ Hget]]]].
    assert (Hpi : ConvLayer.pad_input m x = Ok xp).
    { unfold ConvLayer.pad_input. fold ps. rewrite (Hnz Hn), Hmode.
      exact Hxp. }
    exists xp. split; [exact Hpi|]. split; [exact Hshp|].
    split; [exact Hget|].
    unfold ConvLayer.extract_patches. fold m. rewrite Hpi. reflexivity.
Qed.
End Padding.

(** C8 at a sample layer: one spatial axis of size 3, padded by 1. *)
Lemma extract_patches_padding_witness :
  exists xp,
    ConvLayer.pad_input
      (ConvLayer.module (sample_conv 2 1 [2] [1] [1] false))
      (ramp [1; 2; 3]) = Ok xp /\
    shape xp = 1 :: 2 :: padded_sizes [3] [1] /\
    (forall i l js,
        valid_index (shape xp) (i :: l :: js) ->
        tget xp (i :: l :: js) =
        match zero_pad_source [3] [1] js with
        | Some src => tget (ramp [1; 2; 3]) (i :: l :: src)
        | None => s_zero
        end) /\
    ConvLayer.extract_patches (sample_conv 2 1 [2] [1] [1] false)
      (ramp [1; 2; 3])
    = (y <- ConvLayer.windowed (sample_conv 2 1 [2] [1] [1] false) xp ;;
       ConvLayer.merge_locations (sample_conv 2 1 [2] [1] [1] false) y).
Proof.
  apply (proj2 (proj2 (extract_patches_padding
                         (sample_conv 2 1 [2] [1] [1] false)
                         (ramp [1; 2; 3]))));
    try reflexivity.
  intros Hf. inversion Hf; subst. discriminate.
Defined.

(** ** Sample runs *)

(** A 1x1 kernel on a 3x3 input: nine locations of one entry each do not
    fit a location axis of size 3 + 3, and the final [view] raises. *)
Example extract_patches_2d_view_raises :
  ConvLayer.extract_patches (sample_conv 1 1 [1; 1] [1; 1] [0; 0] false)
    (ramp [1; 1; 3; 3]) = Raise RuntimeError.
Proof. reflexivity. Qed.

(** With a bias, [multiply_preconditioner] returns gradients of the shapes
    it was given: the split views the columns but the last as the kernel
    gradient, although they are not contiguous. *)
Example conv_multiply_preconditioner_bias_shapes :
  match
    ConvLayer.multiply_preconditioner (sample_conv_trained 2 2 [2] true 3)
      [ramp [2; 2; 2]; ramp [2]] 1%Z
  with
  | Ok r => map (@shape Z) r = [[2; 2; 2]; [2]]
  | Raise _ => False
  end.
Proof. vm_compute. reflexivity. Qed.

(** [view] on a transposed matrix fails, and works on its contiguous
    copy. *)
Example view_needs_contiguous :
  (t <- transpose 0 1 (ramp [2; 3]) ;; view [6%Z] t) = Raise RuntimeError
  /\ (t <- transpose 0 1 (ramp [2; 3]) ;;
      v <- view [6%Z] (contiguous t) ;; Ok (elements v))
     = Ok [1; 4; 2; 5; 3; 6]%Z.
Proof. split; reflexivity. Qed.

(** ** The columns of the gradient matrix

    [weights.view(weights.shape[0], -1)] numbers the columns of the kernel
    gradient channel first, kernel offset second: column [ch * k + j] is
    channel [ch] at offset [j], the order of the features of a patch. *)

Section WeightColumns.
Context {T : Type} `{Scalar T}.

Lemma weight_view_order (w : Tensor T) (o c k : nat) :
  shape w = [o; c; k] -> wf w -> is_contiguous w = true -> 0 < o ->
  exists m,
    (n <- shape_at w 0 ;; view [Z.of_nat n; (-1)%Z] w) = Ok m /\
    shape m = [o; c * k] /\
    (forall i ch j, i < o -> ch < c -> j < k ->
        tget m [i; ch * k + j] = tget w [i; ch; j]).
Proof.
  intros Hsh Hwf Hc Ho. unfold shape_at. rewrite Hsh.
  cbn [nth_error bind]. unfold view.
  assert (Hi : infer_size [Z.of_nat o; (-1)%Z] (numel w) = Ok [o; c * k]).
  { unfold infer_size. cbn [infer_scan bind].
    change ((-1 =? -1)%Z) with true. cbv iota. cbn [bind].
    destruct (Z.eqb_spec (Z.of_nat o) (-1)) as [Hz|_]; [lia|].
    destruct (Z.ltb_spec (Z.of_nat o) 0) as [Hz|_]; [lia|].
    cbn [bind]. rewrite Nat2Z.id, Nat.mul_1_r.
    assert (Hn : numel w = (c * k) * o).
    { unfold numel. rewrite Hsh. cbn [prod_list fold_right]. lia. }
    rewrite Hn, Nat.Div0.mod_mul, Nat.div_mul by lia.
    destruct (Nat.ltb_spec 0 o) as [_|Hle]; [|lia].
    cbn [andb Nat.eqb map]. change ((-1 =? -1)%Z) with true. cbv iota.
    destruct (Z.eqb_spec (Z.of_nat o) (-1)) as [Hz|_]; [lia|].
    rewrite Nat2Z.id. reflexivity. }
  rewrite Hi. cbn [bind]. unfold view_strides. rewrite Hc.
  eexists. split; [reflexivity|]. split; [reflexivity|].
  intros i ch j Hio Hch Hj.
  rewrite tget_contiguous_pos with (t := w);
    [|assumption|assumption|rewrite Hsh; cbn [valid_index]; lia].
  unfold tget. cbn [storage offset strides]. rewrite Hsh.
  f_equal. f_equal.
  cbn [dot contiguous_strides prod_list fold_right]. lia.
Qed.
End WeightColumns.

(** ** The backward hook of the convolutional layer *)

Lemma prod_list_app (l r : list nat) :
  prod_list (l ++ r) = prod_list l * prod_list r.
Proof.
  induction l as [|n l IH]; simpl; [lia|].
  fold (prod_list (l ++ r)). fold (prod_list l). rewrite IH. lia.
Qed.

(** Row-major position with one more axis at the end. *)
Lemma dot_contiguous_snoc (dims idx : list nat) (o j : nat) :
  length idx = length dims ->
  dot (idx ++ [j]) (contiguous_strides (dims ++ [o]))
  = dot idx (contiguous_strides dims) * o + j.
Proof.
  revert idx. induction dims as [|d dims IH]; intros [|i idx]; simpl;
    try discriminate; [lia|].
  intros Hl. fold (prod_list (dims ++ [o])). fold (prod_list dims).
  rewrite IH by lia. rewrite prod_list_app. simpl. lia.
Qed.

Lemma valid_index_app (s1 s2 i1 i2 : list nat) :
  valid_index s1 i1 -> valid_index s2 i2 ->
  valid_index (s1 ++ s2) (i1 ++ i2).
Proof.
  revert i1. induction s1 as [|n s1 IH]; intros [|i i1]; simpl;
    try tauto.
  intros [Hi Hv] H2. split; [exact Hi|]. apply IH; assumption.
Qed.

Section BackwardHook.
Context {T : Type} `{Scalar T} `{KfacEnv T}.

(** Size inference for a request [(b, -1, o)]. *)
Lemma infer_size_b_hole_o (b o n : nat) :
  infer_size [Z.of_nat b; (-1)%Z; Z.of_nat o] n =
  if (0 <? b * o) && (n mod (b * o) =? 0)
  then Ok [b; n / (b * o); o] else Raise RuntimeError.
Proof.
  unfold infer_size. cbn [infer_scan bind].
  destruct (Z.eqb_spec (Z.of_nat o) (-1)) as [Ho|_]; [lia|].
  destruct (Z.ltb_spec (Z.of_nat o) 0) as [Ho|_]; [lia|].
  cbn [bind]. change ((-1 =? -1)%Z) with true. cbv iota. cbn [bind].
  destruct (Z.eqb_spec (Z.of_nat b) (-1)) as [Hb|_]; [lia|].
  destruct (Z.ltb_spec (Z.of_nat b) 0) as [Hb|_]; [lia|].
  cbn [bind]. rewrite !Nat2Z.id, Nat.mul_1_r.
  destruct (_ && _); [|reflexivity].
  cbn [map]. change ((-1 =? -1)%Z) with true. cbv iota.
  destruct (Z.eqb_spec (Z.of_nat o) (-1)) as [Ho|_]; [lia|].
  destruct (Z.eqb_spec (Z.of_nat b) (-1)) as [Hb|_]; [lia|].
  rewrite !Nat2Z.id. reflexivity.
Qed.

Lemma shape_last_snoc (t : Tensor T) (l : list nat) (o : nat) :
  shape t = l ++ [o] -> shape_last t = Ok o.
Proof.
  intros Hsh. unfold shape_last. rewrite Hsh, rev_app_distr. reflexivity.
Qed.

(** X1.  The backward hook on an output gradient of shape (batch,
    out_channels, spatial axes): the capture has shape (batch, locations,
    out_channels), and its location axis runs over the spatial axes with
    the LAST spatial axis slowest, then the others in their order, since
    [transpose(1, -1)] swaps the channel axis with the last axis. *)
Theorem conv_backward_hook_layout (self : ConvLayer.t) (g : Tensor T)
    (rest : list (Tensor T)) (b o z : nat) (mid : list nat) :
  shape g = b :: o :: mid ++ [z] -> wf g -> 0 < b -> 0 < o ->
  exists self',
    ConvLayer.backward_hook self (g :: rest) = Ok self' /\
    shape (ConvLayer._sensitivities self')
    = [b; prod_list (z :: mid); o] /\
    ConvLayer._activations self' = ConvLayer._activations self /\
    ConvLayer.base self' = ConvLayer.base self /\
    (forall i j zi mi,
        i < b -> j < o -> zi < z -> valid_index mid mi ->
        tget (ConvLayer._sensitivities self')
          [i; dot (zi :: mi) (contiguous_strides (z :: mid)); j]
        = tget g (i :: j :: mi ++ [zi])).
Proof.
  intros Hsh Hwf Hb Ho.
  pose proof Hwf as Hwf'. unfold wf in Hwf'. rewrite Hsh in Hwf'.
  destruct (strides g) as [|sb [|so st]] eqn:Hst; try discriminate.
  assert (Hlst : length st = length mid + 1).
  { cbn [length] in Hwf'. rewrite length_app in Hwf'. simpl in Hwf'. lia. }
  destruct (exists_last (l := st)) as [smid [sz Hsz]].
  { intros ->. simpl in Hlst. lia. }
  subst st. rewrite length_app in Hlst. simpl in Hlst.
  assert (Hlm : length smid = length mid) by lia.
  unfold ConvLayer.backward_hook. cbn [getitem nth_error bind].
  unfold ndim. rewrite Hsh. cbn [length Nat.eqb].
  rewrite length_app. cbn [length].
  replace (S (S (length mid + 1)) - 1) with (S (S (length mid))) by lia.
  unfold transpose, ndim. rewrite Hsh, Hst. cbn [length].
  rewrite length_app. cbn [length].
  destruct (Nat.ltb_spec 1 (S (S (length mid + 1)))) as [_|Hge]; [|lia].
  destruct (Nat.ltb_spec (S (S (length mid))) (S (S (length mid + 1))))
    as [_|Hge]; [|lia].
  cbn [andb bind].
  rewrite (swap_channel b o z 0 mid [] eq_refl).
  rewrite (swap_channel sb so sz 0 smid [] (eq_sym Hlm)).
  set (t := mkTensor (storage g) (offset g) (b :: z :: mid ++ [o])
              (sb :: sz :: smid ++ [so])).
  assert (Hsc : shape (contiguous t) = (b :: z :: mid) ++ [o])
    by (rewrite shape_contiguous; reflexivity).
  unfold shape_at. rewrite shape_contiguous. cbn [shape t nth_error bind].
  rewrite shape_last_snoc with (l := b :: z :: mid) (o := o)
    by exact Hsc.
  cbn [bind]. unfold view. rewrite infer_size_b_hole_o.
  assert (Hn : numel (contiguous t) = prod_list (z :: mid) * (b * o)).
  { unfold numel. rewrite Hsc, prod_list_app. simpl. lia. }
  rewrite Hn, Nat.Div0.mod_mul, Nat.div_mul by lia.
  destruct (Nat.ltb_spec 0 (b * o)) as [_|Hle]; [|nia].
  cbn [andb Nat.eqb bind]. unfold view_strides.
  rewrite is_contiguous_contiguous. cbn [bind].
  eexists. split; [reflexivity|]. cbn [ConvLayer._sensitivities
    ConvLayer._activations ConvLayer.base shape].
  repeat (split; [reflexivity|]).
  intros i j zi mi Hi Hj Hzi Hmi.
  pose proof (valid_index_length _ _ Hmi) as Hlmi.
  assert (Hvt : valid_index (shape t) (i :: zi :: mi ++ [j])).
  { cbn [shape t valid_index]. split; [exact Hi|]. split; [exact Hzi|].
    apply valid_index_app; [exact Hmi|]. cbn [valid_index]. auto. }
  transitivity (tget (contiguous t) (i :: zi :: mi ++ [j])).
  - rewrite tget_contiguous_pos with (t := contiguous t);
      [|apply wf_contiguous; unfold wf; cbn [shape strides t length];
        rewrite !length_app; simpl; lia
       |apply is_contiguous_contiguous
       |rewrite shape_contiguous; exact Hvt].
    unfold tget. cbn [storage offset strides]. f_equal. f_equal.
    rewrite Hsc.
    change (i :: zi :: mi ++ [j]) with ((i :: zi :: mi) ++ [j]).
    rewrite dot_contiguous_snoc by (simpl; lia).
    cbn [dot contiguous_strides prod_list fold_right].
    fold (prod_list mid). lia.
  - rewrite tget_contiguous by exact Hvt.
    unfold tget. cbn [storage offset strides t]. rewrite Hst.
    f_equal. f_equal. cbn [dot].
    rewrite !dot_app by lia. cbn [dot]. lia.
Qed.

(** X2.  The backward hook raises IndexError when it is handed no
    gradient or a gradient with fewer than two axes, and RuntimeError
    when the batch is empty (the size [-1] of the [view] cannot be
    inferred). *)
Theorem conv_backward_hook_errors (self : ConvLayer.t) :
  ConvLayer.backward_hook self [] = Raise IndexError
  /\ (forall (g : Tensor T) rest,
         length (shape g) < 2 ->
         ConvLayer.backward_hook self (g :: rest) = Raise IndexError)
  /\ (forall (g : Tensor T) rest o mid,
         shape g = 0 :: o :: mid ->
         ConvLayer.backward_hook self (g :: rest) = Raise RuntimeError).
Proof.
  split; [reflexivity|]. split.
  - intros g rest Hl. unfold ConvLayer.backward_hook.
    cbn [getitem nth_error bind]. unfold ndim.
    destruct (shape g) as [|n [|? ?]] eqn:Hsh; simpl in Hl; try lia.
    + reflexivity.
    + cbn [length Nat.eqb Nat.sub]. unfold transpose, ndim. rewrite Hsh.
      reflexivity.
  - intros g rest o mid Hsh. unfold ConvLayer.backward_hook.
    cbn [getitem nth_error bind]. unfold ndim. rewrite Hsh.
    cbn [length Nat.eqb]. unfold transpose, ndim. rewrite Hsh.
    cbn [length].
    replace (S (S (length mid)) - 1) with (S (length mid)) by lia.
    destruct (Nat.ltb_spec 1 (S (S (length mid)))) as [_|Hge]; [|lia].
    destruct (Nat.ltb_spec (S (length mid)) (S (S (length mid))))
      as [_|Hge]; [|lia].
    cbn [andb bind].
    assert (Hhd : exists tl,
               swap_nth 1 (S (length mid)) 0 (0 :: o :: mid) = 0 :: tl).
    { unfold swap_nth. cbn [set_nth]. eexists. reflexivity. }
    destruct Hhd as [tl Htl]. rewrite Htl.
    unfold shape_at, shape_last. rewrite shape_contiguous.
    cbn [shape nth_error bind rev].
    destruct (rev tl) as [|c r]; cbn [app bind]; unfold view;
      rewrite infer_size_b_hole_o; reflexivity.
Qed.
End BackwardHook.

(** X1 at a gradient of shape (2, 3, 4, 5). *)
Lemma conv_backward_hook_layout_witness :
  exists self',
    ConvLayer.backward_hook (sample_conv 1 3 [2; 2] [1; 1] [0; 0] false)
      [ramp [2; 3; 4; 5]] = Ok self' /\
    shape (ConvLayer._sensitivities self') = [2; prod_list [5; 4]; 3] /\
    ConvLayer._activations self'
    = ConvLayer._activations
        (sample_conv 1 3 [2; 2] [1; 1] [0; 0] false) /\
    ConvLayer.base self'
    = ConvLayer.base (sample_conv 1 3 [2; 2] [1; 1] [0; 0] false) /\
    (forall i j zi mi,
        i < 2 -> j < 3 -> zi < 5 -> valid_index [4] mi ->
        tget (ConvLayer._sensitivities self')
          [i; dot (zi :: mi) (contiguous_strides [5; 4]); j]
        = tget (ramp [2; 3; 4; 5]) (i :: j :: mi ++ [zi])).
Proof.
  apply conv_backward_hook_layout with (mid := [4]);
    try reflexivity; lia.
Defined.

(** X2 at a gradient with one axis and at an empty batch. *)
Lemma conv_backward_hook_errors_witness :
  ConvLayer.backward_hook (sample_conv 1 3 [2] [1] [0] false)
    [ramp [4]] = Raise IndexError
  /\ ConvLayer.backward_hook (sample_conv 1 3 [2] [1] [0] false)
       [ramp [0; 3; 4]] = Raise RuntimeError.
Proof.
  destruct (conv_backward_hook_errors
              (sample_conv 1 3 [2] [1] [0] false)) as [_ [H1 H2]].
  split.
  - apply H1. simpl. lia.
  - apply (H2 (ramp [0; 3; 4]) [] 3 [4]). reflexivity.
Defined.

(** ** When [extract_patches] fails *)

Section PatchFailures.
Context {T : Type} `{Scalar T} `{KfacEnv T}.

(** X3.  One spatial axis, no padding, an input of shape (batch, channels,
    width): [extract_patches] returns patches of shape (batch,
    (width - k) / stride + 1, channels * k) when the kernel fits the
    width, the stride is positive and the batch is not empty, and raises
    RuntimeError in every other case. *)
Theorem extract_patches_1d_returns_iff (self : ConvLayer.t)
    (x : Tensor T) (b c w k s : nat) :
  sum_list (ConvLayer.padding (ConvLayer.module self)) = 0 ->
  ConvLayer.n_dim self = 1 ->
  ConvLayer.kernel_size (ConvLayer.module self) = [k] ->
  ConvLayer.stride (ConvLayer.module self) = [s] ->
  shape x = [b; c; w] -> wf x ->
  if (k <=? w) && (0 <? s) && (0 <? b)
  then exists out, ConvLayer.extract_patches self x = Ok out /\
                   shape out = [b; (w - k) / s + 1; c * k]
  else ConvLayer.extract_patches self x = Raise RuntimeError.
Proof.
  intros Hp Hn Hk Hs Hsh Hwf.
  destruct (Nat.leb_spec k w) as [Hkw|Hkw]; cbn [andb].
  - destruct (Nat.ltb_spec 0 s) as [Hs0|Hs0]; cbn [andb].
    + destruct (Nat.ltb_spec 0 b) as [Hb|Hb].
      * pose proof extract_patches_1d_order as Ho.
        specialize Ho with (1 := pad_input_zero _ x Hp) (2 := Hsh)
                           (3 := Hwf) (4 := Hn) (5 := Hk) (6 := Hs)
                           (7 := Hkw) (8 := Hs0) (9 := Hb).
        destruct Ho as [out [Hout [Hso _]]]. exists out. auto.
      * unfold ConvLayer.extract_patches.
        rewrite pad_input_zero by exact Hp. cbn [bind].
        pose proof windowed_merge_shape as Hm.
        specialize Hm with (1 := Hsh) (2 := Hwf) (3 := Hn).
        rewrite Hk, Hs in Hm.
        assert (Hb0 : b = 0) by lia. subst b.
        apply Hm. simpl. lia.
    + unfold ConvLayer.extract_patches.
      rewrite pad_input_zero by exact Hp. cbn [bind].
      unfold ConvLayer.windowed. rewrite Hk, Hs.
      cbn [combine ConvLayer.unfold_loop Nat.add]. unfold unfold.
      rewrite Hsh. cbn [nth_error].
      destruct (Nat.ltb_spec w k) as [Hlt|_]; [lia|].
      assert (Hs1 : s = 0) by lia. subst s. reflexivity.
  - unfold ConvLayer.extract_patches.
    rewrite pad_input_zero by exact Hp. cbn [bind].
    unfold ConvLayer.windowed. rewrite Hk, Hs.
    cbn [combine ConvLayer.unfold_loop Nat.add]. unfold unfold.
    rewrite Hsh. cbn [nth_error].
    destruct (Nat.ltb_spec w k) as [_|Hge]; [reflexivity|lia].
Qed.

(** X4.  One spatial axis, no padding: an input with fewer than three
    axes (no batch axis, say) makes [extract_patches] raise IndexError,
    as the windows are cut along axis 2. *)
Theorem extract_patches_1d_missing_axis (self : ConvLayer.t)
    (x : Tensor T) (k s : nat) :
  sum_list (ConvLayer.padding (ConvLayer.module self)) = 0 ->
  ConvLayer.kernel_size (ConvLayer.module self) = [k] ->
  ConvLayer.stride (ConvLayer.module self) = [s] ->
  length (shape x) < 3 ->
  ConvLayer.extract_patches self x = Raise IndexError.
Proof.
  intros Hp Hk Hs Hl. unfold ConvLayer.extract_patches.
  rewrite pad_input_zero by exact Hp. cbn [bind].
  unfold ConvLayer.windowed. rewrite Hk, Hs.
  cbn [combine ConvLayer.unfold_loop Nat.add]. unfold unfold.
  destruct (shape x) as [|a [|b' [|c' ?]]]; simpl in Hl; try lia;
    reflexivity.
Qed.

(** X5.  One spatial axis padded by [p] > 0 on either side in mode
    'zeros': the patches have shape (batch, (width + 2p - k) / stride + 1,
    channels * k), and feature [ch * k + j] of the patch at location [l]
    is the input of channel [ch] at position [l * stride + j - p] when
    that position is inside the input, and zero otherwise. *)
Theorem extract_patches_1d_zero_padded (self : ConvLayer.t)
    (x : Tensor T) (b c w k s p : nat) :
  ConvLayer.padding (ConvLayer.module self) = [p] -> 0 < p ->
  ConvLayer.padding_mode (ConvLayer.module self) = "zeros"%string ->
  ConvLayer.n_dim self = 1 ->
  ConvLayer.kernel_size (ConvLayer.module self) = [k] ->
  ConvLayer.stride (ConvLayer.module self) = [s] ->
  shape x = [b; c; w] ->
  k <= p + w + p -> 0 < s -> 0 < b ->
  exists out,
    ConvLayer.extract_patches self x = Ok out /\
    shape out = [b; (p + w + p - k) / s + 1; c * k] /\
    (forall i l ch j,
        i < b -> l < (p + w + p - k) / s + 1 -> ch < c -> j < k ->
        tget out [i; l; ch * k + j] =
        if (p <=? l * s + j) && (l * s + j <? p + w)
        then tget x [i; ch; l * s + j - p] else s_zero).
Proof.
  intros Hp Hp0 Hmode Hn Hk Hs Hsh Hkw Hs0 Hb.
  pose proof F_pad_zeros as Hpad.
  specialize Hpad with (1 := Hsh) (ps := [p]) (2 := eq_refl).
  destruct Hpad as [xp [Hxp [Hshp [Hwfp Hget]]]].
  assert (Hpi : ConvLayer.pad_input (ConvLayer.module self) x = Ok xp).
  { unfold ConvLayer.pad_input. rewrite Hp, Hmode. cbn [sum_list fold_right].
    destruct (Nat.ltb_spec 0 (p + 0)) as [_|Hle]; [exact Hxp|lia]. }
  cbn [padded_sizes] in Hshp.
  pose proof extract_patches_1d_order as Ho.
  specialize Ho with (1 := Hpi) (2 := Hshp) (3 := Hwfp) (4 := Hn)
                     (5 := Hk) (6 := Hs) (7 := Hkw) (8 := Hs0) (9 := Hb).
  destruct Ho as [out [Hout [Hso Hord]]].
  exists out. split; [exact Hout|]. split; [exact Hso|].
  intros i l ch j Hi Hl Hch Hj.
  assert (Hlim : l * s + j < p + w + p).
  { assert (l * s <= p + w + p - k).
    { assert (l <= (p + w + p - k) / s) by lia.
      transitivity ((p + w + p - k) / s * s); [nia|].
      rewrite Nat.mul_comm. apply Nat.Div0.mul_div_le. }
    lia. }
  rewrite (Hord i l ch j); try assumption.
  - rewrite Hget by (rewrite Hshp; cbn [valid_index]; lia).
    cbn [zero_pad_source].
    destruct ((p <=? l * s + j) && (l * s + j <? p + w)); reflexivity.
  - rewrite Hso. cbn [valid_index].
    repeat split; try assumption. nia.
Qed.
End PatchFailures.

(** X3 at a kernel that fits and at one that does not. *)
Lemma extract_patches_1d_returns_iff_witness :
  (exists out,
      ConvLayer.extract_patches (sample_conv 2 1 [2] [1] [0] false)
        (ramp [1; 2; 3]) = Ok out /\
      shape out = [1; (3 - 2) / 1 + 1; 2 * 2])
  /\ ConvLayer.extract_patches (sample_conv 2 1 [4] [1] [0] false)
       (ramp [1; 2; 3]) = Raise RuntimeError.
Proof.
  split.
  - exact (@extract_patches_1d_returns_iff Z _ sample_env
             (sample_conv 2 1 [2] [1] [0] false) (ramp [1; 2; 3])
             1 2 3 2 1 eq_refl eq_refl eq_refl eq_refl eq_refl eq_refl).
  - exact (@extract_patches_1d_returns_iff Z _ sample_env
             (sample_conv 2 1 [4] [1] [0] false) (ramp [1; 2; 3])
             1 2 3 4 1 eq_refl eq_refl eq_refl eq_refl eq_refl eq_refl).
Defined.

(** X4 at an input without batch axis. *)
Lemma extract_patches_1d_missing_axis_witness :
  ConvLayer.extract_patches (sample_conv 2 1 [2] [1] [0] false)
    (ramp [2; 3]) = Raise IndexError.
Proof.
  apply extract_patches_1d_missing_axis with (k := 2) (s := 1);
    try reflexivity.
  simpl. lia.
Defined.

(** X5 at a width of 3 padded by 1. *)
Lemma extract_patches_1d_zero_padded_witness :
  exists out,
    ConvLayer.extract_patches (sample_conv 2 1 [2] [1] [1] false)
      (ramp [1; 2; 3]) = Ok out /\
    shape out = [1; (1 + 3 + 1 - 2) / 1 + 1; 2 * 2] /\
    (forall i l ch j,
        i < 1 -> l < (1 + 3 + 1 - 2) / 1 + 1 -> ch < 2 -> j < 2 ->
        tget out [i; l; ch * 2 + j] =
        if (1 <=? l * 1 + j) && (l * 1 + j <? 1 + 3)
        then tget (ramp [1; 2; 3]) [i; ch; l * 1 + j - 1] else s_zero).
Proof.
  apply extract_patches_1d_zero_padded; try reflexivity; simpl; lia.
Defined.

(** ** What the hooks and [update_cov] leave alone *)

Section Frames.
Context {T : Type} `{Scalar T} `{KfacEnv T}.

(** X6.  Whatever the strides of the tensors they are handed, what the
    two hooks of the convolutional layer store is contiguous, so that the
    [reshape] of [update_cov] is a view of the capture. *)
Theorem conv_hooks_store_contiguous :
  (forall (self self' : ConvLayer.t) (inp : list (Tensor T)),
      ConvLayer.forward_hook self inp = Ok self' ->
      wf (ConvLayer._activations self') /\
      is_contiguous (ConvLayer._activations self') = true /\
      ConvLayer._sensitivities self' = ConvLayer._sensitivities self)
  /\
  (forall (self self' : ConvLayer.t) (grad_out : list (Tensor T)),
      ConvLayer.backward_hook self grad_out = Ok self' ->
      wf (ConvLayer._sensitivities self') /\
      is_contiguous (ConvLayer._sensitivities self') = true /\
      ConvLayer._activations self' = ConvLayer._activations self).
Proof.
  split.
  - intros self self' inp Hf.
    destruct (forward_hook_capture _ _ Hf) as [Hw Hc].
    split; [exact Hw|]. split; [exact Hc|].
    unfold ConvLayer.forward_hook in Hf.
    destruct (getitem inp 0) as [x|e]; [|discriminate]. cbn [bind] in Hf.
    destruct (ConvLayer.extract_patches self x) as [a|e]; [|discriminate].
    cbn [bind] in Hf. injection Hf as <-. reflexivity.
  - intros self self' grad_out Hb.
    destruct (backward_hook_capture _ _ Hb) as [Hw Hc].
    split; [exact Hw|]. split; [exact Hc|].
    unfold ConvLayer.backward_hook in Hb.
    destruct (getitem grad_out 0) as [g|e]; [|discriminate].
    cbn [bind] in Hb.
    destruct (ndim g =? 0); [discriminate|].
    destruct (transpose _ _ g) as [s|e]; [|discriminate].
    cbn [bind] in Hb.
    destruct (shape_at _ 0) as [b|e]; [|discriminate]. cbn [bind] in Hb.
    destruct (shape_last _) as [c|e]; [|discriminate]. cbn [bind] in Hb.
    destruct (view _ _) as [v|e]; [|discriminate]. cbn [bind] in Hb.
    injection Hb as <-. reflexivity.
Qed.

(** X7.  [update_cov] changes the two accumulators and nothing else: the
    module, the captures, the centering flag and the two feature counts
    are what they were, in both layers. *)
Theorem update_cov_changes_accumulators_only :
  (forall conv conv' : ConvLayer.t,
      ConvLayer.update_cov conv = Ok conv' ->
      ConvLayer.module conv' = ConvLayer.module conv /\
      ConvLayer.n_dim conv' = ConvLayer.n_dim conv /\
      ConvLayer._activations conv' = ConvLayer._activations conv /\
      ConvLayer._sensitivities conv' = ConvLayer._sensitivities conv /\
      ConvLayer._center conv' = ConvLayer._center conv /\
      _in_features (ConvLayer.base conv')
      = _in_features (ConvLayer.base conv) /\
      _out_features (ConvLayer.base conv')
      = _out_features (ConvLayer.base conv))
  /\
  (forall lin lin' : LinearLayer.t,
      LinearLayer.update_cov lin = Ok lin' ->
      LinearLayer.module lin' = LinearLayer.module lin /\
      LinearLayer._activations lin' = LinearLayer._activations lin /\
      LinearLayer._sensitivities lin' = LinearLayer._sensitivities lin /\
      LinearLayer._center lin' = LinearLayer._center lin /\
      _in_features (LinearLayer.base lin')
      = _in_features (LinearLayer.base lin) /\
      _out_features (LinearLayer.base lin')
      = _out_features (LinearLayer.base lin)).
Proof.
  split.
  - intros conv conv' Hu. unfold ConvLayer.update_cov in Hu.
    repeat match type of Hu with
      | bind ?m _ = Ok _ =>
          destruct m as [?|?]; cbn [bind] in Hu; [|discriminate]
      | (let '(_, _) := ?p in _) = Ok _ => destruct p
      end.
    injection Hu as <-. repeat split.
  - intros lin lin' Hu. unfold LinearLayer.update_cov in Hu.
    repeat match type of Hu with
      | bind ?m _ = Ok _ =>
          destruct m as [?|?]; cbn [bind] in Hu; [|discriminate]
      | (let '(_, _) := ?p in _) = Ok _ => destruct p
      end.
    injection Hu as <-. repeat split.
Qed.
End Frames.

(** X6 at a sample input. *)
Lemma conv_hooks_store_contiguous_witness :
  exists self',
    ConvLayer.forward_hook (sample_conv 2 1 [2] [1] [0] false)
      [ramp [1; 2; 3]] = Ok self' /\
    wf (ConvLayer._activations self') /\
    is_contiguous (ConvLayer._activations self') = true /\
    ConvLayer._sensitivities self'
    = ConvLayer._sensitivities (sample_conv 2 1 [2] [1] [0] false).
Proof.
  eexists. split; [reflexivity|].
  apply (proj1 (conv_hooks_store_contiguous (T := Z) (H0 := sample_env)))
    with (inp := [ramp [1; 2; 3]]).
  reflexivity.
Defined.

(** X7 at a sample layer. *)
Lemma update_cov_changes_accumulators_only_witness :
  exists conv',
    ConvLayer.update_cov (sample_conv_trained 2 2 [2] true 3) = Ok conv' /\
    ConvLayer._activations conv'
    = ConvLayer._activations (sample_conv_trained 2 2 [2] true 3).
Proof.
  eexists. split; [reflexivity|].
  apply (proj1 (update_cov_changes_accumulators_only (T := Z)
                  (H0 := sample_env))
           (sample_conv_trained 2 2 [2] true 3)).
  reflexivity.
Defined.

(** ** Errors and round trip of the gradient matrix *)

Section GradMatrixEdges.
Context {T : Type} `{Scalar T} `{KfacEnv T}.

(** X8.  [grads_to_mat] of a linear layer with bias wants exactly two
    gradients (ValueError otherwise) whose row counts agree (RuntimeError
    from [torch.cat] otherwise); without bias it wants at least one
    gradient (IndexError otherwise) and hands the first one back, whatever
    follows it. *)
Theorem linear_grads_to_mat_errors (self : LinearLayer.t) :
  (LinearLayer.has_bias self = true ->
   forall grads, length grads <> 2 ->
     LinearLayer.grads_to_mat self grads = Raise ValueError)
  /\
  (LinearLayer.has_bias self = true ->
   forall (w b : Tensor T) o o' f,
     shape w = [o; f] -> shape b = [o'] -> o <> o' ->
     LinearLayer.grads_to_mat self [w; b] = Raise RuntimeError)
  /\
  (LinearLayer.has_bias self = false ->
   LinearLayer.grads_to_mat self [] = Raise IndexError /\
   forall w rest, LinearLayer.grads_to_mat self (w :: rest) = Ok w).
Proof.
  unfold LinearLayer.grads_to_mat. repeat apply conj.
  - intros Hb grads Hl. rewrite Hb.
    destruct grads as [|a [|b [|c ?]]]; simpl in Hl; try reflexivity. lia.
  - intros Hb w b o o' f Hw Hbs Hne. rewrite Hb. cbn [unpack2 bind].
    unfold colon_none, unsqueeze, ndim. rewrite Hbs. cbn [length Nat.ltb
      Nat.leb bind insert_nth].
    unfold cat_last. cbn [shape]. rewrite Hw. cbn [rev app].
    destruct (list_eq_dec Nat.eq_dec [o] [o']) as [He|_];
      [congruence|reflexivity].
  - intros Hb. rewrite Hb. split; reflexivity.
Qed.

(** X9.  [mat_to_grads] of a linear layer with bias raises IndexError on
    a matrix without columns (there is no last column to take) and on a
    tensor with fewer than two axes; without bias it hands back whatever
    it is given. *)
Theorem linear_mat_to_grads_errors (self : LinearLayer.t) :
  (LinearLayer.has_bias self = true ->
   forall (m : Tensor T) o,
     shape m = [o; 0] ->
     LinearLayer.mat_to_grads self m = Raise IndexError)
  /\
  (LinearLayer.has_bias self = true ->
   forall m : Tensor T,
     length (shape m) < 2 ->
     LinearLayer.mat_to_grads self m = Raise IndexError)
  /\
  (LinearLayer.has_bias self = false ->
   forall m : Tensor T, LinearLayer.mat_to_grads self m = Ok [m]).
Proof.
  unfold LinearLayer.mat_to_grads. repeat apply conj.
  - intros Hb m o Hm. rewrite Hb. unfold cols_but_last, col_last.
    rewrite Hm. reflexivity.
  - intros Hb m Hl. rewrite Hb. unfold cols_but_last.
    destruct (shape m) as [|a [|b ?]]; simpl in Hl; try lia; reflexivity.
  - intros Hb m. rewrite Hb. reflexivity.
Qed.

Lemma split_last_column_wf (m : Tensor T) (o n : nat) :
  shape m = [o; S n] -> wf m ->
  exists w b,
    cols_but_last m = Ok w /\ col_last m = Ok b /\
    shape w = [o; n] /\ shape b = [o] /\ wf b /\
    (forall i j, i < o -> j < n -> tget w [i; j] = tget m [i; j]) /\
    (forall i, i < o -> tget b [i] = tget m [i; n]).
Proof.
  intros Hsh Hwf. unfold cols_but_last, col_last. rewrite Hsh.
  cbn [Nat.eqb]. eexists. eexists.
  split; [reflexivity|]. split; [reflexivity|].
  cbn [shape set_nth remove_nth Nat.sub]. rewrite Nat.sub_0_r.
  split; [reflexivity|]. split; [reflexivity|].
  pose proof Hwf as Hwf'. unfold wf in Hwf'. rewrite Hsh in Hwf'.
  destruct (strides m) as [|s0 [|s1 [|? ?]]] eqn:Hst; try discriminate.
  split; [reflexivity|]. split.
  - intros i j Hi Hj. unfold tget. cbn [storage offset strides].
    rewrite Hst. reflexivity.
  - intros i Hi. unfold tget. cbn [storage offset strides].
    rewrite Hst. cbn [remove_nth nth dot]. f_equal. lia.
Qed.

(** X10.  The round trip the other way: splitting a matrix with at least
    one column and assembling the two pieces again gives a matrix with
    the shape and the entries of the one split. *)
Theorem linear_grads_to_mat_mat_to_grads (self : LinearLayer.t)
    (m : Tensor T) (o f : nat) :
  LinearLayer.has_bias self = true ->
  shape m = [o; f + 1] -> wf m ->
  exists w b m',
    LinearLayer.mat_to_grads self m = Ok [w; b] /\
    LinearLayer.grads_to_mat self [w; b] = Ok m' /\
    tensor_eqv m' m.
Proof.
  intros Hb Hm Hwf. rewrite Nat.add_1_r in Hm.
  pose proof split_last_column_wf as Hsplit.
  specialize Hsplit with (1 := Hm) (2 := Hwf).
  destruct Hsplit as [w [b [Hw [Hbl [Hsw [Hsb [Hwfb [Hgw Hgb]]]]]]]].
  pose proof cat_bias_column as Hcat.
  specialize Hcat with (1 := Hsw) (2 := Hsb) (3 := Hwfb).
  destruct Hcat as [m' [Hm' [Hsm' [_ [_ [Hgw' Hgb']]]]]].
  exists w, b, m'.
  unfold LinearLayer.mat_to_grads, LinearLayer.grads_to_mat.
  rewrite Hb, Hw, Hbl. cbn [bind unpack2]. rewrite Hm'.
  split; [reflexivity|]. split; [reflexivity|].
  apply elements_ext.
  - rewrite Hsm', Hm. f_equal. f_equal. lia.
  - rewrite Hm. intros [|i [|j [|? ?]]]; cbn [valid_index]; try tauto.
    intros [Hi [Hj _]].
    destruct (Nat.eq_dec j f) as [->|Hne].
    + rewrite Hgb', Hgb by assumption. reflexivity.
    + rewrite Hgw', Hgw by lia. reflexivity.
Qed.
End GradMatrixEdges.

(** X8 at a sample layer with bias: one gradient too few, and a bias
    gradient of the wrong length. *)
Lemma linear_grads_to_mat_errors_witness :
  LinearLayer.grads_to_mat (sample_linear 3 2 true) [ramp [2; 3]]
  = Raise ValueError
  /\ LinearLayer.grads_to_mat (sample_linear 3 2 true)
       [ramp [2; 3]; ramp [5]] = Raise RuntimeError.
Proof.
  destruct (linear_grads_to_mat_errors (sample_linear 3 2 true))
    as [H1 [H2 _]].
  split.
  - apply (H1 eq_refl). simpl. lia.
  - apply (H2 eq_refl (ramp [2; 3]) (ramp [5]) 2 5 3); try reflexivity.
    lia.
Defined.

(** X9 at a matrix without columns. *)
Lemma linear_mat_to_grads_errors_witness :
  LinearLayer.mat_to_grads (sample_linear 3 2 true) (ramp [2; 0])
  = Raise IndexError.
Proof.
  apply (proj1 (linear_mat_to_grads_errors (sample_linear 3 2 true))
           eq_refl (ramp [2; 0]) 2).
  reflexivity.
Defined.

(** X10 at a matrix of shape (2, 4). *)
Lemma linear_grads_to_mat_mat_to_grads_witness :
  exists w b m',
    LinearLayer.mat_to_grads (sample_linear 3 2 true) (ramp [2; 4])
    = Ok [w; b] /\
    LinearLayer.grads_to_mat (sample_linear 3 2 true) [w; b] = Ok m' /\
    tensor_eqv m' (ramp [2; 4]).
Proof.
  apply linear_grads_to_mat_mat_to_grads with (o := 2) (f := 3);
    reflexivity.
Defined.

(** ** The hooks of the linear layer *)

Lemma nth_seq_self {A : Type} (l : list A) (d : A) :
  map (fun p => nth p l d) (seq 0 (length l)) = l.
Proof.
  induction l as [|a l IH]; [reflexivity|].
  cbn [length seq map nth]. f_equal.
  rewrite <- seq_shift, map_map. exact IH.
Qed.

Section LinearHooks.
Context {T : Type} `{Scalar T} `{KfacEnv T}.

(** [x.reshape(-1, f)] on a contiguous tensor whose last axis has size
    [f]: every other axis is merged into the rows. *)
Lemma reshape_rows (x : Tensor T) (lead : list nat) (f : nat) :
  shape x = lead ++ [f] -> wf x -> is_contiguous x = true -> 0 < f ->
  exists a,
    reshape [(-1)%Z; Z.of_nat f] x = Ok a /\
    shape a = [prod_list lead; f] /\ elements a = elements x.
Proof.
  intros Hsh Hwf Hc Hf. unfold reshape. rewrite infer_size_hole_f.
  assert (Hn : numel x = prod_list lead * f).
  { unfold numel. rewrite Hsh, prod_list_app. simpl. lia. }
  rewrite Hn, Nat.Div0.mod_mul, Nat.div_mul by lia.
  destruct (Nat.ltb_spec 0 f) as [_|Hle]; [|lia].
  cbn [andb Nat.eqb bind]. unfold view_strides. rewrite Hc.
  eexists. split; [reflexivity|]. split; [reflexivity|].
  rewrite elements_contiguous
    by (apply wf_view_result || apply is_contiguous_view_result).
  rewrite elements_contiguous with (t := x) by assumption.
  cbn [storage offset]. f_equal. f_equal. rewrite Hn.
  unfold numel. cbn [shape prod_list fold_right]. lia.
Qed.

(** X11.  The forward hook of a linear layer set up by [__init__], on a
    contiguous input whose last axis has the [in_features] of the module:
    the capture is a matrix with [in_features] columns and one row for
    every position of the other axes, holding the entries of the input in
    their order; the backward hook does the same with [out_features]. *)
Theorem linear_hooks_flatten (m : LinearLayer.Linear) (a s : Cov)
    (act sen x : Tensor T) (rest : list (Tensor T)) (lead : list nat) :
  wf x -> is_contiguous x = true ->
  (shape x = lead ++ [LinearLayer.in_features m] ->
   0 < LinearLayer.in_features m ->
   exists self',
     LinearLayer.forward_hook (LinearLayer.init m a s act sen) (x :: rest)
     = Ok self' /\
     shape (LinearLayer._activations self')
     = [prod_list lead; LinearLayer.in_features m] /\
     elements (LinearLayer._activations self') = elements x /\
     LinearLayer._sensitivities self' = sen)
  /\
  (shape x = lead ++ [LinearLayer.out_features m] ->
   0 < LinearLayer.out_features m ->
   exists self',
     LinearLayer.backward_hook (LinearLayer.init m a s act sen) (x :: rest)
     = Ok self' /\
     shape (LinearLayer._sensitivities self')
     = [prod_list lead; LinearLayer.out_features m] /\
     elements (LinearLayer._sensitivities self') = elements x /\
     LinearLayer._activations self' = act).
Proof.
  intros Hwf Hc. split.
  - intros Hsh Hf.
    pose proof reshape_rows as Hr.
    specialize Hr with (1 := Hsh) (2 := Hwf) (3 := Hc) (4 := Hf).
    destruct Hr as [a' [Ha' [Hsa Hea]]].
    unfold LinearLayer.forward_hook. cbn [getitem nth_error bind].
    unfold LinearLayer.init, LinearLayer.has_bias.
    cbn [LinearLayer.base LinearLayer.module _in_features].
    replace (Z.of_nat
               (LinearLayer.in_features m +
                match LinearLayer.bias m with
                | Some _ => 1
                | None => 0
                end) -
             (if match LinearLayer.bias m with
                 | Some _ => true
                 | None => false
                 end then 1 else 0))%Z
      with (Z.of_nat (LinearLayer.in_features m))
      by (destruct (LinearLayer.bias m); lia).
    rewrite Ha'. cbn [bind]. eexists. split; [reflexivity|].
    cbn [LinearLayer._activations LinearLayer._sensitivities]. auto.
  - intros Hsh Hf.
    pose proof reshape_rows as Hr.
    specialize Hr with (1 := Hsh) (2 := Hwf) (3 := Hc) (4 := Hf).
    destruct Hr as [s' [Hs' [Hss Hes]]].
    unfold LinearLayer.backward_hook. cbn [getitem nth_error bind].
    unfold LinearLayer.init.
    cbn [LinearLayer.base _out_features].
    rewrite Hs'. cbn [bind]. eexists. split; [reflexivity|].
    cbn [LinearLayer._activations LinearLayer._sensitivities]. auto.
Qed.

(** X12.  The forward hook of a linear layer raises RuntimeError when
    the number of entries of the input is not a multiple of the
    [in_features] of the module, and IndexError when it is handed no
    input. *)
Theorem linear_forward_hook_errors (m : LinearLayer.Linear) (a s : Cov)
    (act sen : Tensor T) :
  LinearLayer.forward_hook (LinearLayer.init m a s act sen) []
  = Raise IndexError
  /\
  (forall (x : Tensor T) rest,
      numel x mod LinearLayer.in_features m <> 0 ->
      LinearLayer.forward_hook (LinearLayer.init m a s act sen) (x :: rest)
      = Raise RuntimeError).
Proof.
  split; [reflexivity|].
  intros x rest Hmod.
  unfold LinearLayer.forward_hook. cbn [getitem nth_error bind].
  unfold LinearLayer.init, LinearLayer.has_bias.
  cbn [LinearLayer.base LinearLayer.module _in_features].
  replace (Z.of_nat
             (LinearLayer.in_features m +
              match LinearLayer.bias m with
              | Some _ => 1
              | None => 0
              end) -
           (if match LinearLayer.bias m with
               | Some _ => true
               | None => false
               end then 1 else 0))%Z
    with (Z.of_nat (LinearLayer.in_features m))
    by (destruct (LinearLayer.bias m); lia).
  unfold reshape. rewrite infer_size_hole_f.
  destruct (Nat.eqb_spec (numel x mod LinearLayer.in_features m) 0)
    as [He|_]; [contradiction|].
  rewrite andb_false_r. reflexivity.
Qed.
End LinearHooks.

(** ** Viewing the columns of a strided matrix as several axes *)

Lemma contiguous_strides_snoc (l : list nat) (v : nat) :
  contiguous_strides (l ++ [v])
  = map (fun s => s * v) (contiguous_strides l) ++ [1].
Proof.
  induction l as [|n l IH]; [reflexivity|].
  cbn [app contiguous_strides map]. rewrite IH. f_equal.
  rewrite prod_list_app. simpl. lia.
Qed.

Lemma prod_list_rev (l : list nat) : prod_list (rev l) = prod_list l.
Proof.
  induction l as [|n l IH]; [reflexivity|].
  cbn [rev]. rewrite prod_list_app, IH. simpl. fold (prod_list l). lia.
Qed.

Lemma dot_map_scale (idx st : list nat) (a : nat) :
  dot idx (map (fun s => 1 * s * a) st) = dot idx st * a.
Proof.
  revert st. induction idx as [|i idx IH]; intros [|s st]; simpl;
    try lia.
  rewrite IH. lia.
Qed.

Section ColumnViews.
Context {T : Type} `{Scalar T}.

Lemma infer_scan_nat (l : list nat) :
  infer_scan (map Z.of_nat l) = Ok (prod_list l, 0).
Proof.
  induction l as [|n l IH]; [reflexivity|].
  cbn [map infer_scan]. rewrite IH. cbn [bind].
  destruct (Z.eqb_spec (Z.of_nat n) (-1)) as [Hn|_]; [lia|].
  destruct (Z.ltb_spec (Z.of_nat n) 0) as [Hn|_]; [lia|].
  rewrite Nat2Z.id. reflexivity.
Qed.

Lemma infer_size_nat (l : list nat) (n : nat) :
  infer_size (map Z.of_nat l) n =
  if n =? prod_list l then Ok l else Raise RuntimeError.
Proof.
  unfold infer_size. rewrite infer_scan_nat. cbn [bind].
  destruct (n =? prod_list l); [|reflexivity].
  f_equal. rewrite map_map. rewrite <- (map_id l) at 2.
  apply map_ext. intros a. apply Nat2Z.id.
Qed.

(** One run of [view_chunk]: the axes of [r] are taken as long as they
    have not filled the chunk, and so are axes of size 1. *)
Lemma view_chunk_run (r : list nat) :
  forall (vn : nat) (acc rest : list nat) (tn base : nat),
    vn * prod_list r = tn -> 0 < tn ->
    (rest = [] \/ exists v rest', rest = v :: rest' /\ v <> 1) ->
    view_chunk (r ++ rest) vn tn base acc
    = (rest, tn,
       map (fun s => vn * s * base) (contiguous_strides (rev r)) ++ acc).
Proof.
  induction r as [|v r IH]; intros vn acc rest tn base Hp Ht Hrest.
  - simpl in Hp. rewrite Nat.mul_1_r in Hp. subst vn. cbn [app rev
      contiguous_strides map].
    destruct Hrest as [->|[v [rest' [-> Hv]]]]; [reflexivity|].
    cbn [view_chunk]. rewrite Nat.ltb_irrefl.
    destruct (Nat.eqb_spec v 1) as [He|_]; [contradiction|reflexivity].
  - cbn [app view_chunk]. cbn [prod_list fold_right] in Hp.
    fold (prod_list r) in Hp.
    assert (Hc : (vn <? tn) || (v =? 1) = true).
    { destruct (Nat.ltb_spec vn tn) as [_|Hge]; [reflexivity|].
      destruct (Nat.eqb_spec v 1) as [_|Hne]; [reflexivity|].
      exfalso. destruct (v * prod_list r) as [|[|q]] eqn:Hq.
      - lia.
      - destruct v as [|[|v']]; simpl in Hq; lia.
      - nia. }
    rewrite Hc. rewrite IH with (tn := tn) by (auto; lia).
    f_equal. cbn [rev]. rewrite contiguous_strides_snoc.
    rewrite map_app, map_map, <- app_assoc. cbn [map app].
    f_equal; [|f_equal; lia].
    apply map_ext. intros s. lia.
Qed.

(** [w.view(o, inner...)] for a matrix [w] of shape (o, f), whatever its
    strides, when the sizes of [inner] multiply to [f]: the view exists,
    and the entry at [(i, idx)] is the entry of [w] in row [i] at the
    row-major position of [idx]. *)
Lemma view_matrix_columns (w : Tensor T) (o f : nat) (inner : list nat) :
  shape w = [o; f] -> wf w -> prod_list inner = f ->
  exists v,
    view (map Z.of_nat (o :: inner)) w = Ok v /\
    shape v = o :: inner /\
    (forall i idx, i < o -> valid_index inner idx ->
        tget v (i :: idx)
        = tget w [i; dot idx (contiguous_strides inner)]).
Proof.
  intros Hsh Hwf Hf.
  pose proof Hwf as Hwf'. unfold wf in Hwf'. rewrite Hsh in Hwf'.
  destruct (strides w) as [|s0 [|s1 [|? ?]]] eqn:Hst; try discriminate.
  unfold view. rewrite infer_size_nat.
  assert (Hn : numel w = prod_list (o :: inner)).
  { unfold numel. rewrite Hsh. simpl. fold (prod_list inner). lia. }
  rewrite Hn, Nat.eqb_refl. cbn [bind].
  assert (Hst' : exists st,
             view_strides w (o :: inner) = Some st /\
             forall i idx, i < o -> valid_index inner idx ->
               dot (i :: idx) st
               = i * s0 + dot idx (contiguous_strides inner) * s1).
  { unfold view_strides.
    destruct (is_contiguous w) eqn:Hc.
    - eexists. split; [reflexivity|]. intros i idx Hi Hv.
      pose proof (dot_bound _ _ Hv) as Hq. rewrite Hf in Hq.
      assert (Hvw : valid_index (shape w)
                      [i; dot idx (contiguous_strides inner)])
        by (rewrite Hsh; cbn [valid_index]; auto).
      unfold is_contiguous in Hc. apply orb_true_iff in Hc.
      destruct Hc as [Hz|Hc].
      { apply Nat.eqb_eq in Hz. apply valid_index_prod_pos in Hvw.
        unfold numel in Hz. lia. }
      pose proof (dot_contiguous_from (shape w) (strides w) _ Hwf Hc Hvw)
        as Hd.
      rewrite Hst, Hsh in Hd. cbn [dot contiguous_strides prod_list
        fold_right] in Hd.
      cbn [dot contiguous_strides]. rewrite Hf. lia.
    - unfold is_contiguous in Hc. apply orb_false_iff in Hc.
      destruct Hc as [Hz Hc]. apply Nat.eqb_neq in Hz.
      unfold numel in Hz. rewrite Hsh in Hz.
      cbn [prod_list fold_right] in Hz.
      assert (Ho : 0 < o) by nia. assert (Hf0 : 0 < f) by nia.
      rewrite Hsh, Hst. cbn [combine rev app compute_stride].
      rewrite !Nat.mul_1_l.
      destruct (negb (o =? 1) && negb (s0 =? f * s1)) eqn:Hce.
      + apply andb_true_iff in Hce. destruct Hce as [Ho1 _].
        apply negb_true_iff, Nat.eqb_neq in Ho1.
        rewrite view_chunk_run with (tn := f)
          by (rewrite ?prod_list_rev; try lia; right; eauto).
        cbv beta iota. rewrite Nat.eqb_refl. cbn [view_chunk].
        destruct (Nat.ltb_spec 1 o) as [_|Hle]; [|lia].
        cbn [orb]. cbv beta iota.
        rewrite !Nat.mul_1_l, Nat.eqb_refl. cbn [length Nat.eqb].
        eexists. split; [reflexivity|].
        intros i idx Hi Hv. rewrite rev_involutive, app_nil_r.
        cbn [dot]. rewrite dot_map_scale. lia.
      + rewrite <- (app_nil_r (rev inner ++ [o])).
        change (rev inner ++ [o]) with (rev (o :: inner)).
        rewrite view_chunk_run with (tn := f * o)
          by (rewrite ?prod_list_rev; cbn [prod_list fold_right];
              try (fold (prod_list inner)); try nia; left; reflexivity).
        cbv beta iota. rewrite Nat.eqb_refl. cbn [length Nat.eqb].
        eexists. split; [reflexivity|].
        intros i idx Hi Hv. rewrite rev_involutive, app_nil_r.
        rewrite dot_map_scale. cbn [dot contiguous_strides]. rewrite Hf.
        apply andb_false_iff in Hce. destruct Hce as [Ho1|Hs0].
        * apply negb_false_iff, Nat.eqb_eq in Ho1.
          assert (i = 0) by lia. subst i. lia.
        * apply negb_false_iff, Nat.eqb_eq in Hs0. subst s0. lia. }
  destruct Hst' as [st [Hvs Hdot]]. rewrite Hvs.
  eexists. split; [reflexivity|]. split; [reflexivity|].
  intros i idx Hi Hv. unfold tget. cbn [storage offset strides].
  rewrite Hst, Hdot by assumption. cbn [dot]. f_equal. lia.
Qed.
End ColumnViews.

(** ** [multiply_preconditioner] of a convolution with bias *)

Section ConvBiasPath.
Context {T : Type} `{Scalar T} `{KfacEnv T}.

(** The gradient matrix of a convolution with bias, entry by entry. *)
Lemma conv_mat_grads_entries (self : ConvLayer.t) (w b : Tensor T)
    (o c : nat) (ks : list nat) :
  ConvLayer.has_bias self = true ->
  shape w = o :: c :: ks -> wf w -> is_contiguous w = true ->
  shape b = [o] -> wf b -> 0 < o ->
  exists m,
    ConvLayer.mat_grads self [w; b] = Ok m /\
    shape m = [o; c * prod_list ks + 1] /\
    (forall i idx, i < o -> valid_index (c :: ks) idx ->
        tget m [i; dot idx (contiguous_strides (c :: ks))]
        = tget w (i :: idx)) /\
    (forall i, i < o -> tget m [i; c * prod_list ks] = tget b [i]).
Proof.
  intros Hb Hw Hwfw Hc Hbs Hwf Ho. unfold ConvLayer.mat_grads. rewrite Hb.
  cbn [unpack2 bind]. unfold shape_at. rewrite Hw. cbn [nth_error bind].
  unfold view. rewrite infer_size_o_hole.
  assert (Hn : numel w = (c * prod_list ks) * o).
  { unfold numel. rewrite Hw. cbn [prod_list fold_right].
    fold (prod_list ks). lia. }
  rewrite Hn, Nat.Div0.mod_mul, Nat.div_mul by lia.
  destruct (Nat.ltb_spec 0 o) as [_|Hle]; [|lia].
  cbn [andb Nat.eqb bind]. unfold view_strides. rewrite Hc. cbn [bind].
  pose proof cat_bias_column as Hcat.
  specialize (Hcat (mkTensor (storage w) (offset w) [o; c * prod_list ks]
                      (contiguous_strides [o; c * prod_list ks]))
                   b o (c * prod_list ks) eq_refl Hbs Hwf).
  destruct Hcat as [m [Hm [Hsm [_ [_ [Hgw Hgb]]]]]].
  exists m. split; [exact Hm|]. split; [exact Hsm|].
  split; [|exact Hgb].
  intros i idx Hi Hv.
  pose proof (dot_bound _ _ Hv) as Hq.
  cbn [prod_list fold_right] in Hq. fold (prod_list ks) in Hq.
  rewrite Hgw by assumption.
  rewrite tget_contiguous_pos with (t := w);
    [|assumption|assumption|rewrite Hw; cbn [valid_index]; auto].
  unfold tget. cbn [storage offset strides]. rewrite Hw.
  f_equal. f_equal.
  cbn [dot contiguous_strides prod_list fold_right].
  fold (prod_list ks). lia.
Qed.

(** The split of a matrix with one column more than the kernel gradient
    has entries in a row. *)
Lemma conv_split_grads_bias (self : ConvLayer.t) (g ng : Tensor T)
    (rest : list (Tensor T)) (o : nat) (inner : list nat) :
  ConvLayer.has_bias self = true ->
  shape ng = [o; prod_list inner + 1] -> wf ng ->
  shape g = o :: inner ->
  exists w b,
    ConvLayer.split_grads self (g :: rest) ng = Ok [w; b] /\
    shape w = shape g /\ shape b = [o] /\
    (forall i idx, i < o -> valid_index inner idx ->
        tget w (i :: idx)
        = tget ng [i; dot idx (contiguous_strides inner)]) /\
    (forall i, i < o -> tget b [i] = tget ng [i; prod_list inner]).
Proof.
  intros Hb Hng Hwf Hg. rewrite Nat.add_1_r in Hng.
  pose proof split_last_column_wf as Hsplit.
  specialize Hsplit with (1 := Hng) (2 := Hwf).
  destruct Hsplit as [w0 [b [Hw0 [Hbl [Hsw [Hsb [_ [Hgw Hgb]]]]]]]].
  assert (Hwf0 : wf w0).
  { unfold cols_but_last in Hw0. rewrite Hng in Hw0.
    injection Hw0 as <-. unfold wf in *. cbn [shape strides].
    rewrite Hwf, Hng. reflexivity. }
  pose proof view_matrix_columns as Hview.
  specialize Hview with (1 := Hsw) (2 := Hwf0) (3 := eq_refl).
  destruct Hview as [w [Hw [Hshw Hget]]].
  exists w, b. unfold ConvLayer.split_grads. rewrite Hb, Hw0.
  cbn [bind getitem nth_error]. unfold view_as. rewrite Hg, Hw.
  cbn [bind]. rewrite Hbl. cbn [bind].
  split; [reflexivity|]. split; [exact Hshw|]. split; [exact Hsb|].
  split; [|exact Hgb].
  intros i idx Hi Hv. rewrite Hget by assumption.
  apply Hgw; [exact Hi|]. apply dot_bound, Hv.
Qed.

(** X13.  A convolution with bias, a contiguous kernel gradient of shape
    (o, c, kernel sizes) and a bias gradient of shape (o), covariance
    inverses that are square matrices of the sizes of the two factors:
    [multiply_preconditioner] returns two gradients of the shapes of the
    two it was given, and their entries are the entries of
    [sen_cov_inverse @ mat_grads @ act_cov_inverse], divided by the number
    of locations, with column [ch * prod(kernel) + offsets] of the product
    for the kernel entry [(ch, offsets)] and the last column for the
    bias. *)
Theorem conv_multiply_preconditioner_with_bias
    (self : ConvLayer.t) (w b : Tensor T) (damping a_damp s_damp : T)
    (act_inv sen_inv : Tensor T) (locations o c : nat) (ks : list nat) :
  ConvLayer.has_bias self = true ->
  shape_at (ConvLayer._activations self) 1 = Ok locations ->
  compute_damping (ConvLayer.base self) damping locations
  = Ok (a_damp, s_damp) ->
  inverse_by_cholesky
    (value (_activations_cov (ConvLayer.base self))) a_damp = Ok act_inv ->
  inverse_by_cholesky
    (value (_sensitivities_cov (ConvLayer.base self))) s_damp
  = Ok sen_inv ->
  shape act_inv = [c * prod_list ks + 1; c * prod_list ks + 1] ->
  shape sen_inv = [o; o] ->
  shape w = o :: c :: ks -> wf w -> is_contiguous w = true ->
  shape b = [o] -> wf b -> 0 < o ->
  exists m q w' b',
    ConvLayer.mat_grads self [w; b] = Ok m /\
    (forall i idx, i < o -> valid_index (c :: ks) idx ->
        tget m [i; dot idx (contiguous_strides (c :: ks))]
        = tget w (i :: idx)) /\
    (forall i, i < o -> tget m [i; c * prod_list ks] = tget b [i]) /\
    (p <- matmul sen_inv m ;; matmul p act_inv) = Ok q /\
    ConvLayer.multiply_preconditioner self [w; b] damping = Ok [w'; b'] /\
    shape w' = shape w /\ shape b' = shape b /\
    (forall i idx, i < o -> valid_index (c :: ks) idx ->
        tget w' (i :: idx)
        = s_div (tget q [i; dot idx (contiguous_strides (c :: ks))])
            (s_of_nat locations)) /\
    (forall i, i < o ->
        tget b' [i]
        = s_div (tget q [i; c * prod_list ks]) (s_of_nat locations)).
Proof.
  intros Hb Hl Hd Ha Hs Hsa Hss Hw Hwfw Hc Hbs Hwfb Ho.
  pose proof conv_mat_grads_entries as Hmat.
  specialize Hmat with (1 := Hb) (2 := Hw) (3 := Hwfw) (4 := Hc)
                       (5 := Hbs) (6 := Hwfb) (7 := Ho).
  destruct Hmat as [m [Hm [Hsm [Hmw Hmb]]]].
  pose proof matmul_shape as Hp.
  specialize Hp with (1 := Hss) (2 := Hsm). destruct Hp as [p [Hp Hsp]].
  pose proof matmul_shape as Hq.
  specialize Hq with (1 := Hsp) (2 := Hsa). destruct Hq as [q [Hq Hsq]].
  set (f := c * prod_list ks) in *.
  assert (Hf : prod_list (c :: ks) = f) by reflexivity.
  pose proof conv_split_grads_bias as Hsplit.
  specialize (Hsplit self w (div_int q locations) [b] o (c :: ks) Hb).
  rewrite Hf in Hsplit.
  specialize (Hsplit Hsq (wf_from_fun _ _) Hw).
  destruct Hsplit as [w' [b' [Hsp' [Hsw' [Hsb' [Hgw' Hgb']]]]]].
  exists m, q, w', b'.
  split; [exact Hm|]. split; [exact Hmw|]. split; [exact Hmb|].
  split; [rewrite Hp; cbn [bind]; exact Hq|].
  split.
  { unfold ConvLayer.multiply_preconditioner.
    rewrite Hl. cbn [bind]. rewrite Hd. cbn [bind].
    rewrite Ha, Hs. cbn [bind]. rewrite Hm. cbn [bind].
    unfold ConvLayer.nat_grads. rewrite Hl. cbn [bind].
    rewrite Hp. cbn [bind]. rewrite Hq. cbn [bind]. exact Hsp'. }
  split; [exact Hsw'|]. split; [congruence|]. split.
  - intros i idx Hi Hv. rewrite Hgw' by assumption.
    pose proof (dot_bound _ _ Hv) as Hlt. rewrite Hf in Hlt.
    unfold div_int. rewrite tget_from_fun; [reflexivity|].
    rewrite Hsq. cbn [valid_index]. lia.
  - intros i Hi. rewrite Hgb' by assumption.
    unfold div_int. rewrite tget_from_fun; [reflexivity|].
    rewrite Hsq. cbn [valid_index]. lia.
Qed.

(** X14.  For a layer set up by [__init__] over a module with bias whose
    kernel [module.weight] has [cg] input channels for every output
    channel (in torch, [in_channels] over the number of groups), the
    gradient matrix assembled from gradients of the shapes of [self.vars]
    has [out_features] rows and [cg * prod kernel_size + 1] columns.
    That is (out_features, in_features), the sizes the base class was
    told, exactly when [cg * prod kernel_size] is
    [in_channels * prod kernel_size], as for a convolution that is not
    grouped.  Otherwise the product with an inverse activation covariance
    of [in_features] rows raises, and [multiply_preconditioner] with
    it. *)
Theorem conv_init_mat_grads_shape (m : ConvLayer.Conv) (a s : Cov)
    (act sen w b mb : Tensor T) (cg : nat) :
  ConvLayer.bias m = Some mb ->
  shape (ConvLayer.weight m)
  = ConvLayer.out_channels m :: cg :: ConvLayer.kernel_size m ->
  shape mb = [ConvLayer.out_channels m] ->
  map (@shape T) [w; b]
  = map (@shape T) (ConvLayer.vars (ConvLayer.init m a s act sen)) ->
  is_contiguous w = true -> wf b ->
  0 < ConvLayer.out_channels m ->
  exists mat,
    ConvLayer.mat_grads (ConvLayer.init m a s act sen) [w; b] = Ok mat /\
    shape mat
    = [_out_features (ConvLayer.base (ConvLayer.init m a s act sen));
       cg * prod_list (ConvLayer.kernel_size m) + 1] /\
    (shape mat
     = [_out_features (ConvLayer.base (ConvLayer.init m a s act sen));
        _in_features (ConvLayer.base (ConvLayer.init m a s act sen))]
     <-> cg * prod_list (ConvLayer.kernel_size m)
         = ConvLayer.in_channels m * prod_list (ConvLayer.kernel_size m)) /\
    (cg * prod_list (ConvLayer.kernel_size m)
     <> ConvLayer.in_channels m * prod_list (ConvLayer.kernel_size m) ->
     forall (damping a_damp s_damp : T) (act_inv sen_inv : Tensor T)
            (locations : nat),
       shape_at act 1 = Ok locations ->
       compute_damping (ConvLayer.base (ConvLayer.init m a s act sen))
         damping locations = Ok (a_damp, s_damp) ->
       inverse_by_cholesky (value a) a_damp = Ok act_inv ->
       inverse_by_cholesky (value s) s_damp = Ok sen_inv ->
       shape act_inv
       = [_in_features (ConvLayer.base (ConvLayer.init m a s act sen));
          _in_features (ConvLayer.base (ConvLayer.init m a s act sen))] ->
       shape sen_inv
       = [_out_features (ConvLayer.base (ConvLayer.init m a s act sen));
          _out_features (ConvLayer.base (ConvLayer.init m a s act sen))] ->
       ConvLayer.multiply_preconditioner (ConvLayer.init m a s act sen)
         [w; b] damping = Raise RuntimeError).
Proof.
  intros Hmb Hwm Hbm Hsh Hc Hwf Ho.
  assert (Hb : ConvLayer.has_bias (ConvLayer.init m a s act sen) = true).
  { unfold ConvLayer.has_bias, ConvLayer.has_bias_of.
    cbn [ConvLayer.init ConvLayer.module]. rewrite Hmb. reflexivity. }
  unfold ConvLayer.vars in Hsh. cbn [ConvLayer.init ConvLayer.module] in Hsh.
  rewrite Hmb in Hsh. cbn [map] in Hsh.
  injection Hsh as Hw Hbs. rewrite Hwm in Hw. rewrite Hbm in Hbs.
  pose proof conv_mat_grads_bias as Hmat.
  specialize (Hmat (ConvLayer.init m a s act sen) w b _ _ _ Hb Hw Hc Hbs
                   Hwf Ho).
  destruct Hmat as [mat [Hm [Hsm _]]].
  assert (Hin : _in_features (ConvLayer.base (ConvLayer.init m a s act sen))
                = prod_list (ConvLayer.kernel_size m)
                  * ConvLayer.in_channels m + 1).
  { cbn [ConvLayer.init ConvLayer.base _in_features].
    unfold ConvLayer.init_in_features, ConvLayer.has_bias_of.
    rewrite Hmb. reflexivity. }
  exists mat. split; [exact Hm|]. split; [exact Hsm|]. split.
  - rewrite Hsm, Hin. split.
    + intros Heq. injection Heq as Heq. lia.
    + intros Heq. f_equal. f_equal. lia.
  - intros Hne damping a_damp s_damp act_inv sen_inv locations
           Hl Hd Ha Hs Hsa Hss.
    cbn [ConvLayer.init ConvLayer.base _out_features] in Hss.
    pose proof matmul_shape as Hp.
    specialize Hp with (1 := Hss) (2 := Hsm). destruct Hp as [p [Hp Hsp]].
    unfold ConvLayer.multiply_preconditioner.
    cbn [ConvLayer.init ConvLayer._activations] in *.
    rewrite Hl. cbn [bind]. rewrite Hd. cbn [bind].
    change (_activations_cov
              (ConvLayer.base (ConvLayer.init m a s act sen))) with a.
    change (_sensitivities_cov
              (ConvLayer.base (ConvLayer.init m a s act sen))) with s.
    rewrite Ha, Hs. cbn [bind]. rewrite Hm. cbn [bind].
    unfold ConvLayer.nat_grads.
    change (ConvLayer._activations (ConvLayer.init m a s act sen)) with act.
    rewrite Hl. cbn [bind]. rewrite Hp. cbn [bind].
    unfold matmul. rewrite Hsp, Hsa.
    cbn [ConvLayer.base _in_features] in Hin. rewrite Hin.
    destruct (Nat.eqb_spec (cg * prod_list (ConvLayer.kernel_size m) + 1)
                (prod_list (ConvLayer.kernel_size m)
                 * ConvLayer.in_channels m + 1)) as [Heq|_];
      [exfalso; lia|].
    reflexivity.
Qed.

(** X15.  For a layer set up by [__init__] over a convolution with one
    spatial axis and no padding, the forward hook stores patches whose
    feature axis, with the bias column when there is a bias, has the
    [in_features] the base class was told; the other fields stay. *)
Theorem conv_init_forward_hook_features (m : ConvLayer.Conv) (a s0 : Cov)
    (act sen x : Tensor T) (rest : list (Tensor T)) (b w k s : nat) :
  ConvLayer.kernel_size m = [k] -> ConvLayer.stride m = [s] ->
  sum_list (ConvLayer.padding m) = 0 ->
  shape x = [b; ConvLayer.in_channels m; w] -> wf x ->
  k <= w -> 0 < s -> 0 < b ->
  exists self' f,
    ConvLayer.forward_hook (ConvLayer.init m a s0 act sen) (x :: rest)
    = Ok self' /\
    shape (ConvLayer._activations self') = [b; (w - k) / s + 1; f] /\
    f + (if ConvLayer.has_bias self' then 1 else 0)
    = _in_features (ConvLayer.base self') /\
    ConvLayer._sensitivities self' = sen /\
    ConvLayer.base self' = ConvLayer.base (ConvLayer.init m a s0 act sen).
Proof.
  intros Hk Hs Hp Hsh Hwf Hkw Hs0 Hb.
  assert (Hn : ConvLayer.n_dim (ConvLayer.init m a s0 act sen) = 1).
  { cbn [ConvLayer.init ConvLayer.n_dim]. unfold ConvLayer.init_n_dim.
    rewrite Hk. reflexivity. }
  pose proof extract_patches_1d_order as Ho.
  specialize (Ho (ConvLayer.init m a s0 act sen) x x b
                 (ConvLayer.in_channels m) w k s
                 (pad_input_zero _ x Hp) Hsh Hwf Hn Hk Hs Hkw Hs0 Hb).
  destruct Ho as [out [Hout [Hso _]]].
  unfold ConvLayer.forward_hook. cbn [getitem nth_error bind].
  rewrite Hout. cbn [bind].
  eexists. exists (ConvLayer.in_channels m * k).
  split; [reflexivity|].
  cbn [ConvLayer._activations ConvLayer._sensitivities ConvLayer.base
       ConvLayer.has_bias ConvLayer.module ConvLayer.init _in_features].
  split; [exact Hso|]. split; [|split; reflexivity].
  unfold ConvLayer.init_in_features, ConvLayer.has_bias.
  cbn [ConvLayer.module]. rewrite Hk.
  cbn [prod_list fold_right]. lia.
Qed.
End ConvBiasPath.

Section HelperErrors.
Context {T : Type} `{Scalar T} `{KfacEnv T}.

(** X16.  The gradient matrix of a convolution with bias wants exactly
    two gradients (ValueError otherwise); a kernel gradient without axes
    raises IndexError, and one without output channels RuntimeError, as
    the size [-1] of its [view] cannot be inferred. *)
Theorem conv_mat_grads_errors (self : ConvLayer.t) :
  ConvLayer.has_bias self = true ->
  (forall grads, length grads <> 2 ->
     ConvLayer.mat_grads self grads = Raise ValueError)
  /\ (forall w b : Tensor T, shape w = [] ->
        ConvLayer.mat_grads self [w; b] = Raise IndexError)
  /\ (forall (w b : Tensor T) rest, shape w = 0 :: rest ->
        ConvLayer.mat_grads self [w; b] = Raise RuntimeError).
Proof.
  intros Hb. unfold ConvLayer.mat_grads. rewrite Hb. repeat apply conj.
  - intros grads Hl.
    destruct grads as [|a [|b [|c ?]]]; simpl in Hl; try reflexivity. lia.
  - intros w b Hw. cbn [unpack2 bind]. unfold shape_at. rewrite Hw.
    reflexivity.
  - intros w b rest Hw. cbn [unpack2 bind]. unfold shape_at. rewrite Hw.
    cbn [nth_error bind]. unfold view.
    change (Z.of_nat 0) with 0%Z. rewrite (infer_size_o_hole 0).
    reflexivity.
Qed.

(** X17.  A failure of one of the helpers is what
    [multiply_preconditioner] raises, and the helpers are called in the
    order damping, inverse of the activation covariance, inverse of the
    sensitivity covariance: when the first inverse fails the second one
    is not asked for, and nothing is retried. *)
Theorem conv_multiply_preconditioner_helper_errors
    (self : ConvLayer.t) (grads : list (Tensor T)) (damping : T)
    (locations : nat) (e : PyErr) :
  shape_at (ConvLayer._activations self) 1 = Ok locations ->
  (compute_damping (ConvLayer.base self) damping locations = Raise e ->
   ConvLayer.multiply_preconditioner self grads damping = Raise e)
  /\
  (forall a_damp s_damp,
      compute_damping (ConvLayer.base self) damping locations
      = Ok (a_damp, s_damp) ->
      inverse_by_cholesky
        (value (_activations_cov (ConvLayer.base self))) a_damp = Raise e ->
      ConvLayer.multiply_preconditioner self grads damping = Raise e)
  /\
  (forall a_damp s_damp act_inv,
      compute_damping (ConvLayer.base self) damping locations
      = Ok (a_damp, s_damp) ->
      inverse_by_cholesky
        (value (_activations_cov (ConvLayer.base self))) a_damp
      = Ok act_inv ->
      inverse_by_cholesky
        (value (_sensitivities_cov (ConvLayer.base self))) s_damp
      = Raise e ->
      ConvLayer.multiply_preconditioner self grads damping = Raise e).
Proof.
  intros Hl. unfold ConvLayer.multiply_preconditioner. rewrite Hl.
  cbn [bind]. repeat apply conj.
  - intros Hd. rewrite Hd. reflexivity.
  - intros a_damp s_damp Hd Ha. rewrite Hd. cbn [bind]. rewrite Ha.
    reflexivity.
  - intros a_damp s_damp act_inv Hd Ha Hs. rewrite Hd. cbn [bind].
    rewrite Ha. cbn [bind]. rewrite Hs. reflexivity.
Qed.
End HelperErrors.

(** X11 at an input of shape (2, 4, 3). *)
Lemma linear_hooks_flatten_witness :
  exists self',
    LinearLayer.forward_hook
      (LinearLayer.init (H0 := sample_env)
         (LinearLayer.mkLinear 3 2 (ramp [2; 3]) (Some (ramp [2])))
         (ramp [1]) (ramp [1]) (ramp [1]) (ramp [1]))
      [ramp [2; 4; 3]] = Ok self' /\
    shape (LinearLayer._activations self') = [prod_list [2; 4]; 3] /\
    elements (LinearLayer._activations self') = elements (ramp [2; 4; 3]) /\
    LinearLayer._sensitivities self' = ramp [1].
Proof.
  destruct (@linear_hooks_flatten Z _ sample_env
              (LinearLayer.mkLinear 3 2 (ramp [2; 3]) (Some (ramp [2])))
              (ramp [1]) (ramp [1]) (ramp [1]) (ramp [1])
              (ramp [2; 4; 3]) [] [2; 4] eq_refl eq_refl) as [Hf _].
  apply Hf; [reflexivity|]. simpl. lia.
Defined.

(** X12 at an input of eight entries for three features. *)
Lemma linear_forward_hook_errors_witness :
  LinearLayer.forward_hook
    (LinearLayer.init (H0 := sample_env)
       (LinearLayer.mkLinear 3 2 (ramp [2; 3]) (Some (ramp [2])))
       (ramp [1]) (ramp [1]) (ramp [1]) (ramp [1]))
    [ramp [2; 4]] = Raise RuntimeError.
Proof.
  apply (proj2 (@linear_forward_hook_errors Z _ sample_env
                  (LinearLayer.mkLinear 3 2 (ramp [2; 3])
                     (Some (ramp [2])))
                  (ramp [1]) (ramp [1]) (ramp [1]) (ramp [1]))).
  simpl. lia.
Defined.

(** X13 at a sample layer with bias. *)
Lemma conv_multiply_preconditioner_with_bias_witness :
  exists m q w' b',
    ConvLayer.mat_grads (sample_conv_trained 2 2 [2] true 3)
      [ramp [2; 2; 2]; ramp [2]] = Ok m /\
    (forall i idx, i < 2 -> valid_index [2; 2] idx ->
        tget m [i; dot idx (contiguous_strides [2; 2])]
        = tget (ramp [2; 2; 2]) (i :: idx)) /\
    (forall i, i < 2 -> tget m [i; 2 * prod_list [2]] = tget (ramp [2]) [i])
    /\
    (p <- matmul (ramp [2; 2]) m ;; matmul p (ramp [5; 5])) = Ok q /\
    ConvLayer.multiply_preconditioner (sample_conv_trained 2 2 [2] true 3)
      [ramp [2; 2; 2]; ramp [2]] 1%Z = Ok [w'; b'] /\
    shape w' = shape (ramp [2; 2; 2]) /\ shape b' = shape (ramp [2]) /\
    (forall i idx, i < 2 -> valid_index [2; 2] idx ->
        tget w' (i :: idx)
        = s_div (tget q [i; dot idx (contiguous_strides [2; 2])])
            (s_of_nat 3)) /\
    (forall i, i < 2 ->
        tget b' [i] = s_div (tget q [i; 2 * prod_list [2]]) (s_of_nat 3)).
Proof.
  apply (@conv_multiply_preconditioner_with_bias Z _ sample_env
           (sample_conv_trained 2 2 [2] true 3)
           (ramp [2; 2; 2]) (ramp [2]) 1%Z 1%Z 1%Z
           (ramp [5; 5]) (ramp [2; 2]) 3 2 2 [2]);
    try reflexivity.
  lia.
Defined.

(** X14 at a module of two groups: two input channels, one for every
    output channel. *)
Lemma conv_init_mat_grads_shape_witness :
  exists mat,
    ConvLayer.mat_grads
      (ConvLayer.init (H0 := sample_env)
         (ConvLayer.mkConv 2 2 [2] [1] [0] "zeros" (ramp [2; 1; 2])
            (Some (ramp [2])))
         (ramp [5; 5]) (ramp [2; 2]) (ramp [2; 3; 4]) (ramp [2; 3; 2]))
      [ramp [2; 1; 2]; ramp [2]] = Ok mat /\
    shape mat = [2; 3] /\
    ConvLayer.multiply_preconditioner
      (ConvLayer.init (H0 := sample_env)
         (ConvLayer.mkConv 2 2 [2] [1] [0] "zeros" (ramp [2; 1; 2])
            (Some (ramp [2])))
         (ramp [5; 5]) (ramp [2; 2]) (ramp [2; 3; 4]) (ramp [2; 3; 2]))
      [ramp [2; 1; 2]; ramp [2]] 1%Z = Raise RuntimeError.
Proof.
  destruct (@conv_init_mat_grads_shape Z _ sample_env
              (ConvLayer.mkConv 2 2 [2] [1] [0] "zeros" (ramp [2; 1; 2])
                 (Some (ramp [2])))
              (ramp [5; 5]) (ramp [2; 2]) (ramp [2; 3; 4]) (ramp [2; 3; 2])
              (ramp [2; 1; 2]) (ramp [2]) (ramp [2]) 1
              eq_refl eq_refl eq_refl eq_refl eq_refl eq_refl)
    as [mat [Hm [Hs [_ Hr]]]].
  - simpl. lia.
  - exists mat. split; [exact Hm|]. split; [exact Hs|].
    apply (Hr ltac:(simpl; lia) 1%Z 1%Z 1%Z (ramp [5; 5]) (ramp [2; 2]) 3);
      reflexivity.
Defined.

(** X15 at a sample module and an input of width 3. *)
Lemma conv_init_forward_hook_features_witness :
  exists self' f,
    ConvLayer.forward_hook
      (ConvLayer.init (H0 := sample_env)
         (ConvLayer.mkConv 2 2 [2] [1] [0] "zeros" (ramp [2; 2; 2])
            (Some (ramp [2])))
         (ramp [1]) (ramp [1]) (ramp [1]) (ramp [1]))
      [ramp [1; 2; 3]] = Ok self' /\
    shape (ConvLayer._activations self') = [1; (3 - 2) / 1 + 1; f] /\
    f + (if ConvLayer.has_bias self' then 1 else 0)
    = _in_features (ConvLayer.base self') /\
    ConvLayer._sensitivities self' = ramp [1] /\
    ConvLayer.base self'
    = ConvLayer.base
        (ConvLayer.init (H0 := sample_env)
           (ConvLayer.mkConv 2 2 [2] [1] [0] "zeros" (ramp [2; 2; 2])
              (Some (ramp [2])))
           (ramp [1]) (ramp [1]) (ramp [1]) (ramp [1])).
Proof.
  apply (@conv_init_forward_hook_features Z _ sample_env
           (ConvLayer.mkConv 2 2 [2] [1] [0] "zeros" (ramp [2; 2; 2])
              (Some (ramp [2])))
           (ramp [1]) (ramp [1]) (ramp [1]) (ramp [1]) (ramp [1; 2; 3])
           [] 1 3 2 1);
    try reflexivity; lia.
Defined.

(** X16 at a sample layer with bias and a single gradient. *)
Lemma conv_mat_grads_errors_witness :
  ConvLayer.mat_grads (sample_conv_trained 2 2 [2] true 3)
    [ramp [2; 2; 2]] = Raise ValueError.
Proof.
  apply (proj1 (conv_mat_grads_errors
                  (sample_conv_trained 2 2 [2] true 3) eq_refl)).
  simpl. lia.
Defined.

(** X17 at a layer whose covariance cannot be inverted. *)
Lemma conv_multiply_preconditioner_helper_errors_witness :
  ConvLayer.multiply_preconditioner singular_conv
    [ramp [2; 2; 2]; ramp [2]] 1%Z = Raise RuntimeError.
Proof.
  destruct (@conv_multiply_preconditioner_helper_errors Z _ singular_env
              singular_conv [ramp [2; 2; 2]; ramp [2]] 1%Z 3 RuntimeError
              eq_refl) as [_ [Ha _]].
  apply (Ha 1%Z 1%Z); reflexivity.
Defined.

(** ** The bias column, from [update_cov] to [multiply_preconditioner] *)

Section BiasColumnClaim.
Context {T : Type} `{Scalar T} `{KfacEnv T}.

(** C6.  With [append_homog] as the specification describes it and a
    module with bias:
    - [update_cov] of either layer hands [compute_cov] the activations
      (flattened in the convolutional layer, centred when asked to) with
      the column of ones as their LAST column, and folds the result into
      the accumulators;
    - [grads_to_mat] of the linear layer puts the bias gradient in the
      LAST column, and [mat_to_grads] takes the bias piece from there;
    - [multiply_preconditioner] of the convolutional layer assembles a
      matrix with the bias gradient in the LAST column, the same column
      index as the ones of the activations, and returns as bias piece the
      last column of the preconditioned matrix. *)
Theorem bias_column_is_last :
  (forall t, append_homog t = append_homog_spec t) ->
  (forall (self : LinearLayer.t) (a s : Tensor T) (n f : nat),
      LinearLayer.has_bias self = true ->
      centred (LinearLayer._center self) (LinearLayer._activations self)
        (LinearLayer._sensitivities self) = Ok (a, s) ->
      shape a = [n; f] ->
      exists h,
        shape h = [n; f + 1] /\
        (forall i j, i < n -> j < f -> tget h [i; j] = tget a [i; j]) /\
        (forall i, i < n -> tget h [i; f] = s_one) /\
        LinearLayer.update_cov self
        = (b <- fold_cov (LinearLayer.base self) h s ;;
           Ok (LinearLayer.mk (LinearLayer.module self)
                 (LinearLayer._center self) b
                 (LinearLayer._activations self)
                 (LinearLayer._sensitivities self))))
  /\
  (forall (self : ConvLayer.t) (act2 sen2 a s : Tensor T) (n f : nat),
      ConvLayer.has_bias self = true ->
      (k <- shape_last (ConvLayer._activations self) ;;
       reshape [(-1)%Z; Z.of_nat k] (ConvLayer._activations self))
      = Ok act2 ->
      (k <- shape_last (ConvLayer._sensitivities self) ;;
       reshape [(-1)%Z; Z.of_nat k] (ConvLayer._sensitivities self))
      = Ok sen2 ->
      centred (ConvLayer._center self) act2 sen2 = Ok (a, s) ->
      shape a = [n; f] ->
      exists h,
        shape h = [n; f + 1] /\
        (forall i j, i < n -> j < f -> tget h [i; j] = tget a [i; j]) /\
        (forall i, i < n -> tget h [i; f] = s_one) /\
        ConvLayer.update_cov self
        = (b <- fold_cov (ConvLayer.base self) h s ;;
           Ok (ConvLayer.mk (ConvLayer.module self) (ConvLayer.n_dim self)
                 b (ConvLayer._activations self)
                 (ConvLayer._sensitivities self)
                 (ConvLayer._center self))))
  /\
  (forall (self : LinearLayer.t) (w b : Tensor T) (o f : nat),
      LinearLayer.has_bias self = true ->
      shape w = [o; f] -> shape b = [o] -> wf b ->
      exists m,
        LinearLayer.grads_to_mat self [w; b] = Ok m /\
        shape m = [o; f + 1] /\
        (forall i j, i < o -> j < f -> tget m [i; j] = tget w [i; j]) /\
        (forall i, i < o -> tget m [i; f] = tget b [i]))
  /\
  (forall (self : LinearLayer.t) (m : Tensor T) (o f : nat),
      LinearLayer.has_bias self = true ->
      shape m = [o; f + 1] -> wf m ->
      exists w b,
        LinearLayer.mat_to_grads self m = Ok [w; b] /\
        shape w = [o; f] /\ shape b = [o] /\
        (forall i j, i < o -> j < f -> tget w [i; j] = tget m [i; j]) /\
        (forall i, i < o -> tget b [i] = tget m [i; f]))
  /\
  (forall (self : ConvLayer.t) (w b : Tensor T)
          (damping a_damp s_damp : T) (act_inv sen_inv : Tensor T)
          (locations o c : nat) (ks : list nat),
      ConvLayer.has_bias self = true ->
      shape_at (ConvLayer._activations self) 1 = Ok locations ->
      compute_damping (ConvLayer.base self) damping locations
      = Ok (a_damp, s_damp) ->
      inverse_by_cholesky
        (value (_activations_cov (ConvLayer.base self))) a_damp
      = Ok act_inv ->
      inverse_by_cholesky
        (value (_sensitivities_cov (ConvLayer.base self))) s_damp
      = Ok sen_inv ->
      shape act_inv = [c * prod_list ks + 1; c * prod_list ks + 1] ->
      shape sen_inv = [o; o] ->
      shape w = o :: c :: ks -> wf w -> is_contiguous w = true ->
      shape b = [o] -> wf b -> 0 < o ->
      exists m q w' b',
        ConvLayer.mat_grads self [w; b] = Ok m /\
        shape m = [o; c * prod_list ks + 1] /\
        (forall i idx, i < o -> valid_index (c :: ks) idx ->
            tget m [i; dot idx (contiguous_strides (c :: ks))]
            = tget w (i :: idx)) /\
        (forall i, i < o -> tget m [i; c * prod_list ks] = tget b [i]) /\
        (p <- matmul sen_inv m ;; matmul p act_inv) = Ok q /\
        ConvLayer.multiply_preconditioner self [w; b] damping
        = Ok [w'; b'] /\
        shape b' = [o] /\
        (forall i idx, i < o -> valid_index (c :: ks) idx ->
            tget w' (i :: idx)
            = s_div (tget q [i; dot idx (contiguous_strides (c :: ks))])
                (s_of_nat locations)) /\
        (forall i, i < o ->
            tget b' [i]
            = s_div (tget q [i; c * prod_list ks]) (s_of_nat locations))).
Proof.
  intros Hspec. repeat apply conj.
  - intros self a s n f Hb Hc Ha.
    destruct (append_homog_spec_column a Ha) as [h [Hh [Hs [Hg Ho]]]].
    exists h. split; [exact Hs|]. split; [exact Hg|]. split; [exact Ho|].
    unfold LinearLayer.update_cov, LinearLayer.cov_inputs.
    unfold centred in Hc. rewrite Hc, Hb. cbn [bind].
    rewrite Hspec, Hh. cbn [bind]. unfold fold_cov.
    destruct (compute_cov h); cbn [bind]; [|reflexivity].
    destruct (compute_cov s); cbn [bind]; [|reflexivity].
    destruct (add_to_average _ _); cbn [bind]; [|reflexivity].
    destruct (add_to_average _ _); cbn [bind]; reflexivity.
  - intros self act2 sen2 a s n f Hb Hact Hsen Hc Ha.
    destruct (append_homog_spec_column a Ha) as [h [Hh [Hs [Hg Ho]]]].
    exists h. split; [exact Hs|]. split; [exact Hg|]. split; [exact Ho|].
    unfold ConvLayer.update_cov, ConvLayer.cov_inputs.
    unfold bind at 1 in Hact. unfold bind at 1 in Hsen.
    destruct (shape_last (ConvLayer._activations self)) as [ka|e];
      [|discriminate].
    cbn [bind]. rewrite Hact. cbn [bind].
    destruct (shape_last (ConvLayer._sensitivities self)) as [ks|e];
      [|discriminate].
    cbn [bind]. rewrite Hsen. cbn [bind].
    unfold centred in Hc. rewrite Hc, Hb. cbn [bind].
    rewrite Hspec, Hh. cbn [bind]. unfold fold_cov.
    destruct (compute_cov h); cbn [bind]; [|reflexivity].
    destruct (compute_cov s); cbn [bind]; [|reflexivity].
    destruct (add_to_average _ _); cbn [bind]; [|reflexivity].
    destruct (add_to_average _ _); cbn [bind]; reflexivity.
  - intros self w b o f Hb Hw Hbs Hwf.
    pose proof cat_bias_column as Hcat.
    specialize Hcat with (1 := Hw) (2 := Hbs) (3 := Hwf).
    destruct Hcat as [m [Hm [Hsm [_ [_ [Hgw Hgb]]]]]].
    exists m. unfold LinearLayer.grads_to_mat. rewrite Hb.
    cbn [unpack2 bind]. auto.
  - intros self m o f Hb Hm Hwf. rewrite Nat.add_1_r in Hm.
    pose proof split_last_column as Hsplit.
    specialize Hsplit with (1 := Hm) (2 := Hwf).
    destruct Hsplit as [w [b [Hw [Hbl [Hsw [Hsb [Hgw Hgb]]]]]]].
    exists w, b. unfold LinearLayer.mat_to_grads. rewrite Hb, Hw, Hbl.
    cbn [bind]. auto.
  - intros self w b damping a_damp s_damp act_inv sen_inv locations o c ks
           Hb Hl Hd Ha Hs Hsa Hss Hw Hwfw Hc Hbs Hwfb Ho.
    pose proof conv_mat_grads_entries as Hmat.
    specialize Hmat with (1 := Hb) (2 := Hw) (3 := Hwfw) (4 := Hc)
                         (5 := Hbs) (6 := Hwfb) (7 := Ho).
    destruct Hmat as [m [Hm [Hsm [Hmw Hmb]]]].
    pose proof matmul_shape as Hp.
    specialize Hp with (1 := Hss) (2 := Hsm). destruct Hp as [p [Hp Hsp]].
    pose proof matmul_shape as Hq.
    specialize Hq with (1 := Hsp) (2 := Hsa). destruct Hq as [q [Hq Hsq]].
    set (f := c * prod_list ks) in *.
    assert (Hf : prod_list (c :: ks) = f) by reflexivity.
    pose proof conv_split_grads_bias as Hsplit.
    specialize (Hsplit self w (div_int q locations) [b] o (c :: ks) Hb).
    rewrite Hf in Hsplit.
    specialize (Hsplit Hsq (wf_from_fun _ _) Hw).
    destruct Hsplit as [w' [b' [Hsp' [Hsw' [Hsb' [Hgw' Hgb']]]]]].
    exists m, q, w', b'.
    split; [exact Hm|]. split; [exact Hsm|]. split; [exact Hmw|].
    split; [exact Hmb|].
    split; [rewrite Hp; cbn [bind]; exact Hq|].
    split.
    { unfold ConvLayer.multiply_preconditioner.
      rewrite Hl. cbn [bind]. rewrite Hd. cbn [bind].
      rewrite Ha, Hs. cbn [bind]. rewrite Hm. cbn [bind].
      unfold ConvLayer.nat_grads. rewrite Hl. cbn [bind].
      rewrite Hp. cbn [bind]. rewrite Hq. cbn [bind]. exact Hsp'. }
    split; [exact Hsb'|]. split.
    + intros i idx Hi Hv. rewrite Hgw' by assumption.
      pose proof (dot_bound _ _ Hv) as Hlt. rewrite Hf in Hlt.
      unfold div_int. rewrite tget_from_fun; [reflexivity|].
      rewrite Hsq. cbn [valid_index]. lia.
    + intros i Hi. rewrite Hgb' by assumption.
      unfold div_int. rewrite tget_from_fun; [reflexivity|].
      rewrite Hsq. cbn [valid_index]. lia.
Qed.
End BiasColumnClaim.

(** C6 at a linear layer with three inputs and a bias. *)
Lemma bias_column_is_last_witness :
  exists h,
    shape h = [2; 3 + 1] /\
    (forall i j, i < 2 -> j < 3 ->
        tget h [i; j] = tget (ramp [2; 3]) [i; j]) /\
    (forall i, i < 2 -> tget h [i; 3] = s_one) /\
    LinearLayer.update_cov
      (LinearLayer.mk (H0 := homog_env)
         (LinearLayer.mkLinear 3 2 (ramp [2; 3]) (Some (ramp [2])))
         false (mkLayer 4 2 (ramp [4; 4]) (ramp [2; 2]))
         (ramp [2; 3]) (ramp [2; 2]))
    = (b <- fold_cov (H := homog_env)
              (mkLayer 4 2 (ramp [4; 4]) (ramp [2; 2])) h (ramp [2; 2]) ;;
       Ok (LinearLayer.mk (H0 := homog_env)
             (LinearLayer.mkLinear 3 2 (ramp [2; 3]) (Some (ramp [2])))
             false b (ramp [2; 3]) (ramp [2; 2]))).
Proof.
  apply (proj1 (bias_column_is_last (T := Z) (H0 := homog_env)
                  (fun t => eq_refl))
           (LinearLayer.mk (H0 := homog_env)
              (LinearLayer.mkLinear 3 2 (ramp [2; 3]) (Some (ramp [2])))
              false (mkLayer 4 2 (ramp [4; 4]) (ramp [2; 2]))
              (ramp [2; 3]) (ramp [2; 2])));
    reflexivity.
Defined.
